(** * Clanker Town: the on-chain resource game and the agent backend

    A shallow embedding of
    - [game_nft/sources/game_nft.move] (module [resource_game]): generators,
      player resources and trade proposals on the ledger;
    - [GameWorld] (in-memory world store of the agent backend);
    - [SuiGameService] (ledger client: enumeration of generators, projection
      of generators into the world store, the recapture heuristic);
    - [WorldContextServiceExtended] (the textual context given to an agent).

    Conventions.  A Move [u64] is a [Z] in [[0, 2^64)]; Move arithmetic aborts
    on overflow, underflow and division by zero, which is written out;
    emitted events change no object and are left out.  A
    JavaScript number is a real number (no NaN, no infinities, no rounding);
    integers read from the ledger with [parseInt] are kept as [Z].  A
    JavaScript string is a [string] of 8-bit characters.  A [Map] is an
    association list in insertion order.  An awaited call that may reject is
    a value of type [Exc]. *)

From Stdlib Require Import ZArith List String Ascii Bool Lia.
From Stdlib Require Import Reals Lra.
From Stdlib Require DecimalString.
Import ListNotations.

(* ================================================================== *)
(** * The Move module [game_nft::resource_game] *)
(* ================================================================== *)

Module ResourceGame.

Local Open Scope Z_scope.

(** ** Transactions: a result or an abort *)

Inductive AbortReason : Type :=
| AssertFailed (code : Z)
| ArithmeticError
| VectorOutOfBounds.

Inductive Tx (A : Type) : Type :=
| Ok (a : A)
| Abort (r : AbortReason).

Arguments Ok {A} a.
Arguments Abort {A} r.

Definition bind {A B : Type} (m : Tx A) (k : A -> Tx B) : Tx B :=
  match m with
  | Ok a => k a
  | Abort r => Abort r
  end.

Notation "x <- m ;; k" := (bind m (fun x => k))
  (at level 61, m at next level, right associativity).
Notation "m ;;; k" := (bind m (fun _ => k))
  (at level 61, right associativity).

Definition assert (b : bool) (code : Z) : Tx unit :=
  if b then Ok tt else Abort (AssertFailed code).

(** ** Errors and constants *)

Definition E_NOT_PARTICIPANT : Z := 1.
Definition E_GENERATOR_OCCUPIED : Z := 2.
Definition E_NOT_OWNER : Z := 3.
Definition E_INSUFFICIENT_RESOURCES : Z := 4.

Definition GENERATION_INTERVAL_MS : Z := 60000.
Definition BASE_GENERATION : Z := 10.
Definition BASE_CAP : Z := 1000.

Definition WOOD : Z := 0.
Definition STONE : Z := 1.

(** ** Checked [u64] arithmetic *)

Definition MAX_U64 : Z := 18446744073709551615.

Definition is_u64 (n : Z) : Prop := 0 <= n <= MAX_U64.

Definition add (a b : Z) : Tx Z :=
  if a + b <=? MAX_U64 then Ok (a + b) else Abort ArithmeticError.

Definition sub (a b : Z) : Tx Z :=
  if b <=? a then Ok (a - b) else Abort ArithmeticError.

Definition mul (a b : Z) : Tx Z :=
  if a * b <=? MAX_U64 then Ok (a * b) else Abort ArithmeticError.

Definition div (a b : Z) : Tx Z :=
  if b =? 0 then Abort ArithmeticError else Ok (a / b).

(** ** Addresses, object identifiers, transaction context *)

Definition address : Type := Z.
Definition ID : Type := (Z * Z)%type.

Definition address_eqb (a b : address) : bool := a =? b.
Definition ID_eqb (a b : ID) : bool :=
  (fst a =? fst b) && (snd a =? snd b).

(** [@0x0] *)
Definition ZERO_ADDRESS : address := 0.

Record TxContext : Type := mkTxContext {
  sender : address;
  tx_hash : Z;
  ids_created : Z
}.

(** [object::new]: a fresh identifier derived from the transaction hash and
    the number of identifiers the transaction has created so far. *)
Definition object_new (ctx : TxContext) : ID * TxContext :=
  ((tx_hash ctx, ids_created ctx),
   mkTxContext (sender ctx) (tx_hash ctx) (ids_created ctx + 1)).

(** [vector::contains] *)
Definition contains (v : list address) (a : address) : bool :=
  existsb (address_eqb a) v.

(** ** Objects *)

Module GameMatch.
Record t : Type := mk {
    id : ID;
    creator : address;
    participants : list address
  }.
End GameMatch.

Module PlayerResources.
Record t : Type := mk {
    id : ID;
    game_id : ID;
    owner : address;
    wood : Z;
    stone : Z;
    emerald : Z
  }.
End PlayerResources.

Module Generator.
Record t : Type := mk {
    id : ID;
    game_id : ID;
    resource_type : Z;
    x : Z;
    y : Z;
    owner : address;
    level : Z;
    generation_rate : Z;
    max_cap : Z;
    unclaimed : Z;
    last_claim_time : Z;
    last_recaptured_by : address;
    last_recaptured_from : address
  }.
End Generator.

Module TradeProposal.
Record t : Type := mk {
    id : ID;
    game_id : ID;
    proposer : address;
    target : address;
    wood_offered : Z;
    stone_offered : Z;
    emerald_offered : Z;
    wood_requested : Z;
    stone_requested : Z;
    emerald_requested : Z
  }.
End TradeProposal.

(** Crediting [amount] to the counter selected by a generator's resource
    type: the three-way branch shared by [claim_resources] and
    [recapture_generator]. *)
Definition credit (resource_type : Z) (r : PlayerResources.t) (amount : Z)
  : Tx PlayerResources.t :=
  let '(PlayerResources.mk i g o w s e) := r in
  if resource_type =? WOOD then
    w' <- add w amount ;; Ok (PlayerResources.mk i g o w' s e)
  else if resource_type =? STONE then
    s' <- add s amount ;; Ok (PlayerResources.mk i g o w s' e)
  else
    e' <- add e amount ;; Ok (PlayerResources.mk i g o w s e').

(** ** Entry functions *)

(** The loop of [create_generators]: one shared generator per x coordinate,
    the y coordinate borrowed at the same index. *)
Fixpoint create_generators_loop (game_id : ID) (resource_type : Z)
    (current_time : Z) (x_coords y_coords : list Z) (ctx : TxContext)
  : Tx (list Generator.t * TxContext) :=
  match x_coords with
  | [] => Ok ([], ctx)
  | x :: xs =>
      match y_coords with
      | [] => Abort VectorOutOfBounds
      | y :: ys =>
          let '(uid, ctx1) := object_new ctx in
          let generator :=
            Generator.mk uid game_id resource_type x y
              ZERO_ADDRESS 0 BASE_GENERATION BASE_CAP 0 current_time
              ZERO_ADDRESS ZERO_ADDRESS in
          rest <- create_generators_loop game_id resource_type
                    current_time xs ys ctx1 ;;
          Ok (generator :: fst rest, snd rest)
      end
  end.

(** [create_generators]: the generators it shares, in creation order. *)
Definition create_generators (game : GameMatch.t) (resource_type : Z)
    (x_coords y_coords : list Z) (clock : Z) (ctx : TxContext)
  : Tx (list Generator.t * TxContext) :=
  assert (address_eqb (sender ctx) (GameMatch.creator game))
         E_NOT_PARTICIPANT ;;;
  create_generators_loop (GameMatch.id game) resource_type clock
    x_coords y_coords ctx.

Definition claim_generator (game : GameMatch.t) (generator : Generator.t)
    (clock : Z) (ctx : TxContext) : Tx Generator.t :=
  assert (contains (GameMatch.participants game) (sender ctx))
         E_NOT_PARTICIPANT ;;;
  assert (address_eqb (Generator.owner generator) ZERO_ADDRESS)
         E_GENERATOR_OCCUPIED ;;;
  let '(Generator.mk i g rt x y _ lv rate cap un _ by_ from_) := generator in
  Ok (Generator.mk i g rt x y (sender ctx) lv rate cap un clock by_ from_).

(** The amount a generator has accrued at [current_time], capped. *)
Definition settle (generator : Generator.t) (current_time : Z) : Tx Z :=
  time_diff <- sub current_time (Generator.last_claim_time generator) ;;
  intervals <- div time_diff GENERATION_INTERVAL_MS ;;
  generated <- mul intervals (Generator.generation_rate generator) ;;
  total <- add (Generator.unclaimed generator) generated ;;
  Ok (if Generator.max_cap generator <? total
      then Generator.max_cap generator else total).

Definition claim_resources (generator : Generator.t)
    (player_resources : PlayerResources.t) (clock : Z) (ctx : TxContext)
  : Tx (Generator.t * PlayerResources.t) :=
  assert (address_eqb (Generator.owner generator) (sender ctx))
         E_NOT_OWNER ;;;
  assert (address_eqb (PlayerResources.owner player_resources) (sender ctx))
         E_NOT_OWNER ;;;
  to_claim <- settle generator clock ;;
  if 0 <? to_claim then
    player_resources' <-
      credit (Generator.resource_type generator) player_resources to_claim ;;
    let '(Generator.mk i g rt x y o lv rate cap _ _ by_ from_) := generator in
    Ok (Generator.mk i g rt x y o lv rate cap 0 clock by_ from_,
        player_resources')
  else Ok (generator, player_resources).

Definition upgrade_generator (generator : Generator.t)
    (player_resources : PlayerResources.t) (ctx : TxContext)
  : Tx (Generator.t * PlayerResources.t) :=
  assert (address_eqb (Generator.owner generator) (sender ctx))
         E_NOT_OWNER ;;;
  assert (address_eqb (PlayerResources.owner player_resources) (sender ctx))
         E_NOT_OWNER ;;;
  let base_cost := 100 in
  level1 <- add (Generator.level generator) 1 ;;
  cost <- mul base_cost level1 ;;
  let '(PlayerResources.mk ri rg ro w s e) := player_resources in
  assert (cost <=? w) E_INSUFFICIENT_RESOURCES ;;;
  assert (cost <=? s) E_INSUFFICIENT_RESOURCES ;;;
  half <- div cost 2 ;;
  assert (half <=? e) E_INSUFFICIENT_RESOURCES ;;;
  w' <- sub w cost ;;
  s' <- sub s cost ;;
  half' <- div cost 2 ;;
  e' <- sub e half' ;;
  let '(Generator.mk i g rt x y o lv _ _ un t by_ from_) := generator in
  lv' <- add lv 1 ;;
  twice <- mul BASE_GENERATION 2 ;;
  lv'1 <- add lv' 1 ;;
  rate' <- mul twice lv'1 ;;
  lv'2 <- add lv' 1 ;;
  cap' <- mul BASE_CAP lv'2 ;;
  Ok (Generator.mk i g rt x y o lv' rate' cap' un t by_ from_,
      PlayerResources.mk ri rg ro w' s' e').

Definition recapture_generator (game : GameMatch.t) (generator : Generator.t)
    (attacker_resources : PlayerResources.t) (clock : Z) (ctx : TxContext)
  : Tx (Generator.t * PlayerResources.t) :=
  assert (contains (GameMatch.participants game) (sender ctx))
         E_NOT_PARTICIPANT ;;;
  assert (negb (address_eqb (Generator.owner generator) ZERO_ADDRESS))
         E_NOT_OWNER ;;;
  assert (negb (address_eqb (Generator.owner generator) (sender ctx)))
         E_NOT_OWNER ;;;
  let previous_owner := Generator.owner generator in
  stolen <- settle generator clock ;;
  attacker_resources' <-
    (if 0 <? stolen
     then credit (Generator.resource_type generator) attacker_resources stolen
     else Ok attacker_resources) ;;
  let '(Generator.mk i g rt x y _ _ _ _ _ _ _ _) := generator in
  Ok (Generator.mk i g rt x y (sender ctx) 0 BASE_GENERATION BASE_CAP 0
        clock (sender ctx) previous_owner,
      attacker_resources').

(** [accept_trade] takes the proposal by value: on success the proposal is
    unpacked and its identifier deleted, so only the two records remain. *)
Definition accept_trade (proposal : TradeProposal.t)
    (proposer_resources accepter_resources : PlayerResources.t)
    (ctx : TxContext) : Tx (PlayerResources.t * PlayerResources.t) :=
  let accepter := sender ctx in
  let '(TradeProposal.mk _ _ proposer target wo so eo wr sr er) := proposal in
  let '(PlayerResources.mk pi pg po pw ps pe) := proposer_resources in
  let '(PlayerResources.mk ai ag ao aw as_ ae) := accepter_resources in
  assert (address_eqb accepter target) E_NOT_OWNER ;;;
  assert (address_eqb ao accepter) E_NOT_OWNER ;;;
  assert (address_eqb po proposer) E_NOT_OWNER ;;;
  assert (wo <=? pw) E_INSUFFICIENT_RESOURCES ;;;
  assert (so <=? ps) E_INSUFFICIENT_RESOURCES ;;;
  assert (eo <=? pe) E_INSUFFICIENT_RESOURCES ;;;
  assert (wr <=? aw) E_INSUFFICIENT_RESOURCES ;;;
  assert (sr <=? as_) E_INSUFFICIENT_RESOURCES ;;;
  assert (er <=? ae) E_INSUFFICIENT_RESOURCES ;;;
  pw1 <- sub pw wo ;; pw' <- add pw1 wr ;;
  ps1 <- sub ps so ;; ps' <- add ps1 sr ;;
  pe1 <- sub pe eo ;; pe' <- add pe1 er ;;
  aw1 <- add aw wo ;; aw' <- sub aw1 wr ;;
  as1 <- add as_ so ;; as' <- sub as1 sr ;;
  ae1 <- add ae eo ;; ae' <- sub ae1 er ;;
  Ok (PlayerResources.mk pi pg po pw' ps' pe',
      PlayerResources.mk ai ag ao aw' as' ae').

Definition cancel_trade (proposal : TradeProposal.t) (ctx : TxContext)
  : Tx unit :=
  assert (address_eqb (sender ctx) (TradeProposal.proposer proposal)
          || address_eqb (sender ctx) (TradeProposal.target proposal))
         E_NOT_OWNER.

(** ** Transactions seen from the objects they touch *)

(** The three objects [accept_trade] is called on, before and after the
    transaction.  An aborted transaction changes nothing; a successful one
    writes both records back and leaves no proposal. *)
Record TradeObjects : Type := mkTradeObjects {
  the_proposal : option TradeProposal.t;
  proposer_record : PlayerResources.t;
  accepter_record : PlayerResources.t
}.

Definition exec_accept_trade (proposal : TradeProposal.t)
    (proposer_resources accepter_resources : PlayerResources.t)
    (ctx : TxContext) : TradeObjects :=
  match accept_trade proposal proposer_resources accepter_resources ctx with
  | Ok (p', a') => mkTradeObjects None p' a'
  | Abort _ => mkTradeObjects (Some proposal) proposer_resources
                 accepter_resources
  end.

(** The preconditions [accept_trade] asserts. *)
Definition accept_preconditions (proposal : TradeProposal.t)
    (proposer_resources accepter_resources : PlayerResources.t)
    (ctx : TxContext) : Prop :=
  sender ctx = TradeProposal.target proposal /\
  PlayerResources.owner accepter_resources = sender ctx /\
  PlayerResources.owner proposer_resources = TradeProposal.proposer proposal /\
  TradeProposal.wood_offered proposal <= PlayerResources.wood proposer_resources /\
  TradeProposal.stone_offered proposal <= PlayerResources.stone proposer_resources /\
  TradeProposal.emerald_offered proposal <= PlayerResources.emerald proposer_resources /\
  TradeProposal.wood_requested proposal <= PlayerResources.wood accepter_resources /\
  TradeProposal.stone_requested proposal <= PlayerResources.stone accepter_resources /\
  TradeProposal.emerald_requested proposal <= PlayerResources.emerald accepter_resources.

(** No balance leaves the [u64] range while the exchange is computed: the
    proposer's new balance and the accepter's balance plus the offer. *)
Definition accept_fits (proposal : TradeProposal.t)
    (proposer_resources accepter_resources : PlayerResources.t) : Prop :=
  PlayerResources.wood proposer_resources - TradeProposal.wood_offered proposal
    + TradeProposal.wood_requested proposal <= MAX_U64 /\
  PlayerResources.stone proposer_resources - TradeProposal.stone_offered proposal
    + TradeProposal.stone_requested proposal <= MAX_U64 /\
  PlayerResources.emerald proposer_resources - TradeProposal.emerald_offered proposal
    + TradeProposal.emerald_requested proposal <= MAX_U64 /\
  PlayerResources.wood accepter_resources + TradeProposal.wood_offered proposal
    <= MAX_U64 /\
  PlayerResources.stone accepter_resources + TradeProposal.stone_offered proposal
    <= MAX_U64 /\
  PlayerResources.emerald accepter_resources + TradeProposal.emerald_offered proposal
    <= MAX_U64.

(** The generator states the entry functions can produce: a generator is
    created by [create_generators] and then passed, as [&mut Generator], to
    [claim_generator], [claim_resources], [upgrade_generator] and
    [recapture_generator]; an aborted call leaves it as it was. *)
Inductive reachable : Generator.t -> Prop :=
| reach_create game resource_type x_coords y_coords clock ctx gens ctx' g :
    create_generators game resource_type x_coords y_coords clock ctx
      = Ok (gens, ctx') ->
    In g gens ->
    reachable g
| reach_claim_generator game g clock ctx g' :
    reachable g ->
    claim_generator game g clock ctx = Ok g' ->
    reachable g'
| reach_claim_resources g r clock ctx g' r' :
    reachable g ->
    claim_resources g r clock ctx = Ok (g', r') ->
    reachable g'
| reach_upgrade_generator g r ctx g' r' :
    reachable g ->
    upgrade_generator g r ctx = Ok (g', r') ->
    reachable g'
| reach_recapture_generator game g r clock ctx g' r' :
    reachable g ->
    recapture_generator game g r clock ctx = Ok (g', r') ->
    reachable g'.

(** Well-formed objects: every counter is a [u64]. *)
Definition valid_resources (r : PlayerResources.t) : Prop :=
  is_u64 (PlayerResources.wood r) /\ is_u64 (PlayerResources.stone r) /\
  is_u64 (PlayerResources.emerald r).

Definition valid_proposal (p : TradeProposal.t) : Prop :=
  is_u64 (TradeProposal.wood_offered p) /\
  is_u64 (TradeProposal.stone_offered p) /\
  is_u64 (TradeProposal.emerald_offered p) /\
  is_u64 (TradeProposal.wood_requested p) /\
  is_u64 (TradeProposal.stone_requested p) /\
  is_u64 (TradeProposal.emerald_requested p).

(** The records after a full exchange, as the claim describes it. *)
Definition exchanged_proposer (p : TradeProposal.t) (r : PlayerResources.t)
  : PlayerResources.t :=
  PlayerResources.mk (PlayerResources.id r) (PlayerResources.game_id r)
    (PlayerResources.owner r)
    (PlayerResources.wood r - TradeProposal.wood_offered p
       + TradeProposal.wood_requested p)
    (PlayerResources.stone r - TradeProposal.stone_offered p
       + TradeProposal.stone_requested p)
    (PlayerResources.emerald r - TradeProposal.emerald_offered p
       + TradeProposal.emerald_requested p).

Definition exchanged_accepter (p : TradeProposal.t) (r : PlayerResources.t)
  : PlayerResources.t :=
  PlayerResources.mk (PlayerResources.id r) (PlayerResources.game_id r)
    (PlayerResources.owner r)
    (PlayerResources.wood r + TradeProposal.wood_offered p
       - TradeProposal.wood_requested p)
    (PlayerResources.stone r + TradeProposal.stone_offered p
       - TradeProposal.stone_requested p)
    (PlayerResources.emerald r + TradeProposal.emerald_offered p
       - TradeProposal.emerald_requested p).

(** The invariant carried along every reachable state: nothing is ever left
    accrued on the object, and cap and level are non-negative. *)
Definition settled (g : Generator.t) : Prop :=
  Generator.unclaimed g = 0 /\ 0 <= Generator.max_cap g /\
  0 <= Generator.level g.

(** A match, its creator's transaction and a participant's transaction. *)
Definition game0 : GameMatch.t := GameMatch.mk (7, 0) 100 [100; 200].
Definition ctx_creator : TxContext := mkTxContext 100 8 0.
Definition ctx_200 : TxContext := mkTxContext 200 9 0.
Definition gen_created : Generator.t :=
  Generator.mk (8, 0) (7, 0) 0 3 4 0 0 10 1000 0 5000 0 0.
Definition gen_claimed : Generator.t :=
  Generator.mk (8, 0) (7, 0) 0 3 4 200 0 10 1000 0 6000 0 0.

(** A proposal of participant 100 to participant 200: 5 wood for 2 stone. *)
Definition trade0 : TradeProposal.t :=
  TradeProposal.mk (9, 0) (7, 0) 100 200 5 0 0 0 2 0.
Definition res_100 : PlayerResources.t :=
  PlayerResources.mk (7, 1) (7, 0) 100 100 100 50.
Definition res_200 : PlayerResources.t :=
  PlayerResources.mk (7, 2) (7, 0) 200 100 100 50.

(** The same proposal against an accepter whose wood counter is full, as
    [create_match] hands it out for [initial_wood = 2^64 - 1]. *)
Definition res_200_full : PlayerResources.t :=
  PlayerResources.mk (7, 2) (7, 0) 200 MAX_U64 100 50.

(** ** Opening a match and proposing a trade *)

(** The loop of [create_match]: one record per participant, transferred to
    that participant. *)
Fixpoint create_match_loop (game_id : ID) (initial_wood initial_stone
    initial_emerald : Z) (participants : list address) (ctx : TxContext)
  : list PlayerResources.t * TxContext :=
  match participants with
  | [] => ([], ctx)
  | participant :: rest =>
      let '(uid, ctx1) := object_new ctx in
      let resources :=
        PlayerResources.mk uid game_id participant initial_wood initial_stone
          initial_emerald in
      let '(others, ctx2) :=
        create_match_loop game_id initial_wood initial_stone initial_emerald
          rest ctx1 in
      (resources :: others, ctx2)
  end.

(** [create_match]: the shared match and the records handed out, each to
    its [owner]. *)
Definition create_match (participants : list address) (initial_wood
    initial_stone initial_emerald : Z) (ctx : TxContext)
  : GameMatch.t * list PlayerResources.t * TxContext :=
  let '(game_uid, ctx1) := object_new ctx in
  let game := GameMatch.mk game_uid (sender ctx) participants in
  let '(records, ctx2) :=
    create_match_loop game_uid initial_wood initial_stone initial_emerald
      participants ctx1 in
  (game, records, ctx2).

(** [propose_trade] only reads the proposer's record; the proposal it
    shares is returned. *)
Definition propose_trade (game : GameMatch.t)
    (proposer_resources : PlayerResources.t) (target : address)
    (wood_offer stone_offer emerald_offer
     wood_request stone_request emerald_request : Z) (ctx : TxContext)
  : Tx (TradeProposal.t * TxContext) :=
  let proposer := sender ctx in
  assert (address_eqb (PlayerResources.owner proposer_resources) proposer)
         E_NOT_OWNER ;;;
  assert (contains (GameMatch.participants game) proposer)
         E_NOT_PARTICIPANT ;;;
  assert (contains (GameMatch.participants game) target)
         E_NOT_PARTICIPANT ;;;
  assert (wood_offer <=? PlayerResources.wood proposer_resources)
         E_INSUFFICIENT_RESOURCES ;;;
  assert (stone_offer <=? PlayerResources.stone proposer_resources)
         E_INSUFFICIENT_RESOURCES ;;;
  assert (emerald_offer <=? PlayerResources.emerald proposer_resources)
         E_INSUFFICIENT_RESOURCES ;;;
  let '(proposal_uid, ctx1) := object_new ctx in
  Ok (TradeProposal.mk proposal_uid (GameMatch.id game) proposer target
        wood_offer stone_offer emerald_offer
        wood_request stone_request emerald_request,
      ctx1).

(** ** Steps on one generator *)

(** One successful call on a generator, signed by an account other than
    [@0x0]. *)
Inductive signed_step (g g' : Generator.t) : Prop :=
| step_claim_generator game clock ctx :
    sender ctx <> ZERO_ADDRESS ->
    claim_generator game g clock ctx = Ok g' ->
    signed_step g g'
| step_claim_resources r clock ctx r' :
    sender ctx <> ZERO_ADDRESS ->
    claim_resources g r clock ctx = Ok (g', r') ->
    signed_step g g'
| step_upgrade_generator r ctx r' :
    sender ctx <> ZERO_ADDRESS ->
    upgrade_generator g r ctx = Ok (g', r') ->
    signed_step g g'
| step_recapture_generator game r clock ctx r' :
    sender ctx <> ZERO_ADDRESS ->
    recapture_generator game g r clock ctx = Ok (g', r') ->
    signed_step g g'.

Inductive signed_steps : Generator.t -> Generator.t -> Prop :=
| steps_none g : signed_steps g g
| steps_more g g' g'' :
    signed_step g g' -> signed_steps g' g'' -> signed_steps g g''.



(** A level-2 emerald generator of participant 200, last settled at 6000,
    and a record that can pay for one more upgrade. *)
Definition gen_level2 : Generator.t :=
  Generator.mk (8, 0) (7, 0) 2 3 4 200 2 60 3000 0 6000 0 0.
Definition res_200_rich : PlayerResources.t :=
  PlayerResources.mk (7, 2) (7, 0) 200 400 350 200.
Definition ctx_100 : TxContext := mkTxContext 100 10 0.

(** [gen_claimed] after one upgrade paid from [res_200_rich]. *)
Definition gen_upgraded : Generator.t :=
  Generator.mk (8, 0) (7, 0) 0 3 4 200 1 40 2000 0 6000 0 0.

End ResourceGame.

(* ================================================================== *)
(** * JavaScript values used by the agent backend *)
(* ================================================================== *)

Module JS.

Local Open Scope string_scope.

(** The outcome of an awaited call: a value, or a rejection. *)
Inductive Exc (A : Type) : Type :=
| Return (a : A)
| Throw (error : string).

Arguments Return {A} a.
Arguments Throw {A} error.

(** ** Strings *)

Definition lower_ascii (c : ascii) : ascii :=
  let n := nat_of_ascii c in
  if (65 <=? n)%nat && (n <=? 90)%nat then ascii_of_nat (n + 32) else c.

(** [s.toLowerCase()] *)
Fixpoint toLowerCase (s : string) : string :=
  match s with
  | EmptyString => EmptyString
  | String c s' => String (lower_ascii c) (toLowerCase s')
  end.

(** [s.includes(sub)] *)
Fixpoint includes (s sub : string) : bool :=
  String.prefix sub s
  || match s with
     | EmptyString => false
     | String _ s' => includes s' sub
     end.

(** [s.slice(0, n)] *)
Definition slice0 (n : nat) (s : string) : string := substring 0 n s.

(** [parts.join(sep)] *)
Definition join (sep : string) (parts : list string) : string :=
  String.concat sep parts.

(** An integer inside a template literal. *)
Definition show (n : Z) : string :=
  DecimalString.NilZero.string_of_int (Z.to_int n).

(** Truthiness of a string and of an optional string. *)
Definition truthy_string (s : string) : bool := negb (String.eqb s "").

Definition truthy (o : option string) : bool :=
  match o with
  | Some s => truthy_string s
  | None => false
  end.

(** [o || default] on an optional string. *)
Definition or_else (o : option string) (default : string) : string :=
  match o with
  | Some s => if truthy_string s then s else default
  | None => default
  end.

(** ** Numbers *)

Local Open Scope R_scope.

Definition Rleb (a b : R) : bool := if Rle_dec a b then true else false.
Definition Rltb (a b : R) : bool := if Rlt_dec a b then true else false.

(** [Math.floor] and [Math.round] (halves round up). *)
Definition Math_floor (r : R) : Z := Int_part r.
Definition Math_round (r : R) : Z := Int_part (r + / 2).

(** [Math.atan2(y, x)] on finite numbers: the angle of the point [(x, y)],
    in [(-PI, PI]], and [0] at the origin. *)
Definition Math_atan2 (y x : R) : R :=
  if Rlt_dec 0 x then atan (y / x)
  else if Rlt_dec x 0 then
         if Rle_dec 0 y then atan (y / x) + PI else atan (y / x) - PI
  else if Rlt_dec 0 y then PI / 2
  else if Rlt_dec y 0 then - PI / 2
  else 0.

(** ** Awaiting inside [try] / [catch] *)

Definition exc_bind {A B : Type} (m : Exc A) (k : A -> Exc B) : Exc B :=
  match m with
  | Return a => k a
  | Throw e => Throw e
  end.

Definition try_catch {A : Type} (body : Exc A) (handler : string -> Exc A)
  : Exc A :=
  match body with
  | Return a => Return a
  | Throw e => handler e
  end.

(** [parts.push(line)] *)
Definition push {A : Type} (parts : list A) (line : A) : list A :=
  (parts ++ [line])%list.

(** The line feed of ["\n"]. *)
Definition nl : string := String (ascii_of_nat 10) EmptyString.

End JS.

(* ================================================================== *)
(** * The in-memory world: [GameWorld] *)
(* ================================================================== *)

Module World.

Import JS.
Local Open Scope string_scope.

Module Position.
Record t : Type := mk { x : R; y : R }.
End Position.

Module GameAgent.
Record t : Type := mk {
    id : string;
    lettaAgentId : string;
    name : string;
    position : Position.t;
    description : string;
    createdAt : Z;
    suiAddress : string;
    suiPublicKey : string;
    suiPrivateKey : string
  }.
End GameAgent.

Module SpriteSheet.
Record t : Type := mk {
    url : string;
    frameCount : Z;
    frameWidth : Z;
    frameHeight : Z;
    fps : option Z;
    loop : option bool;
    columns : option Z
  }.
End SpriteSheet.

Module WorldItem.
Record t : Type := mk {
    id : string;
    name : string;
    position : Position.t;
    imageUrl : option string;
    spriteSheet : option SpriteSheet.t;
    size : option Z;
    interactive : option bool;
    description : option string;
    collectedBy : option string;
    collectedAt : option Z
  }.
End WorldItem.

(** [Omit<WorldItem, "id">] *)
Module NewItem.
Record t : Type := mk {
    name : string;
    position : Position.t;
    imageUrl : option string;
    spriteSheet : option SpriteSheet.t;
    size : option Z;
    interactive : option bool;
    description : option string;
    collectedBy : option string;
    collectedAt : option Z
  }.
End NewItem.

Module PlayerData.
Record t : Type := mk {
    id : string;
    name : option string;
    position : Position.t;
    (** [metadata?.suiAddress] *)
    metadata_suiAddress : option string
  }.
End PlayerData.

(** The persistence calls the world and the context builder await. *)
Module ElasticsearchService.
Record t : Type := mk {
    saveItem : WorldItem.t -> Exc unit;
    saveAgent : GameAgent.t -> Exc unit;
    updateAgentPosition : string -> Position.t -> Exc unit;
    updateItemCollection : string -> string -> Z -> Exc unit;
    addItemToPlayerInventory : string -> string -> Exc unit;
    getAllPlayers : Exc (list PlayerData.t)
  }.
End ElasticsearchService.

Module GameWorld.
Record t : Type := mk {
    agents : list (string * GameAgent.t);
    items : list (string * WorldItem.t);
    worldWidth : Z;
    worldHeight : Z;
    esService : option ElasticsearchService.t;
    persistenceEnabled : bool
  }.
End GameWorld.

(** What the process draws from outside: [uuidv4()], [Math.random()] and
    [new Date()]. *)
Record Runtime : Type := mkRuntime {
  uuid_source : nat -> string;
  uuids_drawn : nat;
  random_source : nat -> R;
  randoms_drawn : nat;
  clock : Z
}.

Record State : Type := mkState {
  runtime : Runtime;
  world : GameWorld.t
}.

(** ** Stateful computations that may reject.  A rejection keeps the
    mutations made before it. *)

Definition M (A : Type) : Type := State -> Exc A * State.

Definition ret {A : Type} (a : A) : M A := fun s => (Return a, s).

Definition bind {A B : Type} (m : M A) (k : A -> M B) : M B :=
  fun s =>
    match m s with
    | (Return a, s') => k a s'
    | (Throw e, s') => (Throw e, s')
    end.

Notation "x <- m ;; k" := (bind m (fun x => k))
  (at level 61, m at next level, right associativity).
Notation "m ;;; k" := (bind m (fun _ => k))
  (at level 61, right associativity).

Definition await {A : Type} (e : Exc A) : M A := fun s => (e, s).

Definition get_world : M GameWorld.t := fun s => (Return (world s), s).

Definition put_world (w : GameWorld.t) : M unit :=
  fun s => (Return tt, mkState (runtime s) w).

Definition uuidv4 : M string :=
  fun s =>
    let r := runtime s in
    (Return (uuid_source r (uuids_drawn r)),
     mkState (mkRuntime (uuid_source r) (S (uuids_drawn r))
                (random_source r) (randoms_drawn r) (clock r))
             (world s)).

Definition Math_random : M R :=
  fun s =>
    let r := runtime s in
    (Return (random_source r (randoms_drawn r)),
     mkState (mkRuntime (uuid_source r) (uuids_drawn r)
                (random_source r) (S (randoms_drawn r)) (clock r))
             (world s)).

Definition new_Date : M Z := fun s => (Return (clock (runtime s)), s).

(** ** [Map] as an association list in insertion order *)

Section MapOps.
Variable V : Type.

Fixpoint map_get (k : string) (m : list (string * V)) : option V :=
    match m with
    | [] => None
    | (k', v) :: rest => if String.eqb k k' then Some v else map_get k rest
    end.

Fixpoint map_set (k : string) (v : V) (m : list (string * V))
    : list (string * V) :=
    match m with
    | [] => [(k, v)]
    | (k', v') :: rest =>
        if String.eqb k k' then (k', v) :: rest
        else (k', v') :: map_set k v rest
    end.

Definition map_values (m : list (string * V)) : list V := map snd m.
End MapOps.

Arguments map_get {V} k m.
Arguments map_set {V} k v m.
Arguments map_values {V} m.

Definition set_agents (w : GameWorld.t) (a : list (string * GameAgent.t))
  : GameWorld.t :=
  GameWorld.mk a (GameWorld.items w) (GameWorld.worldWidth w)
    (GameWorld.worldHeight w) (GameWorld.esService w)
    (GameWorld.persistenceEnabled w).

Definition set_items (w : GameWorld.t) (i : list (string * WorldItem.t))
  : GameWorld.t :=
  GameWorld.mk (GameWorld.agents w) i (GameWorld.worldWidth w)
    (GameWorld.worldHeight w) (GameWorld.esService w)
    (GameWorld.persistenceEnabled w).

(** [if (this.persistenceEnabled && this.esService) await call(esService)] *)
Definition persist (w : GameWorld.t)
    (call : ElasticsearchService.t -> Exc unit) : M unit :=
  match GameWorld.esService w with
  | Some es => if GameWorld.persistenceEnabled w then await (call es)
               else ret tt
  | None => ret tt
  end.

(** The Euclidean distance every range query computes. *)
Definition distance (a b : Position.t) : R :=
  sqrt ((Position.x a - Position.x b) ^ 2 + (Position.y a - Position.y b) ^ 2).

(** ** Agents *)

Definition getRandomPosition : M Position.t :=
  w <- get_world ;;
  rx <- Math_random ;;
  ry <- Math_random ;;
  ret (Position.mk
         (IZR (Math_floor (rx * IZR (GameWorld.worldWidth w))))
         (IZR (Math_floor (ry * IZR (GameWorld.worldHeight w))))).

Definition addAgent (lettaAgentId name description suiAddress suiPublicKey
    suiPrivateKey : string) (position : option Position.t)
  : M GameAgent.t :=
  agentId <- uuidv4 ;;
  randomPosition <- match position with
                    | Some p => ret p
                    | None => getRandomPosition
                    end ;;
  createdAt <- new_Date ;;
  let agent := GameAgent.mk agentId lettaAgentId name randomPosition
                 description createdAt suiAddress suiPublicKey suiPrivateKey in
  w <- get_world ;;
  put_world (set_agents w (map_set agentId agent (GameWorld.agents w))) ;;;
  persist w (fun es => ElasticsearchService.saveAgent es agent) ;;;
  ret agent.

Definition getAgent (w : GameWorld.t) (agentId : string)
  : option GameAgent.t :=
  map_get agentId (GameWorld.agents w).

Definition clamp (p : Position.t) (w : GameWorld.t) : Position.t :=
  Position.mk
    (Rmax 0 (Rmin (Position.x p) (IZR (GameWorld.worldWidth w))))
    (Rmax 0 (Rmin (Position.y p) (IZR (GameWorld.worldHeight w)))).

Definition updateAgentPosition (agentId : string) (position : Position.t)
  : M (option GameAgent.t) :=
  w <- get_world ;;
  match map_get agentId (GameWorld.agents w) with
  | None => ret None
  | Some agent =>
      let agent' :=
        GameAgent.mk (GameAgent.id agent) (GameAgent.lettaAgentId agent)
          (GameAgent.name agent) (clamp position w)
          (GameAgent.description agent) (GameAgent.createdAt agent)
          (GameAgent.suiAddress agent) (GameAgent.suiPublicKey agent)
          (GameAgent.suiPrivateKey agent) in
      put_world (set_agents w (map_set agentId agent' (GameWorld.agents w))) ;;;
      persist w (fun es =>
        ElasticsearchService.updateAgentPosition es agentId
          (GameAgent.position agent')) ;;;
      ret (Some agent')
  end.

Definition getAllAgents (w : GameWorld.t) : list GameAgent.t :=
  map_values (GameWorld.agents w).

Definition getAgentsInRange (w : GameWorld.t) (position : Position.t)
    (range : R) : list GameAgent.t :=
  filter (fun agent => Rleb (distance (GameAgent.position agent) position) range)
         (getAllAgents w).

(** ** Items *)

Definition getAllItems (w : GameWorld.t) : list WorldItem.t :=
  filter (fun item => negb (truthy (WorldItem.collectedBy item)))
         (map_values (GameWorld.items w)).

Definition getItem (w : GameWorld.t) (itemId : string) : option WorldItem.t :=
  map_get itemId (GameWorld.items w).

Definition with_id (id : string) (item : NewItem.t) : WorldItem.t :=
  WorldItem.mk id (NewItem.name item) (NewItem.position item)
    (NewItem.imageUrl item) (NewItem.spriteSheet item) (NewItem.size item)
    (NewItem.interactive item) (NewItem.description item)
    (NewItem.collectedBy item) (NewItem.collectedAt item).

Definition addItem (item : NewItem.t) : M WorldItem.t :=
  id <- uuidv4 ;;
  let newItem := with_id id item in
  w <- get_world ;;
  put_world (set_items w (map_set id newItem (GameWorld.items w))) ;;;
  persist w (fun es => ElasticsearchService.saveItem es newItem) ;;;
  ret newItem.

Definition collectItem (itemId playerId : string) : M (option WorldItem.t) :=
  w <- get_world ;;
  match map_get itemId (GameWorld.items w) with
  | None => ret None
  | Some item =>
      if truthy (WorldItem.collectedBy item) then ret None
      else
        collectedAt <- new_Date ;;
        let item' :=
          WorldItem.mk (WorldItem.id item) (WorldItem.name item)
            (WorldItem.position item) (WorldItem.imageUrl item)
            (WorldItem.spriteSheet item) (WorldItem.size item)
            (WorldItem.interactive item) (WorldItem.description item)
            (Some playerId) (Some collectedAt) in
        put_world (set_items w (map_set itemId item' (GameWorld.items w))) ;;;
        persist w (fun es =>
          ElasticsearchService.updateItemCollection es itemId playerId
            collectedAt) ;;;
        persist w (fun es =>
          ElasticsearchService.addItemToPlayerInventory es playerId itemId) ;;;
        ret (Some item')
  end.

Definition getItemsInRange (w : GameWorld.t) (position : Position.t)
    (range : R) : list WorldItem.t :=
  filter (fun item => Rleb (distance (WorldItem.position item) position) range)
         (getAllItems w).

Definition getWorldDimensions (w : GameWorld.t) : Z * Z :=
  (GameWorld.worldWidth w, GameWorld.worldHeight w).

(** ** Bounds and sample states *)

Definition in_bounds (w : GameWorld.t) (p : Position.t) : Prop :=
  (0 <= Position.x p <= IZR (GameWorld.worldWidth w))%R /\
  (0 <= Position.y p <= IZR (GameWorld.worldHeight w))%R.

(** The default world of [new GameWorld()]: 100 by 100, no persistence,
    nothing in it yet. *)
Definition empty_world : GameWorld.t := GameWorld.mk [] [] 100 100 None false.

Definition runtime0 : Runtime :=
  mkRuntime (fun n => "uuid-" ++ show (Z.of_nat n)) 0 (fun _ => 0%R) 0 0.

Definition state0 : State := mkState runtime0 empty_world.

(** ** Removing, looking up by Letta id *)

(** [Map.delete]: whether the key was there, and the map without it. *)
Definition map_has {V : Type} (k : string) (m : list (string * V)) : bool :=
  existsb (fun kv => String.eqb k (fst kv)) m.

Definition map_delete {V : Type} (k : string) (m : list (string * V))
  : list (string * V) :=
  filter (fun kv => negb (String.eqb k (fst kv))) m.

(** [removeItem]; the persistence call [esService.deleteItem] is passed in,
    as the service record above does not list it. *)
Definition removeItem (deleteItem : string -> Exc unit) (itemId : string)
  : M bool :=
  w <- get_world ;;
  let deleted := map_has itemId (GameWorld.items w) in
  put_world (set_items w (map_delete itemId (GameWorld.items w))) ;;;
  (if deleted then persist w (fun _ => deleteItem itemId) else ret tt) ;;;
  ret deleted.

(** [removeAgent], with [esService.deleteAgent] passed in. *)
Definition removeAgent (deleteAgent : string -> Exc unit) (agentId : string)
  : M bool :=
  w <- get_world ;;
  let deleted := map_has agentId (GameWorld.agents w) in
  put_world (set_agents w (map_delete agentId (GameWorld.agents w))) ;;;
  (if deleted then persist w (fun _ => deleteAgent agentId) else ret tt) ;;;
  ret deleted.

Definition getAgentByLettaId (w : GameWorld.t) (lettaAgentId : string)
  : option GameAgent.t :=
  find (fun agent => String.eqb (GameAgent.lettaAgentId agent) lettaAgentId)
       (map_values (GameWorld.agents w)).

(** ** The tilemap *)

Module TileType.
Inductive t : Type := GRASS | WATER | STONE | SAND | DIRT.
End TileType.

Module Tile.
Record t : Type := mk { x : Z; y : Z; type : TileType.t }.
End Tile.

(** [Math.ceil] *)
Definition Math_ceil (r : R) : Z := (- Int_part (- r))%Z.

(** The terrain the default map puts at a cell. *)
Definition default_type (x y : Z) : TileType.t :=
  if ((3 <=? x) && (x <=? 5) && (3 <=? y) && (y <=? 5))%Z then TileType.WATER
  else if ((x =? 7) || (y =? 7))%Z then TileType.STONE
  else if ((x + y) mod 7 =? 0)%Z then TileType.SAND
  else TileType.GRASS.

(** The inner loop [for (let x = ...; x < tilesX; x++)], [n] cells to go. *)
Fixpoint default_row (y x : Z) (n : nat) : list Tile.t :=
  match n with
  | O => []
  | S n' => Tile.mk x y (default_type x y) :: default_row y (x + 1) n'
  end.

(** The outer loop [for (let y = ...; y < tilesY; y++)], [m] rows to go. *)
Fixpoint default_rows (tilesX y : Z) (m : nat) : list Tile.t :=
  match m with
  | O => []
  | S m' => (default_row y 0 (Z.to_nat tilesX)
             ++ default_rows tilesX (y + 1) m')%list
  end.

Definition default_tiles (tilesX tilesY : Z) : list Tile.t :=
  default_rows tilesX 0 (Z.to_nat tilesY).

Definition generateDefaultTilemap (worldWidth worldHeight tileSize : Z)
  : list Tile.t :=
  let tilesX := Math_ceil (IZR worldWidth / IZR tileSize) in
  let tilesY := Math_ceil (IZR worldHeight / IZR tileSize) in
  default_tiles tilesX tilesY.

(** [tile.x === x && tile.y === y] *)
Definition at_cell (x y : Z) (tile : Tile.t) : bool :=
  ((Tile.x tile =? x) && (Tile.y tile =? y))%Z.

Definition getTileAt (tiles : list Tile.t) (x y : Z) : option Tile.t :=
  find (at_cell x y) tiles.

(** [tile.type = type] on the tile [getTileAt] returned: the first tile at
    the cell changes. *)
Fixpoint retype (x y : Z) (type : TileType.t) (tiles : list Tile.t)
  : list Tile.t :=
  match tiles with
  | [] => []
  | tile :: rest =>
      if at_cell x y tile
      then Tile.mk (Tile.x tile) (Tile.y tile) type :: rest
      else tile :: retype x y type rest
  end.

(** [updateTile] on the tile list: the answer, or the rejection of the
    persistence call ([None] when persistence is off), and the tiles
    afterwards. *)
Definition updateTile (persistTile : option (Z -> Z -> TileType.t -> Exc unit))
    (tiles : list Tile.t) (x y : Z) (type : TileType.t)
  : Exc bool * list Tile.t :=
  match getTileAt tiles x y with
  | Some _ =>
      let tiles' := retype x y type tiles in
      match persistTile with
      | Some call =>
          match call x y type with
          | Return _ => (Return true, tiles')
          | Throw e => (Throw e, tiles')
          end
      | None => (Return true, tiles')
      end
  | None => (Return false, tiles)
  end.

(** ** Sample data *)

Definition bob : GameAgent.t :=
  GameAgent.mk "agent-1" "letta-1" "Bob" (Position.mk 50 50) "A trader" 0
    "0xb0b" "pk" "sk".

Definition chest : WorldItem.t :=
  WorldItem.mk "item-1" "Treasure Chest" (Position.mk 30 30)
    (Some "/assets/chest.png") None (Some 5%Z) (Some true)
    (Some "A mysterious treasure chest...") None None.

Definition world1 : GameWorld.t :=
  GameWorld.mk [("agent-1", bob)] [("item-1", chest)] 100 100 None false.

Definition state1 : State := mkState runtime0 world1.

End World.

(* ================================================================== *)
(** * The ledger client: [SuiGameService] *)
(* ================================================================== *)

Module Sui.

Import JS World.
Local Open Scope string_scope.

Module GameMatchInfo.
Record t : Type := mk {
    objectId : string;
    creator : string;
    participants : list string
  }.
End GameMatchInfo.

Module PlayerResourcesInfo.
Record t : Type := mk {
    objectId : string;
    gameId : string;
    owner : string;
    wood : Z;
    stone : Z;
    emerald : Z
  }.
End PlayerResourcesInfo.

Module GeneratorInfo.
Record t : Type := mk {
    objectId : string;
    gameId : string;
    resourceType : Z;
    x : Z;
    y : Z;
    owner : string;
    level : Z;
    generationRate : Z;
    maxCap : Z;
    unclaimed : Z;
    lastClaimTime : Z;
    lastRecapturedBy : string;
    lastRecapturedFrom : string
  }.
End GeneratorInfo.

Module TradeProposalInfo.
Record t : Type := mk {
    objectId : string;
    gameId : string;
    proposer : string;
    target : string;
    woodOffered : Z;
    stoneOffered : Z;
    emeraldOffered : Z;
    woodRequested : Z;
    stoneRequested : Z;
    emeraldRequested : Z
  }.
End TradeProposalInfo.

(** ** What the node answers *)

(** [content.fields] of a Move object of this package; a [u64] field,
    rendered by the node as a decimal string and read with [parseInt], is
    kept as the integer it denotes. *)
Inductive MoveFields : Type :=
| GameMatchFields (creator : string) (participants : list string)
| PlayerResourcesFields (game_id owner : string) (wood stone emerald : Z)
| GeneratorFields (game_id : string) (resource_type x y : Z) (owner : string)
    (level generation_rate max_cap unclaimed last_claim_time : Z)
    (last_recaptured_by last_recaptured_from : string)
| TradeProposalFields (game_id proposer target : string)
    (wood_offered stone_offered emerald_offered
     wood_requested stone_requested emerald_requested : Z).

(** [obj.data]: the object id and, when the content was returned and is a
    Move object, its fields. *)
Record SuiObjectData : Type := mkData {
  data_objectId : string;
  content_fields : option MoveFields
}.

(** A response whose [data] may be missing. *)
Definition SuiObjectResponse : Type := option SuiObjectData.

Record SuiClient : Type := mkClient {
  getObject : string -> Exc SuiObjectResponse;
  (** owner, then the [StructType] filter *)
  getOwnedObjects : string -> string -> Exc (list SuiObjectResponse)
}.

Record SuiGameService : Type := mkService {
  suiClient : SuiClient;
  packageId : string;
  currentGameId : option string
}.

Definition setCurrentGame (svc : SuiGameService) (gameId : string)
  : SuiGameService :=
  mkService (suiClient svc) (packageId svc) (Some gameId).

Definition getCurrentGameId (svc : SuiGameService) : option string :=
  currentGameId svc.

Definition struct_type (svc : SuiGameService) (name : string) : string :=
  packageId svc ++ "::resource_game::" ++ name.

Definition getResourceName (resourceType : Z) : string :=
  if (resourceType =? 0)%Z then "Wood"
  else if (resourceType =? 1)%Z then "Stone"
  else if (resourceType =? 2)%Z then "Emerald"
  else "Unknown".

(** ** Enumerating the generators of a match *)

(** The body of the inner [for (const obj of response.data)]: a generator
    of the match is pushed, anything else is skipped.  (Under the
    [Generator] filter the node returns generator fields only.) *)
Definition push_generator (gameId : string) (generators : list GeneratorInfo.t)
    (obj : SuiObjectResponse) : list GeneratorInfo.t :=
  match obj with
  | Some (mkData objectId
            (Some (GeneratorFields game_id resource_type x y owner level
                     generation_rate max_cap unclaimed last_claim_time
                     last_recaptured_by last_recaptured_from))) =>
      if String.eqb game_id gameId then
        (generators ++
           [GeneratorInfo.mk objectId game_id resource_type x y owner level
              generation_rate max_cap unclaimed last_claim_time
              last_recaptured_by last_recaptured_from])%list
      else generators
  | _ => generators
  end.

(** The outer [for (const participant of participants)].  A rejected query
    leaves the loop through the inner [catch]; what was pushed so far is
    returned. *)
Fixpoint generators_of_participants (svc : SuiGameService) (gameId : string)
    (participants : list string) (generators : list GeneratorInfo.t)
  : list GeneratorInfo.t :=
  match participants with
  | [] => generators
  | participant :: rest =>
      match getOwnedObjects (suiClient svc) participant
              (struct_type svc "Generator") with
      | Throw _ => generators
      | Return data =>
          generators_of_participants svc gameId rest
            (fold_left (push_generator gameId) data generators)
      end
  end.

Definition getAllGenerators (svc : SuiGameService) (gameId : string)
  : list GeneratorInfo.t :=
  match getObject (suiClient svc) gameId with
  | Throw _ => []
  | Return (Some (mkData _ (Some (GameMatchFields _ participants)))) =>
      generators_of_participants svc gameId participants []
  | Return _ => []
  end.

(** ** Resources, trades, the match *)

Definition getPlayerResources (svc : SuiGameService) (address : string)
  : Exc (option PlayerResourcesInfo.t) :=
  match getOwnedObjects (suiClient svc) address
          (struct_type svc "PlayerResources") with
  | Throw e => Throw e
  | Return [] => Return None
  | Return (obj :: _) =>
      match obj with
      | Some (mkData objectId
                (Some (PlayerResourcesFields game_id owner wood stone emerald))) =>
          Return (Some (PlayerResourcesInfo.mk objectId game_id owner
                          wood stone emerald))
      | _ => Return None
      end
  end.

Definition push_proposal (acc : list string * list TradeProposalInfo.t)
    (obj : SuiObjectResponse) : list string * list TradeProposalInfo.t :=
  let '(seenProposals, proposals) := acc in
  match obj with
  | Some (mkData objectId
            (Some (TradeProposalFields game_id proposer target wo so eo
                     wr sr er))) =>
      if existsb (String.eqb objectId) seenProposals then acc
      else (objectId :: seenProposals,
            (proposals ++
               [TradeProposalInfo.mk objectId game_id proposer target
                  wo so eo wr sr er])%list)
  | _ => acc
  end.

Fixpoint proposals_of_participants (svc : SuiGameService)
    (participants : list string)
    (acc : list string * list TradeProposalInfo.t)
  : Exc (list TradeProposalInfo.t) :=
  match participants with
  | [] => Return (snd acc)
  | participant :: rest =>
      match getOwnedObjects (suiClient svc) participant
              (struct_type svc "TradeProposal") with
      | Throw e => Throw e
      | Return data =>
          proposals_of_participants svc rest (fold_left push_proposal data acc)
      end
  end.

(** Any rejection inside the outer [try] yields the empty list. *)
Definition getAllTradeProposals (svc : SuiGameService)
  : list TradeProposalInfo.t :=
  match currentGameId svc with
  | None => []
  | Some gameId =>
      if truthy_string gameId then
        match getObject (suiClient svc) gameId with
        | Throw _ => []
        | Return (Some (mkData _ (Some (GameMatchFields _ participants)))) =>
            match proposals_of_participants svc participants ([], []) with
            | Throw _ => []
            | Return proposals => proposals
            end
        | Return _ => []
        end
      else []
  end.

Definition getTradeProposalsForAgent (svc : SuiGameService)
    (agentAddress : string) : list TradeProposalInfo.t :=
  filter (fun p => String.eqb (TradeProposalInfo.proposer p) agentAddress
                   || String.eqb (TradeProposalInfo.target p) agentAddress)
         (getAllTradeProposals svc).

Definition getGameMatch (svc : SuiGameService) (gameId : string)
  : Exc (option GameMatchInfo.t) :=
  match getObject (suiClient svc) gameId with
  | Throw e => Throw e
  | Return (Some (mkData _ (Some (GameMatchFields creator participants)))) =>
      Return (Some (GameMatchInfo.mk gameId creator participants))
  | Return _ => Return None
  end.

Definition getGeneratorsNearPosition (svc : SuiGameService) (gameId : string)
    (position : Position.t) (range : R) : list GeneratorInfo.t :=
  filter (fun gen =>
            Rleb (sqrt ((IZR (GeneratorInfo.x gen) - Position.x position) ^ 2
                        + (IZR (GeneratorInfo.y gen) - Position.y position) ^ 2))
                 range)
         (getAllGenerators svc gameId).

(** ** Projecting generators into the world *)

(** The item literal built for one generator. *)
Definition generator_item (gen : GeneratorInfo.t) : NewItem.t :=
  let resourceName := getResourceName (GeneratorInfo.resourceType gen) in
  let ownerName :=
    if String.eqb (GeneratorInfo.owner gen) "0x0" then "Unclaimed"
    else "Owner: " ++ slice0 8 (GeneratorInfo.owner gen) ++ "..." in
  NewItem.mk
    (resourceName ++ " Generator")
    (Position.mk (IZR (GeneratorInfo.x gen)) (IZR (GeneratorInfo.y gen)))
    None
    (Some (SpriteSheet.mk
             ("/assets/generator_" ++ toLowerCase resourceName ++ ".png")
             8 64 64 (Some 8%Z) (Some true) None))
    (Some 6%Z)
    (Some true)
    (Some ("Level " ++ show (GeneratorInfo.level gen) ++ " " ++ resourceName
           ++ " Generator. " ++ ownerName
           ++ ". Rate: " ++ show (GeneratorInfo.generationRate gen)
           ++ "/min. Unclaimed: " ++ show (GeneratorInfo.unclaimed gen)
           ++ "/" ++ show (GeneratorInfo.maxCap gen)))
    (if String.eqb (GeneratorInfo.owner gen) "0x0" then None
     else Some (GeneratorInfo.owner gen))
    None.

(** The identifier the lookup searches for. *)
Definition projection_id (gen : GeneratorInfo.t) : string :=
  "gen_" ++ GeneratorInfo.objectId gen.

(** [Object.assign(existingItem, item)]: the keys of the literal overwrite
    the object, the others stay. *)
Definition assign (existingItem : WorldItem.t) (item : NewItem.t)
  : WorldItem.t :=
  WorldItem.mk (WorldItem.id existingItem) (NewItem.name item)
    (NewItem.position item) (WorldItem.imageUrl existingItem)
    (NewItem.spriteSheet item) (NewItem.size item) (NewItem.interactive item)
    (NewItem.description item) (NewItem.collectedBy item)
    (WorldItem.collectedAt existingItem).

Definition is_projection (id : string) (item : WorldItem.t) : bool :=
  String.eqb (WorldItem.id item) id.

(** The object [find] returned lives in the map: assigning to it changes the
    first uncollected entry whose item has the identifier. *)
Fixpoint assign_in_place (id : string) (item : NewItem.t)
    (items : list (string * WorldItem.t)) : list (string * WorldItem.t) :=
  match items with
  | [] => []
  | (k, existing) :: rest =>
      if negb (truthy (WorldItem.collectedBy existing))
         && is_projection id existing
      then (k, assign existing item) :: rest
      else (k, existing) :: assign_in_place id item rest
  end.

(** The body of [for (const gen of generators)]. *)
Definition sync_generator (gen : GeneratorInfo.t) : M unit :=
  w <- get_world ;;
  let existingItem := find (is_projection (projection_id gen)) (getAllItems w) in
  let item := generator_item gen in
  match existingItem with
  | Some _ =>
      put_world (set_items w
        (assign_in_place (projection_id gen) item (GameWorld.items w)))
  | None => addItem item ;;; ret tt
  end.

Fixpoint for_each {A : Type} (body : A -> M unit) (l : list A) : M unit :=
  match l with
  | [] => ret tt
  | a :: rest => body a ;;; for_each body rest
  end.

Definition syncGeneratorsToWorld (svc : SuiGameService) : M unit :=
  match currentGameId svc with
  | None => ret tt
  | Some gameId =>
      if truthy_string gameId then
        for_each sync_generator (getAllGenerators svc gameId)
      else ret tt
  end.

(** ** The recapture heuristic *)

Definition hostileKeywords : list string :=
  ["hostile"; "enemy"; "unfriendly"; "attacked"; "stole"; "aggressive";
   "threat"].

Definition shouldRecaptureGenerator (generator : GeneratorInfo.t)
    (agentAddress agentMemory : string) : bool :=
  if String.eqb (GeneratorInfo.owner generator) agentAddress then false
  else if String.eqb (GeneratorInfo.owner generator) "0x0" then false
  else
    let ownerMention := toLowerCase (GeneratorInfo.owner generator) in
    let memoryLower := toLowerCase agentMemory in
    existsb (fun keyword =>
               includes memoryLower keyword
               && includes memoryLower (slice0 8 ownerMention))
            hostileKeywords.

(** ** The node behind the client *)

(** Who holds an object on the ledger. *)
Inductive Owner : Type :=
| AddressOwner (address : string)
| ObjectOwner (parent : string)
| Shared
| Immutable.

Record LedgerObject : Type := mkObject {
  object_id : string;
  object_type : string;
  object_owner : Owner;
  object_fields : MoveFields
}.

Definition held_by (address : string) (o : LedgerObject) : bool :=
  match object_owner o with
  | AddressOwner a => String.eqb a address
  | _ => false
  end.

Definition response_of (o : LedgerObject) : SuiObjectResponse :=
  Some (mkData (object_id o) (Some (object_fields o))).

(** A node serving a fixed ledger state: [getObject] answers with the object
    of that id, [getOwnedObjects] with the objects whose owner is the given
    address and whose type is the filter's. *)
Definition node (ledger : list LedgerObject) : SuiClient :=
  mkClient
    (fun id =>
       Return (option_map (fun o => mkData (object_id o) (Some (object_fields o)))
                 (find (fun o => String.eqb (object_id o) id) ledger)))
    (fun owner structType =>
       Return (map response_of
                 (filter (fun o => held_by owner o
                                   && String.eqb (object_type o) structType)
                         ledger))).

(** The match's declared participants, as stored in the match object. *)
Definition declared_participants (ledger : list LedgerObject)
    (gameId : string) : list string :=
  match find (fun o => String.eqb (object_id o) gameId) ledger with
  | Some o =>
      match object_fields o with
      | GameMatchFields _ participants => participants
      | _ => []
      end
  | None => []
  end.

(** The generator an object denotes, if it is one. *)
Definition generator_info (o : LedgerObject) : option GeneratorInfo.t :=
  match object_fields o with
  | GeneratorFields game_id resource_type x y owner level generation_rate
      max_cap unclaimed last_claim_time last_recaptured_by
      last_recaptured_from =>
      Some (GeneratorInfo.mk (object_id o) game_id resource_type x y owner
              level generation_rate max_cap unclaimed last_claim_time
              last_recaptured_by last_recaptured_from)
  | _ => None
  end.

(** What one object contributes to the enumeration for one participant:
    it is kept when that address holds it, it has the generator type, and
    its embedded match identifier is the match. *)
Definition enumerate_participant (packageId gameId participant : string)
    (o : LedgerObject) : list GeneratorInfo.t :=
  match generator_info o with
  | Some g =>
      if held_by participant o
         && String.eqb (object_type o)
              (packageId ++ "::resource_game::Generator")
         && String.eqb (GeneratorInfo.gameId g) gameId
      then [g] else []
  | None => []
  end.

(** The enumeration in the words of the specification: for each declared
    participant, that address's owned objects of the generator type whose
    embedded match identifier is the match. *)
Definition enumerated_generators (packageId : string)
    (ledger : list LedgerObject) (gameId : string) : list GeneratorInfo.t :=
  flat_map
    (fun participant =>
       flat_map (enumerate_participant packageId gameId participant) ledger)
    (declared_participants ledger gameId).

(** The generators of the match among the objects of one answer. *)
Definition keep_generator (gameId : string) (o : LedgerObject)
  : list GeneratorInfo.t :=
  match generator_info o with
  | Some g => if String.eqb (GeneratorInfo.gameId g) gameId then [g] else []
  | None => []
  end.

(** A generator held by another agent, and two memories of that agent. *)
Definition rival_generator : GeneratorInfo.t :=
  GeneratorInfo.mk "0x9e4" "0x77" 0 10 20 "0xABCDEF1234" 1 20 2000 0 5000
    "0x0" "0x0".

Definition memory_of_attack : string :=
  "Agent 0xabcdef12 ATTACKED my wood generator".

(** The items a pass writes for a generator: the literal inserted under a
    fresh identifier, or assigned onto an item already there. *)
Definition written_for (gen : GeneratorInfo.t) (item : WorldItem.t) : Prop :=
  (exists id, item = with_id id (generator_item gen)) \/
  (exists existing, item = assign existing (generator_item gen)).

(** A match ["0x77"] of two participants on a node; the first participant
    holds one wood generator of the match that nobody has claimed. *)
Definition wood_generator : GeneratorInfo.t :=
  GeneratorInfo.mk "0x9e4" "0x77" 0 10 20 "0x0" 0 10 1000 0 5000 "0x0" "0x0".

Definition ledger0 : list LedgerObject :=
  [mkObject "0x77" "0xpkg::resource_game::GameMatch" Shared
     (GameMatchFields "0xa11ce" ["0xa11ce"; "0xb0b"]);
   mkObject "0x9e4" "0xpkg::resource_game::Generator" (AddressOwner "0xa11ce")
     (GeneratorFields "0x77" 0 10 20 "0x0" 0 10 1000 0 5000 "0x0" "0x0")].

Definition service0 : SuiGameService :=
  mkService (node ledger0) "0xpkg" (Some "0x77").

(** The same node with a second generator of the match, shared as
    [create_generators] leaves it. *)
Definition shared_generator : LedgerObject :=
  mkObject "0x5a" "0xpkg::resource_game::Generator" Shared
    (GeneratorFields "0x77" 1 30 40 "0x0" 0 10 1000 0 5000 "0x0" "0x0").

Definition ledger1 : list LedgerObject := ledger0 ++ [shared_generator].

(** ** Conditions under which a pass finds none of its own projections *)

(** Nothing is persisted; no stored item carries the identifier a lookup
    searches for; and the next [horizon] uuids are new keys, differ from
    those identifiers and from each other. *)
Definition fresh_uuids (horizon : nat) (gens : list GeneratorInfo.t)
    (s : State) : Prop :=
  GameWorld.persistenceEnabled (world s) = false /\
  (forall item gen,
     In item (map snd (GameWorld.items (world s))) -> In gen gens ->
     WorldItem.id item <> projection_id gen) /\
  (forall n,
     (uuids_drawn (runtime s) <= n < uuids_drawn (runtime s) + horizon)%nat ->
     map_has (uuid_source (runtime s) n) (GameWorld.items (world s)) = false /\
     forall gen, In gen gens ->
       uuid_source (runtime s) n <> projection_id gen) /\
  (forall n m,
     (uuids_drawn (runtime s) <= n)%nat -> (n < m)%nat ->
     (m < uuids_drawn (runtime s) + horizon)%nat ->
     uuid_source (runtime s) n <> uuid_source (runtime s) m).

(** A client that answers like the node over [ledger0], except that the
    match declares a third participant whose owned-objects query is
    rejected. *)
Definition flaky_client : SuiClient :=
  mkClient
    (fun id =>
       Return (Some (mkData id
         (Some (GameMatchFields "0xa11ce" ["0xa11ce"; "0xdead"; "0xb0b"])))))
    (fun owner structType =>
       if String.eqb owner "0xdead" then Throw "request timed out"
       else getOwnedObjects (node ledger0) owner structType).

Definition flaky_service : SuiGameService :=
  mkService flaky_client "0xpkg" (Some "0x77").

(** A ledger on which the match's only generator is a shared object. *)
Definition ledger_shared : list LedgerObject :=
  [mkObject "0x77" "0xpkg::resource_game::GameMatch" Shared
     (GameMatchFields "0xa11ce" ["0xa11ce"; "0xb0b"]);
   shared_generator].

(** What a pass, or a part of it, may change: the items, by appending keys. *)
Definition extends (s s' : State) : Prop :=
  GameWorld.agents (world s') = GameWorld.agents (world s) /\
  GameWorld.worldWidth (world s') = GameWorld.worldWidth (world s) /\
  GameWorld.worldHeight (world s') = GameWorld.worldHeight (world s) /\
  exists added,
    map fst (GameWorld.items (world s'))
    = (map fst (GameWorld.items (world s)) ++ added)%list.

End Sui.

(* ================================================================== *)
(** * The agent's context: [WorldContextServiceExtended] *)
(* ================================================================== *)

Module Context.

Import JS World Sui.
Local Open Scope string_scope.

Notation "x <-- m ;; k" := (exc_bind m (fun x => k))
  (at level 61, m at next level, right associativity).

Record AgentContext : Type := mkContext {
  selfInfo : string;
  nearbyAgents : string;
  nearbyItems : string;
  nearbyPlayers : string;
  nearbyGenerators : string;
  resourcesInfo : string;
  tradeProposals : string;
  worldInfo : string;
  fullContext : string
}.

(** The constructor's three collaborators; the last two are optional. *)
Record Service : Type := mkContextService {
  gameWorld : GameWorld.t;
  esService : option ElasticsearchService.t;
  suiGameService : option SuiGameService
}.

(** ** Geometry *)

Definition calculateDistance (pos1 pos2 : Position.t) : R :=
  sqrt ((Position.x pos2 - Position.x pos1) ^ 2
        + (Position.y pos2 - Position.y pos1) ^ 2).

(** The chain of sector tests on the angle in degrees. *)
Definition sector (angle : R) : string :=
  if Rleb (-22.5) angle && Rltb angle 22.5 then "to the East"
  else if Rleb 22.5 angle && Rltb angle 67.5 then "to the Southeast"
  else if Rleb 67.5 angle && Rltb angle 112.5 then "to the South"
  else if Rleb 112.5 angle && Rltb angle 157.5 then "to the Southwest"
  else if Rleb 157.5 angle || Rltb angle (-157.5) then "to the West"
  else if Rleb (-157.5) angle && Rltb angle (-112.5) then "to the Northwest"
  else if Rleb (-112.5) angle && Rltb angle (-67.5) then "to the North"
  else if Rleb (-67.5) angle && Rltb angle (-22.5) then "to the Northeast"
  else "nearby".

Definition getDirection (from to : Position.t) : string :=
  let dx := (Position.x to - Position.x from)%R in
  let dy := (Position.y to - Position.y from)%R in
  let angle := (Math_atan2 dy dx * (180 / PI))%R in
  sector angle.

Definition getResourceName (resourceType : Z) : string :=
  if (resourceType =? 0)%Z then "Wood"
  else if (resourceType =? 1)%Z then "Stone"
  else if (resourceType =? 2)%Z then "Emerald"
  else "Unknown".

(** [(${Math.round(distance)} units ${direction})] *)
Definition units (from to : Position.t) : string :=
  "(" ++ show (Math_round (calculateDistance from to)) ++ " units "
  ++ getDirection from to ++ ")".

(** ** Sections *)

Definition buildSelfInfo (svc : Service) (agent : GameAgent.t) : Exc string :=
  let parts :=
    ["YOUR CURRENT STATUS:";
     "- Name: " ++ GameAgent.name agent;
     "- Description: " ++ GameAgent.description agent;
     "- Current Position: ("
       ++ show (Math_round (Position.x (GameAgent.position agent))) ++ ", "
       ++ show (Math_round (Position.y (GameAgent.position agent))) ++ ")";
     "- Your Sui Wallet Address: " ++ GameAgent.suiAddress agent] in
  parts1 <--
    match suiGameService svc with
    | Some sui =>
        try_catch
          (resources <-- getPlayerResources sui (GameAgent.suiAddress agent) ;;
           match resources with
           | Some r =>
               Return (push parts
                 ("- Your Resources: " ++ show (PlayerResourcesInfo.wood r)
                  ++ " Wood, " ++ show (PlayerResourcesInfo.stone r)
                  ++ " Stone, " ++ show (PlayerResourcesInfo.emerald r)
                  ++ " Emerald"))
           | None => Return parts
           end)
          (fun _ => Return parts)
    | None => Return parts
    end ;;
  Return (join nl (push parts1
    "- You are currently in the game world. Remember to roleplay as your character.")).

Definition buildNearbyAgentsInfo (svc : Service) (agent : GameAgent.t)
    (range : R) : string :=
  let nearbyAgents :=
    filter (fun a => negb (String.eqb (GameAgent.id a) (GameAgent.id agent)))
           (getAgentsInRange (gameWorld svc) (GameAgent.position agent) range) in
  match nearbyAgents with
  | [] => "NEARBY NPCs:" ++ nl ++ "- None within visible range"
  | _ =>
      let agentDescriptions :=
        map (fun nearbyAgent =>
               "- " ++ GameAgent.name nearbyAgent ++ " ("
               ++ slice0 8 (GameAgent.suiAddress nearbyAgent) ++ "...): "
               ++ GameAgent.description nearbyAgent ++ " "
               ++ units (GameAgent.position agent)
                    (GameAgent.position nearbyAgent))
            nearbyAgents in
      join nl ("NEARBY NPCs:" :: agentDescriptions)
  end.

Definition buildNearbyItemsInfo (svc : Service) (agent : GameAgent.t)
    (range : R) : string :=
  let nearbyItems :=
    getItemsInRange (gameWorld svc) (GameAgent.position agent) range in
  match nearbyItems with
  | [] => "NEARBY ITEMS:" ++ nl ++ "- None within visible range"
  | _ =>
      let itemDescriptions :=
        map (fun item =>
               let interactiveTag :=
                 match WorldItem.interactive item with
                 | Some true => " [Interactive]"
                 | _ => ""
                 end in
               "- " ++ WorldItem.name item ++ interactiveTag ++ ": "
               ++ or_else (WorldItem.description item) "No description" ++ " "
               ++ units (GameAgent.position agent) (WorldItem.position item))
            nearbyItems in
      join nl ("NEARBY ITEMS:" :: itemDescriptions)
  end.

(** The [async] callback mapped over the nearby players. *)
Definition describe_player (svc : Service) (agent : GameAgent.t)
    (player : PlayerData.t) : Exc string :=
  resourceInfo <--
    match suiGameService svc, PlayerData.metadata_suiAddress player with
    | Some sui, Some address =>
        if truthy_string address then
          try_catch
            (resources <-- getPlayerResources sui address ;;
             match resources with
             | Some r =>
                 Return (" [Resources: " ++ show (PlayerResourcesInfo.wood r)
                         ++ "W, " ++ show (PlayerResourcesInfo.stone r)
                         ++ "S, " ++ show (PlayerResourcesInfo.emerald r)
                         ++ "E]")
             | None => Return ""
             end)
            (fun _ => Return "")
        else Return ""
    | _, _ => Return ""
    end ;;
  Return ("- " ++ or_else (PlayerData.name player) "Adventurer" ++ resourceInfo
          ++ " " ++ units (GameAgent.position agent)
                      (PlayerData.position player)).

(** [Promise.all] *)
Fixpoint all {A : Type} (l : list (Exc A)) : Exc (list A) :=
  match l with
  | [] => Return []
  | m :: rest => a <-- m ;; r <-- all rest ;; Return (a :: r)
  end.

Definition buildNearbyPlayersInfo (svc : Service) (agent : GameAgent.t)
    (range : R) : Exc string :=
  match esService svc with
  | None => Return ("NEARBY PLAYERS:" ++ nl ++ "- Player tracking not available")
  | Some es =>
      try_catch
        (allPlayers <-- ElasticsearchService.getAllPlayers es ;;
         let nearbyPlayers :=
           filter (fun player =>
                     Rleb (calculateDistance (GameAgent.position agent)
                             (PlayerData.position player)) range)
                  allPlayers in
         match nearbyPlayers with
         | [] => Return ("NEARBY PLAYERS:" ++ nl
                         ++ "- No players within visible range")
         | _ =>
             playerDescriptions <--
               all (map (describe_player svc agent) nearbyPlayers) ;;
             Return (join nl ("NEARBY PLAYERS:" :: playerDescriptions))
         end)
        (fun _ => Return ("NEARBY PLAYERS:" ++ nl
                          ++ "- Error loading player information"))
  end.

Definition describe_generator (agent : GameAgent.t) (gen : GeneratorInfo.t)
  : string :=
  let to := Position.mk (IZR (GeneratorInfo.x gen)) (IZR (GeneratorInfo.y gen)) in
  let resourceName := getResourceName (GeneratorInfo.resourceType gen) in
  let ownerInfo :=
    if String.eqb (GeneratorInfo.owner gen) "0x0"
    then "[UNCLAIMED - You can claim this!]"
    else if String.eqb (GeneratorInfo.owner gen) (GameAgent.suiAddress agent)
    then "[OWNED BY YOU]"
    else "[Owned by " ++ slice0 8 (GeneratorInfo.owner gen) ++ "...]" in
  let statusInfo :=
    if negb (String.eqb (GeneratorInfo.owner gen) "0x0")
    then " Level " ++ show (GeneratorInfo.level gen)
         ++ ", Rate: " ++ show (GeneratorInfo.generationRate gen)
         ++ "/min, Unclaimed: " ++ show (GeneratorInfo.unclaimed gen)
         ++ "/" ++ show (GeneratorInfo.maxCap gen)
    else "" in
  "- " ++ resourceName ++ " Generator " ++ ownerInfo ++ statusInfo ++ " "
  ++ units (GameAgent.position agent) to.

Definition buildNearbyGeneratorsInfo (svc : Service) (agent : GameAgent.t)
    (range : R) : Exc string :=
  match suiGameService svc with
  | None => Return ("NEARBY GENERATORS:" ++ nl
                    ++ "- Generator tracking not available")
  | Some sui =>
      try_catch
        (if truthy (getCurrentGameId sui) then
           let gameId := or_else (getCurrentGameId sui) "" in
           let generators :=
             getGeneratorsNearPosition sui gameId (GameAgent.position agent)
               range in
           match generators with
           | [] => Return ("NEARBY GENERATORS:" ++ nl
                           ++ "- None within visible range")
           | _ =>
               let generatorDescriptions :=
                 map (describe_generator agent) generators in
               Return (join nl
                 ("NEARBY GENERATORS:" ::
                  List.app generatorDescriptions
                    [nl ++ "ACTIONS AVAILABLE:";
                     "- Claim unclaimed generators using /claim_generator";
                     "- Claim resources from your generators using /claim_resources";
                     "- Recapture enemy generators using /recapture_generator"]))
           end
         else Return ("NEARBY GENERATORS:" ++ nl ++ "- No active game"))
        (fun _ => Return ("NEARBY GENERATORS:" ++ nl
                          ++ "- Error loading generator information"))
  end.

Definition buildResourcesInfo (svc : Service) (agent : GameAgent.t)
  : Exc string :=
  match suiGameService svc with
  | None => Return ("YOUR RESOURCES:" ++ nl ++ "- Resource tracking not available")
  | Some sui =>
      try_catch
        (resources <-- getPlayerResources sui (GameAgent.suiAddress agent) ;;
         match resources with
         | None => Return ("YOUR RESOURCES:" ++ nl
                           ++ "- Not yet initialized (join a game first)")
         | Some r =>
             Return (join nl
               ["YOUR RESOURCES:";
                "- Wood: " ++ show (PlayerResourcesInfo.wood r);
                "- Stone: " ++ show (PlayerResourcesInfo.stone r);
                "- Emerald: " ++ show (PlayerResourcesInfo.emerald r);
                "- Resource Object ID: " ++ PlayerResourcesInfo.objectId r])
         end)
        (fun _ => Return ("YOUR RESOURCES:" ++ nl ++ "- Error loading resources"))
  end.

Definition describe_proposal (agent : GameAgent.t)
    (proposal : TradeProposalInfo.t) : string :=
  let isProposer :=
    String.eqb (TradeProposalInfo.proposer proposal)
      (GameAgent.suiAddress agent) in
  let otherParty :=
    if isProposer then TradeProposalInfo.target proposal
    else TradeProposalInfo.proposer proposal in
  let role := if isProposer then "YOU PROPOSED" else "PROPOSED TO YOU" in
  let offering :=
    show (TradeProposalInfo.woodOffered proposal) ++ "W, "
    ++ show (TradeProposalInfo.stoneOffered proposal) ++ "S, "
    ++ show (TradeProposalInfo.emeraldOffered proposal) ++ "E" in
  let requesting :=
    show (TradeProposalInfo.woodRequested proposal) ++ "W, "
    ++ show (TradeProposalInfo.stoneRequested proposal) ++ "S, "
    ++ show (TradeProposalInfo.emeraldRequested proposal) ++ "E" in
  "- [" ++ role ++ "] Trade with " ++ slice0 8 otherParty
  ++ "...: Offering " ++ offering ++ " for " ++ requesting
  ++ " (ID: " ++ slice0 8 (TradeProposalInfo.objectId proposal) ++ "...)".

Definition buildTradeProposalsInfo (svc : Service) (agent : GameAgent.t)
  : Exc string :=
  match suiGameService svc with
  | None => Return ("TRADE PROPOSALS:" ++ nl ++ "- Trading not available")
  | Some sui =>
      try_catch
        (let proposals :=
           getTradeProposalsForAgent sui (GameAgent.suiAddress agent) in
         match proposals with
         | [] => Return ("TRADE PROPOSALS:" ++ nl
                         ++ "- No pending trade proposals")
         | _ =>
             let proposalDescriptions :=
               map (describe_proposal agent) proposals in
             Return (join nl
               ("TRADE PROPOSALS:" ::
                List.app proposalDescriptions
                  [nl ++ "ACTIONS AVAILABLE:";
                   "- Propose trades using /propose_trade";
                   "- Accept incoming trades using /accept_trade";
                   "- Cancel your proposals using /cancel_trade"]))
         end)
        (fun _ => Return ("TRADE PROPOSALS:" ++ nl
                          ++ "- Error loading trade information"))
  end.

Definition buildWorldInfo (svc : Service) : Exc string :=
  let dimensions := getWorldDimensions (gameWorld svc) in
  let allAgents := getAllAgents (gameWorld svc) in
  let allItems := getAllItems (gameWorld svc) in
  let parts :=
    ["WORLD INFORMATION:";
     "- World Size: " ++ show (fst dimensions) ++ "x" ++ show (snd dimensions)
       ++ " units";
     "- Total NPCs in world: " ++ show (Z.of_nat (List.length allAgents));
     "- Total items in world: " ++ show (Z.of_nat (List.length allItems))] in
  parts1 <--
    match suiGameService svc with
    | Some sui =>
        if truthy (getCurrentGameId sui) then
          let gameId := or_else (getCurrentGameId sui) "" in
          let generators := getAllGenerators sui gameId in
          let parts_g :=
            push parts ("- Total generators in game: "
                        ++ show (Z.of_nat (List.length generators))) in
          try_catch
            (gameInfo <-- getGameMatch sui gameId ;;
             match gameInfo with
             | Some info =>
                 Return (push parts_g
                   ("- Game participants: "
                    ++ show (Z.of_nat (List.length (GameMatchInfo.participants info)))
                    ++ " players"))
             | None => Return parts_g
             end)
            (fun _ => Return parts_g)
        else Return parts
    | None => Return parts
    end ;;
  Return (join nl (push parts1
    "- Remember: You can move around, interact with items, manage generators, trade resources, and converse with players and other NPCs")).

(** ** The whole context *)

(** [.filter((section) => section.length > 0)] *)
Definition nonempty (section : string) : bool :=
  (0 <? String.length section)%nat.

Definition generateAgentContext (svc : Service) (agent : GameAgent.t)
    (contextRange : R) : Exc AgentContext :=
  selfInfo <-- buildSelfInfo svc agent ;;
  let nearbyAgents := buildNearbyAgentsInfo svc agent contextRange in
  let nearbyItems := buildNearbyItemsInfo svc agent contextRange in
  nearbyPlayers <-- buildNearbyPlayersInfo svc agent contextRange ;;
  nearbyGenerators <-- buildNearbyGeneratorsInfo svc agent contextRange ;;
  resourcesInfo <-- buildResourcesInfo svc agent ;;
  tradeProposals <-- buildTradeProposalsInfo svc agent ;;
  worldInfo <-- buildWorldInfo svc ;;
  let fullContext :=
    join (nl ++ nl)
      (filter nonempty
         ["=== CURRENT CONTEXT ===";
          selfInfo;
          resourcesInfo;
          nearbyAgents;
          nearbyPlayers;
          nearbyGenerators;
          nearbyItems;
          tradeProposals;
          worldInfo;
          "==================="]) in
  Return (mkContext selfInfo nearbyAgents nearbyItems nearbyPlayers
            nearbyGenerators resourcesInfo tradeProposals worldInfo
            fullContext).

(** The shape every section has: the awaited builder resolves, and its text
    starts with the section's header line. *)
Definition section_ok (header : string) (built : Exc string) : Prop :=
  exists text, built = Return text /\ String.prefix header text = true.

(** The ten parts of the full context, in the order of the source. *)
Definition ordered_sections (ctx : AgentContext) : list string :=
  ["=== CURRENT CONTEXT ===";
   selfInfo ctx;
   resourcesInfo ctx;
   nearbyAgents ctx;
   nearbyPlayers ctx;
   nearbyGenerators ctx;
   nearbyItems ctx;
   tradeProposals ctx;
   worldInfo ctx;
   "==================="].

(** Each section starts with its own header line. *)
Definition headed (ctx : AgentContext) : Prop :=
  String.prefix "YOUR CURRENT STATUS:" (selfInfo ctx) = true /\
  String.prefix "YOUR RESOURCES:" (resourcesInfo ctx) = true /\
  String.prefix "NEARBY NPCs:" (nearbyAgents ctx) = true /\
  String.prefix "NEARBY PLAYERS:" (nearbyPlayers ctx) = true /\
  String.prefix "NEARBY GENERATORS:" (nearbyGenerators ctx) = true /\
  String.prefix "NEARBY ITEMS:" (nearbyItems ctx) = true /\
  String.prefix "TRADE PROPOSALS:" (tradeProposals ctx) = true /\
  String.prefix "WORLD INFORMATION:" (worldInfo ctx) = true.

End Context.

(* ================================================================== *)
(** * Properties of the Move module *)
(* ================================================================== *)

Module ResourceGameFacts.

Import ResourceGame.
Local Open Scope Z_scope.

Lemma bind_Ok_inv {A B : Type} {m : Tx A} {k : A -> Tx B} {b : B} :
  bind m k = Ok b -> exists a, m = Ok a /\ k a = Ok b.
Proof.
  destruct m as [a | r]; simpl; intros H.
  - exists a; split; [reflexivity | exact H].
  - discriminate H.
Qed.

Lemma assert_Ok_inv (b : bool) (code : Z) (u : unit) :
  assert b code = Ok u -> b = true.
Proof. destruct b; simpl; [reflexivity | discriminate]. Qed.

Lemma add_Ok_inv (a b c : Z) : add a b = Ok c -> c = a + b /\ a + b <= MAX_U64.
Proof.
  unfold add. destruct (a + b <=? MAX_U64) eqn:E; intros Hc.
  - apply Z.leb_le in E. inversion Hc; split; [reflexivity | assumption].
  - discriminate Hc.
Qed.

Lemma mul_Ok_inv (a b c : Z) : mul a b = Ok c -> c = a * b /\ a * b <= MAX_U64.
Proof.
  unfold mul. destruct (a * b <=? MAX_U64) eqn:E; intros Hc.
  - apply Z.leb_le in E. inversion Hc; split; [reflexivity | assumption].
  - discriminate Hc.
Qed.

Ltac tx_inv H :=
  match type of H with
  | bind _ _ = Ok _ =>
      let a := fresh "v" in
      let H1 := fresh "Hm" in
      let H2 := fresh "Hk" in
      destruct (bind_Ok_inv H) as [a [H1 H2]]; clear H;
      rename H2 into H; tx_inv H
  | _ => idtac
  end.

(** Every generator [create_generators] shares is unclaimed, at level 0,
    with the base rate and cap and nothing accrued. *)
Lemma create_generators_loop_fresh game_id rt now xs :
  forall ys ctx gens ctx' g,
    create_generators_loop game_id rt now xs ys ctx = Ok (gens, ctx') ->
    In g gens ->
    Generator.owner g = ZERO_ADDRESS /\ Generator.unclaimed g = 0 /\
    Generator.max_cap g = BASE_CAP /\ Generator.level g = 0.
Proof.
  induction xs as [| x xs IH]; intros ys ctx gens ctx' g H Hin; simpl in H.
  - inversion H; subst. destruct Hin.
  - destruct ys as [| y ys]; [discriminate H |].
    destruct (bind_Ok_inv H) as [[rest ctx2] [Hrest Hk]].
    simpl in Hk. inversion Hk; subst; clear Hk.
    destruct Hin as [<- | Hin].
    + simpl. repeat split; reflexivity.
    + eapply IH; eassumption.
Qed.

Lemma claim_resources_unclaimed g r clock ctx g' r' :
  claim_resources g r clock ctx = Ok (g', r') ->
  (Generator.unclaimed g' = 0 /\ Generator.max_cap g' = Generator.max_cap g)
  \/ g' = g.
Proof.
  unfold claim_resources. intros H.
  destruct (bind_Ok_inv H) as [u1 [_ H1]]; clear H.
  destruct (bind_Ok_inv H1) as [u2 [_ H2]]; clear H1.
  destruct (bind_Ok_inv H2) as [to_claim [_ H3]]; clear H2.
  destruct (0 <? to_claim).
  - destruct (bind_Ok_inv H3) as [r1 [_ H4]]; clear H3.
    destruct g; simpl in *. inversion H4; subst. left; split; reflexivity.
  - inversion H3; subst. right; reflexivity.
Qed.

Lemma upgrade_generator_unclaimed g r ctx g' r' :
  upgrade_generator g r ctx = Ok (g', r') ->
  Generator.unclaimed g' = Generator.unclaimed g /\
  Generator.owner g' = Generator.owner g /\
  Generator.level g' = Generator.level g + 1 /\
  (0 <= Generator.level g -> 0 <= Generator.max_cap g').
Proof.
  unfold upgrade_generator. intros H.
  destruct r as [ri rg ro w s e]. destruct g as [i gi rt x y o lv rate cap un t by_ from_].
  simpl in H. tx_inv H.
  inversion H; subst; clear H. simpl.
  repeat match goal with
         | E : add _ _ = Ok _ |- _ => apply add_Ok_inv in E; destruct E as [? _]
         | E : mul _ _ = Ok _ |- _ => apply mul_Ok_inv in E; destruct E as [? _]
         end.
  subst. unfold BASE_CAP. repeat split; try reflexivity. lia.
Qed.

Lemma claim_generator_fields game g clock ctx g' :
  claim_generator game g clock ctx = Ok g' ->
  Generator.unclaimed g' = Generator.unclaimed g /\
  Generator.max_cap g' = Generator.max_cap g /\
  Generator.level g' = Generator.level g.
Proof.
  unfold claim_generator. intros H. tx_inv H.
  destruct g; simpl in *. inversion H; subst. simpl.
  repeat split; reflexivity.
Qed.

Lemma claim_resources_level g r clock ctx g' r' :
  claim_resources g r clock ctx = Ok (g', r') ->
  Generator.level g' = Generator.level g /\
  Generator.max_cap g' = Generator.max_cap g.
Proof.
  unfold claim_resources. intros H.
  destruct (bind_Ok_inv H) as [u1 [_ H1]]; clear H.
  destruct (bind_Ok_inv H1) as [u2 [_ H2]]; clear H1.
  destruct (bind_Ok_inv H2) as [to_claim [_ H3]]; clear H2.
  destruct (0 <? to_claim).
  - destruct (bind_Ok_inv H3) as [r1 [_ H4]]; clear H3.
    destruct g; simpl in *. inversion H4; subst. split; reflexivity.
  - inversion H3; subst. split; reflexivity.
Qed.

Lemma recapture_generator_fields game g r clock ctx g' r' :
  recapture_generator game g r clock ctx = Ok (g', r') ->
  Generator.unclaimed g' = 0 /\ Generator.max_cap g' = BASE_CAP /\
  Generator.level g' = 0 /\ Generator.owner g' = sender ctx.
Proof.
  unfold recapture_generator. intros H. tx_inv H.
  destruct g; simpl in *. inversion H; subst. simpl.
  repeat split; reflexivity.
Qed.

Lemma reachable_settled g : reachable g -> settled g.
Proof.
  unfold settled. induction 1 as
    [ game rt xs ys clock ctx gens ctx' g Hc Hin
    | game g clock ctx g' Hr IH Hc
    | g r clock ctx g' r' Hr IH Hc
    | g r ctx g' r' Hr IH Hc
    | game g r clock ctx g' r' Hr IH Hc ].
  - unfold create_generators in Hc.
    destruct (bind_Ok_inv Hc) as [u [_ Hloop]].
    destruct (create_generators_loop_fresh _ _ _ _ _ _ _ _ _ Hloop Hin)
      as (_ & Hu & Hcap & Hlv).
    rewrite Hu, Hcap, Hlv. unfold BASE_CAP. lia.
  - destruct (claim_generator_fields _ _ _ _ _ Hc) as (-> & -> & ->).
    exact IH.
  - destruct (claim_resources_level _ _ _ _ _ _ Hc) as (-> & ->).
    destruct (claim_resources_unclaimed _ _ _ _ _ _ Hc) as [[-> _] | ->]; lia.
  - destruct (upgrade_generator_unclaimed _ _ _ _ _ Hc) as (-> & _ & -> & Hcap).
    destruct IH as (? & ? & ?). repeat split; [assumption | auto | lia].
  - destruct (recapture_generator_fields _ _ _ _ _ _ _ Hc) as (-> & -> & -> & _).
    unfold BASE_CAP. lia.
Qed.

(** C6.  In every generator state reachable through the entry functions
    ([create_generators], then any sequence of [claim_generator],
    [claim_resources], [upgrade_generator] and [recapture_generator]) the
    accrued amount is at most the cap, and an unowned generator
    ([owner = @0x0]) carries no accrued amount. *)
Theorem generator_invariant (g : Generator.t) :
  reachable g ->
  Generator.unclaimed g <= Generator.max_cap g /\
  (Generator.owner g = ZERO_ADDRESS -> Generator.unclaimed g = 0).
Proof.
  intros Hr. destruct (reachable_settled g Hr) as (Hu & Hcap & _).
  split; [lia | intros _; exact Hu].
Qed.

Lemma gen_claimed_reachable : reachable gen_claimed.
Proof.
  apply reach_claim_generator with (game := game0) (g := gen_created)
    (clock := 6000) (ctx := ctx_200); [| reflexivity].
  apply reach_create with (game := game0) (resource_type := 0)
    (x_coords := [3]) (y_coords := [4]) (clock := 5000) (ctx := ctx_creator)
    (gens := [gen_created]) (ctx' := mkTxContext 100 8 1);
    [reflexivity | left; reflexivity].
Defined.

Lemma generator_invariant_witness :
  Generator.unclaimed gen_claimed <= Generator.max_cap gen_claimed /\
  (Generator.owner gen_claimed = ZERO_ADDRESS ->
   Generator.unclaimed gen_claimed = 0).
Proof. exact (generator_invariant gen_claimed gen_claimed_reachable). Defined.

(** ** Trades *)

Ltac bool_facts :=
  unfold address_eqb in *;
  repeat match goal with
         | E : (_ <=? _) = true |- _ => apply Z.leb_le in E
         | E : (_ <=? _) = false |- _ => apply Z.leb_gt in E
         | E : (_ =? _) = true |- _ => apply Z.eqb_eq in E
         | E : (_ =? _) = false |- _ => apply Z.eqb_neq in E
         end.

Ltac step_checks :=
  repeat match goal with
         | |- context [ if ?b then _ else _ ] =>
             let E := fresh "E" in destruct b eqn:E; simpl
         end.

(** [accept_trade] either aborts or returns the fully exchanged records. *)
Lemma accept_trade_all_or_nothing p pr ar ctx :
  (exists r, accept_trade p pr ar ctx = Abort r) \/
  accept_trade p pr ar ctx
    = Ok (exchanged_proposer p pr, exchanged_accepter p ar).
Proof.
  destruct p, pr, ar.
  unfold accept_trade, exchanged_proposer, exchanged_accepter,
    assert, add, sub, bind; simpl.
  step_checks; first [ right; reflexivity | left; eexists; reflexivity ].
Qed.

Lemma accept_trade_succeeds p pr ar ctx :
  valid_proposal p ->
  accept_preconditions p pr ar ctx -> accept_fits p pr ar ->
  accept_trade p pr ar ctx
    = Ok (exchanged_proposer p pr, exchanged_accepter p ar).
Proof.
  unfold valid_proposal, accept_preconditions, accept_fits, is_u64.
  destruct p, pr, ar; simpl. intros Hv Hp Hf.
  unfold accept_trade, exchanged_proposer, exchanged_accepter,
    assert, add, sub, bind; simpl.
  step_checks; bool_facts; first [ reflexivity | exfalso; lia ].
Qed.

Lemma accept_trade_aborts p pr ar ctx :
  ~ accept_preconditions p pr ar ctx ->
  exists r, accept_trade p pr ar ctx = Abort r.
Proof.
  unfold accept_preconditions.
  destruct p, pr, ar; simpl. intros Hn.
  unfold accept_trade, assert, add, sub, bind; simpl.
  step_checks; bool_facts;
    first [ eexists; reflexivity | exfalso; apply Hn; repeat split; lia ].
Qed.

(** C7 (amended).  When the preconditions [accept_trade] asserts hold and no
    balance leaves the [u64] range during the exchange, the transaction
    moves the offered triple from proposer to accepter and the requested
    triple from accepter to proposer, keeps the two-party sum of each
    resource, and leaves no proposal.  When a precondition fails the
    transaction aborts and proposal and records are unchanged.  In every
    case the outcome is one of these two: there is no partial acceptance. *)
Theorem accept_trade_atomic p pr ar ctx :
  valid_proposal p ->
  (accept_preconditions p pr ar ctx -> accept_fits p pr ar ->
   exec_accept_trade p pr ar ctx
     = mkTradeObjects None (exchanged_proposer p pr) (exchanged_accepter p ar)
   /\ PlayerResources.wood (exchanged_proposer p pr)
        + PlayerResources.wood (exchanged_accepter p ar)
      = PlayerResources.wood pr + PlayerResources.wood ar
   /\ PlayerResources.stone (exchanged_proposer p pr)
        + PlayerResources.stone (exchanged_accepter p ar)
      = PlayerResources.stone pr + PlayerResources.stone ar
   /\ PlayerResources.emerald (exchanged_proposer p pr)
        + PlayerResources.emerald (exchanged_accepter p ar)
      = PlayerResources.emerald pr + PlayerResources.emerald ar)
  /\ (~ accept_preconditions p pr ar ctx ->
      exec_accept_trade p pr ar ctx = mkTradeObjects (Some p) pr ar)
  /\ (exec_accept_trade p pr ar ctx = mkTradeObjects (Some p) pr ar
      \/ exec_accept_trade p pr ar ctx
         = mkTradeObjects None (exchanged_proposer p pr)
             (exchanged_accepter p ar)).
Proof.
  intros Hv. unfold exec_accept_trade. repeat split.
  - rewrite (accept_trade_succeeds p pr ar ctx Hv H H0). reflexivity.
  - simpl. lia.
  - simpl. lia.
  - simpl. lia.
  - intros Hn. destruct (accept_trade_aborts p pr ar ctx Hn) as [r ->].
    reflexivity.
  - destruct (accept_trade_all_or_nothing p pr ar ctx) as [[r ->] | ->];
      [left | right]; reflexivity.
Qed.

Lemma accept_trade_atomic_witness :
  exec_accept_trade trade0 res_100 res_200 ctx_200
  = mkTradeObjects None
      (PlayerResources.mk (7, 1) (7, 0) 100 95 102 50)
      (PlayerResources.mk (7, 2) (7, 0) 200 105 98 50).
Proof.
  assert (Hv : valid_proposal trade0)
    by (unfold valid_proposal, is_u64, MAX_U64; simpl; lia).
  assert (Hp : accept_preconditions trade0 res_100 res_200 ctx_200)
    by (unfold accept_preconditions; simpl; lia).
  assert (Hf : accept_fits trade0 res_100 res_200)
    by (unfold accept_fits, MAX_U64; simpl; lia).
  exact (proj1 (proj1 (accept_trade_atomic trade0 res_100 res_200 ctx_200 Hv)
                  Hp Hf)).
Defined.

(** C7 as stated fails: every listed precondition holds (the accepter is the
    target, both records have the right owners, both sides cover what they
    give, every field is a [u64]), yet the call aborts on the checked
    addition [accepter.wood + wood_offered] and nothing is exchanged. *)
Lemma accept_trade_overflow_aborts :
  valid_proposal trade0 /\ valid_resources res_100 /\
  valid_resources res_200_full /\
  accept_preconditions trade0 res_100 res_200_full ctx_200 /\
  accept_trade trade0 res_100 res_200_full ctx_200 = Abort ArithmeticError /\
  exec_accept_trade trade0 res_100 res_200_full ctx_200
    = mkTradeObjects (Some trade0) res_100 res_200_full.
Proof.
  unfold valid_proposal, valid_resources, accept_preconditions, is_u64.
  simpl. unfold MAX_U64.
  repeat split; try lia; reflexivity.
Qed.

(** ** Creating generators *)

Lemma create_generators_loop_ok game_id rt now xs :
  forall ys ctx,
    (List.length xs <= List.length ys)%nat ->
    exists gens ctx',
      create_generators_loop game_id rt now xs ys ctx = Ok (gens, ctx') /\
      map Generator.x gens = xs /\
      map Generator.y gens = firstn (List.length xs) ys /\
      sender ctx' = sender ctx /\ tx_hash ctx' = tx_hash ctx /\
      ids_created ctx' = ids_created ctx + Z.of_nat (List.length xs) /\
      (forall g, In g gens ->
         fst (Generator.id g) = tx_hash ctx /\
         ids_created ctx <= snd (Generator.id g) < ids_created ctx') /\
      NoDup (map Generator.id gens).
Proof.
  induction xs as [| x xs IH]; intros ys ctx Hlen.
  - exists [], ctx. simpl. repeat split; try reflexivity; try lia.
    constructor.
  - destruct ys as [| y ys]; [simpl in Hlen; lia |].
    simpl in Hlen. apply le_S_n in Hlen.
    destruct (IH ys (snd (object_new ctx)) Hlen)
      as (gens & ctx' & Hrun & Hx & Hy & Hs & Hh & Hc & Hids & Hnd).
    simpl in Hrun, Hs, Hh, Hc, Hids.
    eexists; exists ctx'. simpl. rewrite Hrun. simpl.
    split; [reflexivity |]. simpl.
    split; [rewrite Hx; reflexivity |].
    split; [rewrite Hy; reflexivity |].
    split; [exact Hs |]. split; [exact Hh |].
    split; [lia |]. split.
    + intros g [<- | Hin]; simpl; [split; [reflexivity | lia] |].
      destruct (Hids g Hin) as [Hf Hr]. split; [exact Hf | lia].
    + constructor; [| exact Hnd].
      intros Hin. apply in_map_iff in Hin.
      destruct Hin as (g & Hg & Hin). destruct (Hids g Hin) as [_ Hr].
      rewrite Hg in Hr. simpl in Hr. lia.
Qed.

Lemma create_generators_loop_short game_id rt now xs :
  forall ys ctx,
    (List.length ys < List.length xs)%nat ->
    create_generators_loop game_id rt now xs ys ctx = Abort VectorOutOfBounds.
Proof.
  induction xs as [| x xs IH]; intros ys ctx Hlen; [simpl in Hlen; lia |].
  destruct ys as [| y ys]; [reflexivity |].
  simpl in Hlen. simpl. rewrite IH by lia. reflexivity.
Qed.

(** X1.  [create_generators] succeeds exactly for the match creator with a
    y coordinate for every x coordinate.  It then shares one generator per
    x coordinate, in order, at the paired coordinates, with pairwise
    distinct identifiers; a caller other than the creator aborts with
    [E_NOT_PARTICIPANT], and a short [y_coords] aborts the whole call. *)
Theorem create_generators_outcome game rt xs ys now ctx :
  (sender ctx = GameMatch.creator game ->
   (List.length xs <= List.length ys)%nat ->
   exists gens ctx',
     create_generators game rt xs ys now ctx = Ok (gens, ctx') /\
     map Generator.x gens = xs /\
     map Generator.y gens = firstn (List.length xs) ys /\
     NoDup (map Generator.id gens) /\
     forall g, In g gens ->
       Generator.game_id g = GameMatch.id game /\
       Generator.resource_type g = rt /\
       Generator.owner g = ZERO_ADDRESS /\
       Generator.last_claim_time g = now)
  /\ (sender ctx <> GameMatch.creator game ->
      create_generators game rt xs ys now ctx
        = Abort (AssertFailed E_NOT_PARTICIPANT))
  /\ (sender ctx = GameMatch.creator game ->
      (List.length ys < List.length xs)%nat ->
      create_generators game rt xs ys now ctx = Abort VectorOutOfBounds).
Proof.
  unfold create_generators, address_eqb. split; [| split].
  - intros Hs Hlen. rewrite Hs, Z.eqb_refl. simpl.
    destruct (create_generators_loop_ok (GameMatch.id game) rt now xs ys ctx
                Hlen) as (gens & ctx' & Hrun & Hx & Hy & _ & _ & _ & _ & Hnd).
    exists gens, ctx'. repeat split; try assumption.
    + clear - Hrun H. revert ys ctx gens ctx' Hrun H.
      induction xs as [| x xs IH]; intros ys ctx gens ctx' Hrun Hin;
        simpl in Hrun.
      * inversion Hrun; subst. destruct Hin.
      * destruct ys as [| y ys]; [discriminate |].
        destruct (bind_Ok_inv Hrun) as [[rest c2] [Hrest Hk]].
        simpl in Hk. inversion Hk; subst; clear Hk.
        destruct Hin as [<- | Hin]; [reflexivity | eapply IH; eassumption].
    + clear - Hrun H. revert ys ctx gens ctx' Hrun H.
      induction xs as [| x xs IH]; intros ys ctx gens ctx' Hrun Hin;
        simpl in Hrun.
      * inversion Hrun; subst. destruct Hin.
      * destruct ys as [| y ys]; [discriminate |].
        destruct (bind_Ok_inv Hrun) as [[rest c2] [Hrest Hk]].
        simpl in Hk. inversion Hk; subst; clear Hk.
        destruct Hin as [<- | Hin]; [reflexivity | eapply IH; eassumption].
    + exact (proj1 (create_generators_loop_fresh _ _ _ _ _ _ _ _ _ Hrun H)).
    + clear - Hrun H. revert ys ctx gens ctx' Hrun H.
      induction xs as [| x xs IH]; intros ys ctx gens ctx' Hrun Hin;
        simpl in Hrun.
      * inversion Hrun; subst. destruct Hin.
      * destruct ys as [| y ys]; [discriminate |].
        destruct (bind_Ok_inv Hrun) as [[rest c2] [Hrest Hk]].
        simpl in Hk. inversion Hk; subst; clear Hk.
        destruct Hin as [<- | Hin]; [reflexivity | eapply IH; eassumption].
  - intros Hs. apply Z.eqb_neq in Hs. rewrite Hs. reflexivity.
  - intros Hs Hlen. rewrite Hs, Z.eqb_refl. simpl.
    apply create_generators_loop_short. exact Hlen.
Qed.

Lemma create_generators_outcome_witness :
  exists gens ctx',
    create_generators game0 0 [3; 5] [4; 6; 9] 5000 ctx_creator
      = Ok (gens, ctx') /\
    map Generator.x gens = [3; 5] /\ map Generator.y gens = [4; 6].
Proof.
  destruct (proj1 (create_generators_outcome game0 0 [3; 5] [4; 6; 9] 5000
                     ctx_creator))
    as (gens & ctx' & Hrun & Hx & Hy & _).
  - reflexivity.
  - simpl. lia.
  - exists gens, ctx'. repeat split; assumption.
Defined.

(** ** Claiming and keeping a generator *)

Lemma contains_In (v : list address) (a : address) :
  contains v a = true <-> In a v.
Proof.
  unfold contains, address_eqb. rewrite existsb_exists. split.
  - intros (b & Hb & E). apply Z.eqb_eq in E. subst. exact Hb.
  - intros H. exists a. split; [exact H | apply Z.eqb_refl].
Qed.

(** X2.  [claim_generator] succeeds exactly when the sender is a participant
    of the match and the generator is unowned; it then changes nothing but
    the owner, now the sender, and the last claim time, now the clock.  On
    an owned generator it aborts with [E_GENERATOR_OCCUPIED] for every
    participant. *)
Theorem claim_generator_outcome game g now ctx :
  (In (sender ctx) (GameMatch.participants game) ->
   Generator.owner g = ZERO_ADDRESS ->
   claim_generator game g now ctx
   = Ok (Generator.mk (Generator.id g) (Generator.game_id g)
           (Generator.resource_type g) (Generator.x g) (Generator.y g)
           (sender ctx) (Generator.level g) (Generator.generation_rate g)
           (Generator.max_cap g) (Generator.unclaimed g) now
           (Generator.last_recaptured_by g) (Generator.last_recaptured_from g)))
  /\ (~ In (sender ctx) (GameMatch.participants game) ->
      claim_generator game g now ctx = Abort (AssertFailed E_NOT_PARTICIPANT))
  /\ (In (sender ctx) (GameMatch.participants game) ->
      Generator.owner g <> ZERO_ADDRESS ->
      claim_generator game g now ctx
        = Abort (AssertFailed E_GENERATOR_OCCUPIED)).
Proof.
  unfold claim_generator. split; [| split].
  - intros Hp Ho. apply contains_In in Hp. rewrite Hp. simpl.
    unfold address_eqb. rewrite Ho, Z.eqb_refl. simpl.
    destruct g; simpl in *. subst. reflexivity.
  - intros Hp. destruct (contains (GameMatch.participants game) (sender ctx))
      eqn:E; [apply contains_In in E; contradiction | reflexivity].
  - intros Hp Ho. apply contains_In in Hp. rewrite Hp. simpl.
    unfold address_eqb. apply Z.eqb_neq in Ho. rewrite Ho. reflexivity.
Qed.

Lemma claim_generator_outcome_witness :
  claim_generator game0 gen_claimed 7000 ctx_creator
  = Abort (AssertFailed E_GENERATOR_OCCUPIED).
Proof.
  apply (proj2 (proj2 (claim_generator_outcome game0 gen_claimed 7000
                         ctx_creator))).
  - simpl. tauto.
  - simpl. discriminate.
Defined.

Lemma claim_generator_owner game g now ctx g' :
  claim_generator game g now ctx = Ok g' -> Generator.owner g' = sender ctx.
Proof.
  unfold claim_generator. intros H. tx_inv H.
  destruct g; simpl in *. inversion H; subst. reflexivity.
Qed.

Lemma claim_resources_owner g r now ctx g' r' :
  claim_resources g r now ctx = Ok (g', r') ->
  Generator.owner g' = Generator.owner g.
Proof.
  unfold claim_resources. intros H.
  destruct (bind_Ok_inv H) as [u1 [_ H1]]; clear H.
  destruct (bind_Ok_inv H1) as [u2 [_ H2]]; clear H1.
  destruct (bind_Ok_inv H2) as [to_claim [_ H3]]; clear H2.
  destruct (0 <? to_claim).
  - destruct (bind_Ok_inv H3) as [r1 [_ H4]]; clear H3.
    destruct g; simpl in *. inversion H4; subst. reflexivity.
  - inversion H3; subst. reflexivity.
Qed.

Lemma signed_step_keeps_owned g g' :
  Generator.owner g <> ZERO_ADDRESS -> signed_step g g' ->
  Generator.owner g' <> ZERO_ADDRESS.
Proof.
  intros Ho [game now ctx Hs Hc | r now ctx r' Hs Hc | r ctx r' Hs Hc
            | game r now ctx r' Hs Hc].
  - rewrite (claim_generator_owner _ _ _ _ _ Hc). exact Hs.
  - rewrite (claim_resources_owner _ _ _ _ _ _ Hc). exact Ho.
  - destruct (upgrade_generator_unclaimed _ _ _ _ _ Hc) as (_ & -> & _).
    exact Ho.
  - destruct (recapture_generator_fields _ _ _ _ _ _ _ Hc) as (_ & _ & _ & ->).
    exact Hs.
Qed.

(** X3.  Once a generator has an owner it never returns to the unowned
    state: after any sequence of successful calls signed by accounts other
    than [@0x0] the owner is still not [@0x0], so [claim_generator] aborts
    on it for good; only [recapture_generator] changes who the owner is. *)
Theorem owned_generator_stays_owned g g' :
  Generator.owner g <> ZERO_ADDRESS ->
  signed_steps g g' ->
  Generator.owner g' <> ZERO_ADDRESS /\
  forall game now ctx,
    exists reason, claim_generator game g' now ctx = Abort reason.
Proof.
  intros Ho Hsteps.
  assert (Ho' : Generator.owner g' <> ZERO_ADDRESS).
  { induction Hsteps as [g | g g1 g2 Hstep _ IH]; [exact Ho |].
    apply IH. exact (signed_step_keeps_owned g g1 Ho Hstep). }
  split; [exact Ho' |]. intros game now ctx. unfold claim_generator.
  destruct (contains (GameMatch.participants game) (sender ctx)); simpl;
    [| eexists; reflexivity].
  unfold address_eqb. apply Z.eqb_neq in Ho'. rewrite Ho'. simpl.
  eexists; reflexivity.
Qed.

Lemma owned_generator_stays_owned_witness :
  Generator.owner gen_upgraded <> ZERO_ADDRESS.
Proof.
  refine (proj1 (owned_generator_stays_owned gen_claimed gen_upgraded _ _)).
  - simpl. discriminate.
  - apply steps_more with (g' := gen_upgraded).
    + apply step_upgrade_generator with (r := res_200_rich) (ctx := ctx_200)
        (r' := PlayerResources.mk (7, 2) (7, 0) 200 300 250 150);
        [simpl; discriminate | reflexivity].
    + apply steps_none.
Defined.

(** ** Settling a generator *)

Lemma sub_Ok_inv (a b c : Z) : sub a b = Ok c -> c = a - b /\ b <= a.
Proof.
  unfold sub. destruct (b <=? a) eqn:E; intros Hc.
  - apply Z.leb_le in E. inversion Hc; split; [reflexivity | assumption].
  - discriminate Hc.
Qed.





(** X5.  A claim made by the owner before a full minute has passed since the
    last claim, on a generator with nothing accrued, succeeds and changes
    neither the generator nor the record: the timer is not restarted, so
    the time already waited still counts. *)
Theorem claim_resources_before_interval g r now ctx :
  Generator.owner g = sender ctx -> PlayerResources.owner r = sender ctx ->
  Generator.unclaimed g = 0 ->
  Generator.last_claim_time g <= now
    < Generator.last_claim_time g + GENERATION_INTERVAL_MS ->
  claim_resources g r now ctx = Ok (g, r).
Proof.
  intros Ho Hr Hu [Hle Hlt]. unfold claim_resources, address_eqb.
  rewrite Ho, Hr, !Z.eqb_refl. simpl.
  unfold settle, sub.
  destruct (Z.leb_spec (Generator.last_claim_time g) now); [| lia]. simpl.
  unfold GENERATION_INTERVAL_MS in *.
  rewrite Z.div_small by lia. simpl. rewrite Hu. simpl.
  destruct (Generator.max_cap g <? 0) eqn:E; simpl.
  - apply Z.ltb_lt in E.
    destruct (Z.ltb_spec 0 (Generator.max_cap g)); [lia | reflexivity].
  - reflexivity.
Qed.

Lemma claim_resources_before_interval_witness :
  claim_resources gen_level2 res_200_rich 65999 ctx_200
  = Ok (gen_level2, res_200_rich).
Proof.
  apply claim_resources_before_interval; try reflexivity.
  unfold GENERATION_INTERVAL_MS; simpl; lia.
Defined.

(** ** Recapturing and upgrading *)

Lemma div_Ok_inv (a b c : Z) : div a b = Ok c -> c = a / b /\ b <> 0.
Proof.
  unfold div. destruct (b =? 0) eqn:E; intros Hc; [discriminate Hc |].
  apply Z.eqb_neq in E. inversion Hc; split; [reflexivity | assumption].
Qed.



(** X7.  A successful [upgrade_generator] is called by the owner of both
    objects and costs [100 * (level + 1)] wood, the same in stone and half
    of it in emerald, all of which the record held.  The level goes up by
    one, the rate becomes [20 * (new level + 1)] and the cap
    [1000 * (new level + 1)]; the accrued amount and the last claim time
    stay as they were. *)
Theorem upgrade_generator_outcome g r ctx g' r' :
  upgrade_generator g r ctx = Ok (g', r') ->
  let cost := 100 * (Generator.level g + 1) in
  Generator.owner g = sender ctx /\ PlayerResources.owner r = sender ctx /\
  cost <= PlayerResources.wood r /\ cost <= PlayerResources.stone r /\
  cost / 2 <= PlayerResources.emerald r /\
  r' = PlayerResources.mk (PlayerResources.id r) (PlayerResources.game_id r)
         (PlayerResources.owner r) (PlayerResources.wood r - cost)
         (PlayerResources.stone r - cost)
         (PlayerResources.emerald r - cost / 2) /\
  g' = Generator.mk (Generator.id g) (Generator.game_id g)
         (Generator.resource_type g) (Generator.x g) (Generator.y g)
         (Generator.owner g) (Generator.level g + 1)
         (20 * (Generator.level g + 2)) (1000 * (Generator.level g + 2))
         (Generator.unclaimed g) (Generator.last_claim_time g)
         (Generator.last_recaptured_by g) (Generator.last_recaptured_from g).
Proof.
  unfold upgrade_generator. intros H.
  destruct r as [ri rg ro w s e].
  destruct g as [i gi rt x y o lv rate cap un t by_ from_].
  cbv beta iota zeta in H. tx_inv H.
  cbn [Generator.id Generator.game_id Generator.resource_type Generator.x
       Generator.y Generator.owner Generator.level Generator.generation_rate
       Generator.max_cap Generator.unclaimed Generator.last_claim_time
       Generator.last_recaptured_by Generator.last_recaptured_from
       PlayerResources.id PlayerResources.game_id PlayerResources.owner
       PlayerResources.wood PlayerResources.stone PlayerResources.emerald]
    in *.
  repeat match goal with
         | E : add _ _ = Ok _ |- _ => apply add_Ok_inv in E; destruct E as [? _]
         | E : mul _ _ = Ok _ |- _ => apply mul_Ok_inv in E; destruct E as [? _]
         | E : sub _ _ = Ok _ |- _ => apply sub_Ok_inv in E; destruct E as [? ?]
         | E : div _ _ = Ok _ |- _ => apply div_Ok_inv in E; destruct E as [? _]
         | E : assert _ _ = Ok _ |- _ => apply assert_Ok_inv in E
         end.
  injection H as <- <-. bool_facts. subst.
  unfold BASE_CAP, BASE_GENERATION.
  repeat split; try assumption; try lia; f_equal; lia.
Qed.

Lemma upgrade_generator_outcome_witness :
  PlayerResources.mk (7, 2) (7, 0) 200 300 250 150
  = PlayerResources.mk (PlayerResources.id res_200_rich)
      (PlayerResources.game_id res_200_rich)
      (PlayerResources.owner res_200_rich)
      (PlayerResources.wood res_200_rich - 100 * (Generator.level gen_claimed + 1))
      (PlayerResources.stone res_200_rich - 100 * (Generator.level gen_claimed + 1))
      (PlayerResources.emerald res_200_rich
       - 100 * (Generator.level gen_claimed + 1) / 2).
Proof.
  exact (proj1 (proj2 (proj2 (proj2 (proj2 (proj2
           (upgrade_generator_outcome gen_claimed res_200_rich ctx_200
              gen_upgraded (PlayerResources.mk (7, 2) (7, 0) 200 300 250 150)
              eq_refl))))))).
Defined.

(** ** Opening a match *)

Lemma create_match_loop_spec game_id iw istone ie participants :
  forall ctx,
    let '(records, ctx') :=
      create_match_loop game_id iw istone ie participants ctx in
    map PlayerResources.owner records = participants /\
    tx_hash ctx' = tx_hash ctx /\
    ids_created ctx' = ids_created ctx + Z.of_nat (List.length participants) /\
    (forall r, In r records ->
       PlayerResources.game_id r = game_id /\
       PlayerResources.wood r = iw /\ PlayerResources.stone r = istone /\
       PlayerResources.emerald r = ie /\
       fst (PlayerResources.id r) = tx_hash ctx /\
       ids_created ctx <= snd (PlayerResources.id r)) /\
    NoDup (map PlayerResources.id records).
Proof.
  induction participants as [| p ps IH]; intros ctx; simpl.
  - repeat split; try reflexivity; try lia; try (intros r []); constructor.
  - specialize (IH (snd (object_new ctx))). simpl in IH.
    destruct (create_match_loop game_id iw istone ie ps _) as [others ctx2].
    destruct IH as (Ho & Hh & Hc & Hall & Hnd). simpl.
    split; [rewrite Ho; reflexivity |]. split; [exact Hh |].
    split; [lia |]. split.
    + intros r [<- | Hin]; simpl; [repeat split; try reflexivity; lia |].
      destruct (Hall r Hin) as (? & ? & ? & ? & ? & ?).
      repeat split; try assumption; lia.
    + constructor; [| exact Hnd].
      intros Hin. apply in_map_iff in Hin. destruct Hin as (r & Hr & Hin).
      destruct (Hall r Hin) as (_ & _ & _ & _ & _ & Hge).
      rewrite Hr in Hge. simpl in Hge. lia.
Qed.

(** X8.  [create_match] never aborts.  The match it shares has the sender
    as creator and the given participant list; every participant, in
    order and once per occurrence in the list, receives a record of the
    match with the three initial amounts; the match and the records all
    have different identifiers. *)
Theorem create_match_outcome participants iw istone ie ctx :
  let '(game, records, ctx') :=
    create_match participants iw istone ie ctx in
  GameMatch.creator game = sender ctx /\
  GameMatch.participants game = participants /\
  map PlayerResources.owner records = participants /\
  (forall r, In r records ->
     PlayerResources.game_id r = GameMatch.id game /\
     PlayerResources.wood r = iw /\ PlayerResources.stone r = istone /\
     PlayerResources.emerald r = ie) /\
  NoDup (GameMatch.id game :: map PlayerResources.id records).
Proof.
  unfold create_match. simpl.
  pose proof (create_match_loop_spec (tx_hash ctx, ids_created ctx) iw istone
                ie participants (snd (object_new ctx))) as H.
  simpl in H.
  destruct (create_match_loop _ iw istone ie participants _)
    as [records ctx2].
  destruct H as (Ho & _ & _ & Hall & Hnd). simpl.
  split; [reflexivity |]. split; [reflexivity |]. split; [exact Ho |].
  split.
  - intros r Hin. destruct (Hall r Hin) as (? & ? & ? & ? & _).
    repeat split; assumption.
  - constructor; [| exact Hnd].
    intros Hin. apply in_map_iff in Hin. destruct Hin as (r & Hr & Hin).
    destruct (Hall r Hin) as (_ & _ & _ & _ & _ & Hge).
    rewrite Hr in Hge. simpl in Hge. lia.
Qed.

(** ** Proposals are not escrowed *)

(** X9.  [propose_trade] succeeds only for a proposer who owns the record,
    with proposer and target both participants and the record covering the
    offer; it reads the record without debiting it.  The target can accept
    such a proposal at once when it covers the request and no counter
    overflows; but nothing is set aside, and if the proposer's record has
    meanwhile dropped below the wood offered, [accept_trade] aborts with
    [E_INSUFFICIENT_RESOURCES]. *)
Theorem propose_trade_no_escrow game pr target wo so eo wr sr er ctx p ctx' :
  propose_trade game pr target wo so eo wr sr er ctx = Ok (p, ctx') ->
  p = TradeProposal.mk (tx_hash ctx, ids_created ctx) (GameMatch.id game)
        (sender ctx) target wo so eo wr sr er /\
  PlayerResources.owner pr = sender ctx /\
  In (sender ctx) (GameMatch.participants game) /\
  In target (GameMatch.participants game) /\
  wo <= PlayerResources.wood pr /\ so <= PlayerResources.stone pr /\
  eo <= PlayerResources.emerald pr /\
  (forall ar actx,
     valid_proposal p ->
     sender actx = target -> PlayerResources.owner ar = target ->
     wr <= PlayerResources.wood ar -> sr <= PlayerResources.stone ar ->
     er <= PlayerResources.emerald ar ->
     accept_fits p pr ar ->
     accept_trade p pr ar actx
       = Ok (exchanged_proposer p pr, exchanged_accepter p ar)) /\
  (forall pr2 ar actx,
     sender actx = target -> PlayerResources.owner ar = target ->
     PlayerResources.owner pr2 = sender ctx ->
     PlayerResources.wood pr2 < wo ->
     accept_trade p pr2 ar actx
       = Abort (AssertFailed E_INSUFFICIENT_RESOURCES)).
Proof.
  unfold propose_trade. intros H. tx_inv H.
  repeat match goal with
         | E : assert _ _ = Ok _ |- _ => apply assert_Ok_inv in E
         end.
  apply contains_In in Hm0, Hm1. bool_facts.
  simpl in H. injection H as <- <-.
  split; [reflexivity |]. split; [assumption |].
  split; [assumption |]. split; [assumption |].
  split; [assumption |]. split; [assumption |]. split; [assumption |].
  split.
  - intros ar actx Hv Hs Ho Hw Hst He Hfits.
    apply accept_trade_succeeds; try assumption.
    unfold accept_preconditions; simpl. repeat split; try assumption; lia.
  - intros pr2 ar actx Hs Ho Ho2 Hlt.
    destruct pr2 as [pi pg po pw ps pe]. destruct ar as [ai ag ao aw as_ ae].
    simpl in *. subst. unfold accept_trade, address_eqb, assert, bind.
    rewrite !Z.eqb_refl. simpl.
    destruct (Z.leb_spec wo pw); [lia | reflexivity].
Qed.

Lemma propose_trade_no_escrow_witness :
  accept_trade trade0 (PlayerResources.mk (7, 1) (7, 0) 100 4 100 50) res_200
    ctx_200
  = Abort (AssertFailed E_INSUFFICIENT_RESOURCES).
Proof.
  refine (proj2 (proj2 (proj2 (proj2 (proj2 (proj2 (proj2 (proj2
            (propose_trade_no_escrow game0 res_100 200 5 0 0 0 2 0
               (mkTxContext 100 9 0) trade0 (mkTxContext 100 9 1) eq_refl))))))))
            _ _ _ _ _ _ _); simpl; try reflexivity; lia.
Defined.

End ResourceGameFacts.

(* ================================================================== *)
(** * Properties of the geometry helpers *)
(* ================================================================== *)

Module GeometryFacts.

Import JS World Context.
Local Open Scope R_scope.

Lemma Rleb_true (a b : R) : a <= b -> Rleb a b = true.
Proof. intros H. unfold Rleb. destruct (Rle_dec a b); [reflexivity | contradiction]. Qed.

Lemma Rleb_false (a b : R) : b < a -> Rleb a b = false.
Proof. intros H. unfold Rleb. destruct (Rle_dec a b); [lra | reflexivity]. Qed.

Lemma Rltb_true (a b : R) : a < b -> Rltb a b = true.
Proof. intros H. unfold Rltb. destruct (Rlt_dec a b); [reflexivity | contradiction]. Qed.

Lemma Rltb_false (a b : R) : b <= a -> Rltb a b = false.
Proof. intros H. unfold Rltb. destruct (Rlt_dec a b); [lra | reflexivity]. Qed.

(** [Math.atan2(0, 0)] is [0]. *)
Lemma Math_atan2_origin : Math_atan2 0 0 = 0.
Proof.
  unfold Math_atan2.
  destruct (Rlt_dec 0 0) as [H | _]; [lra |].
  reflexivity.
Qed.

(** The angle [0] lies in the first sector tested. *)
Lemma sector_zero : sector 0 = "to the East"%string.
Proof.
  unfold sector.
  rewrite (Rleb_true (-22.5) 0) by lra.
  rewrite (Rltb_true 0 22.5) by lra.
  reflexivity.
Qed.

(** The eight sector tests cover every angle: the final [return "nearby"]
    is reached for no real angle. *)
Ltac decide_tests :=
  repeat match goal with
         | |- context [Rleb ?a ?b] =>
             first [ rewrite (Rleb_true a b) by lra
                   | rewrite (Rleb_false a b) by lra ]
         | |- context [Rltb ?a ?b] =>
             first [ rewrite (Rltb_true a b) by lra
                   | rewrite (Rltb_false a b) by lra ]
         end; simpl.

Lemma sector_never_nearby (angle : R) : sector angle <> "nearby"%string.
Proof.
  unfold sector.
  destruct (Rlt_dec angle (-157.5)); [decide_tests; discriminate |].
  destruct (Rlt_dec angle (-112.5)); [decide_tests; discriminate |].
  destruct (Rlt_dec angle (-67.5)); [decide_tests; discriminate |].
  destruct (Rlt_dec angle (-22.5)); [decide_tests; discriminate |].
  destruct (Rlt_dec angle 22.5); [decide_tests; discriminate |].
  destruct (Rlt_dec angle 67.5); [decide_tests; discriminate |].
  destruct (Rlt_dec angle 112.5); [decide_tests; discriminate |].
  destruct (Rlt_dec angle 157.5); decide_tests; discriminate.
Qed.

Lemma getDirection_same_position_aux (p : Position.t) :
  getDirection p p = "to the East"%string.
Proof.
  unfold getDirection.
  replace (Position.x p - Position.x p) with 0 by ring.
  replace (Position.y p - Position.y p) with 0 by ring.
  rewrite Math_atan2_origin.
  replace (0 * (180 / PI)) with 0 by ring.
  exact sector_zero.
Qed.

(** C2 (amended).  For equal positions [dx = dy = 0], the angle is [0] and
    [getDirection] returns the label of the sector containing [0],
    ["to the East"]; it returns a label for every pair of positions, and
    never the fallback ["nearby"]. *)
Theorem getDirection_same_position (p : Position.t) :
  getDirection p p = "to the East"%string
  /\ forall from to, getDirection from to <> "nearby"%string.
Proof.
  split.
  - apply getDirection_same_position_aux.
  - intros from to. unfold getDirection. apply sector_never_nearby.
Qed.

(** C2 as stated fails: at the position [(3, 4)] compared with itself the
    result is not the fallback label ["nearby"]. *)
Lemma getDirection_same_position_not_nearby :
  getDirection (Position.mk 3 4) (Position.mk 3 4) <> "nearby"%string.
Proof.
  intros H.
  pose proof (getDirection_same_position_aux (Position.mk 3 4)) as E.
  rewrite E in H. discriminate H.
Qed.

(** ** Bearings *)

Lemma degrees (a : R) (n : R) :
  a = n * (PI / 180) -> a * (180 / PI) = n.
Proof.
  intros ->. field. apply Rgt_not_eq. exact PI_RGT_0.
Qed.

Ltac bearing n :=
  rewrite (degrees _ n) by lra;
  unfold sector; decide_tests; reflexivity.

(** X23.  With [y] growing downwards, a target straight to the right of
    the origin is reported ["to the East"], straight below ["to the
    South"], straight to the left ["to the West"], straight above ["to the
    North"], and a target on a diagonal gets the label between its two
    neighbours. *)
Theorem getDirection_compass (from : Position.t) (d : R) :
  0 < d ->
  let x := Position.x from in
  let y := Position.y from in
  getDirection from (Position.mk (x + d) y) = "to the East"%string /\
  getDirection from (Position.mk (x + d) (y + d)) = "to the Southeast"%string /\
  getDirection from (Position.mk x (y + d)) = "to the South"%string /\
  getDirection from (Position.mk (x - d) (y + d)) = "to the Southwest"%string /\
  getDirection from (Position.mk (x - d) y) = "to the West"%string /\
  getDirection from (Position.mk (x - d) (y - d)) = "to the Northwest"%string /\
  getDirection from (Position.mk x (y - d)) = "to the North"%string /\
  getDirection from (Position.mk (x + d) (y - d)) = "to the Northeast"%string.
Proof.
  intros Hd. cbv zeta. unfold getDirection; simpl.
  replace (Position.x from + d - Position.x from) with d by ring.
  replace (Position.y from + d - Position.y from) with d by ring.
  replace (Position.x from - d - Position.x from) with (- d) by ring.
  replace (Position.y from - d - Position.y from) with (- d) by ring.
  replace (Position.x from - Position.x from) with 0 by ring.
  replace (Position.y from - Position.y from) with 0 by ring.
  assert (H1 : d / d = 1) by (field; lra).
  assert (H2 : - d / d = - 1) by (field; lra).
  assert (H3 : d / - d = - 1) by (field; lra).
  assert (H4 : - d / - d = 1) by (field; lra).
  assert (H5 : 0 / d = 0) by (field; lra).
  assert (H6 : 0 / - d = 0) by (field; lra).
  pose proof PI_RGT_0 as Hpi.
  unfold Math_atan2.
  repeat match goal with
         | |- context [Rlt_dec ?a ?b] =>
             destruct (Rlt_dec a b); try (exfalso; lra)
         | |- context [Rle_dec ?a ?b] =>
             destruct (Rle_dec a b); try (exfalso; lra)
         end.
  assert (Hm : atan (-1) = - (PI / 4)).
  { replace (-1) with (- (1)) by lra. rewrite atan_opp, atan_1. reflexivity. }
  rewrite ?H1, ?H2, ?H3, ?H4, ?H5, ?H6, ?Hm, ?atan_1, ?atan_0.
  repeat split.
  - bearing 0.
  - bearing 45.
  - bearing 90.
  - bearing 135.
  - bearing 180.
  - bearing (-135).
  - bearing (-90).
  - bearing (-45).
Qed.

Lemma getDirection_compass_witness :
  getDirection (Position.mk 50 50) (Position.mk (50 + 5) 50)
  = "to the East"%string.
Proof.
  apply (proj1 (getDirection_compass (Position.mk 50 50) 5 ltac:(lra))).
Defined.

Lemma Math_atan2_scale (k y x : R) :
  0 < k -> Math_atan2 (k * y) (k * x) = Math_atan2 y x.
Proof.
  intros Hk. unfold Math_atan2.
  destruct (Rlt_dec 0 x) as [Hx | Hx].
  - destruct (Rlt_dec 0 (k * x)); [| exfalso; nra].
    f_equal. field. lra.
  - destruct (Rlt_dec 0 (k * x)); [exfalso; nra |].
    destruct (Rlt_dec x 0) as [Hx' | Hx'].
    + destruct (Rlt_dec (k * x) 0); [| exfalso; nra].
      assert (E : k * y / (k * x) = y / x) by (field; lra).
      rewrite E.
      destruct (Rle_dec 0 y), (Rle_dec 0 (k * y)); try reflexivity;
        exfalso; nra.
    + destruct (Rlt_dec (k * x) 0); [exfalso; nra |].
      destruct (Rlt_dec 0 y), (Rlt_dec 0 (k * y)); try reflexivity;
        try (exfalso; nra).
      destruct (Rlt_dec y 0), (Rlt_dec (k * y) 0); try reflexivity;
        exfalso; nra.
Qed.

(** X24.  The label depends on the direction of the target only, not on how
    far away it is: moving the target along the ray from the origin, by
    any positive factor, gives the same label. *)
Theorem getDirection_scale_invariant (from to : Position.t) (k : R) :
  0 < k ->
  getDirection from
    (Position.mk
       (Position.x from + k * (Position.x to - Position.x from))
       (Position.y from + k * (Position.y to - Position.y from)))
  = getDirection from to.
Proof.
  intros Hk. unfold getDirection; simpl.
  replace (Position.x from + k * (Position.x to - Position.x from)
           - Position.x from)
    with (k * (Position.x to - Position.x from)) by ring.
  replace (Position.y from + k * (Position.y to - Position.y from)
           - Position.y from)
    with (k * (Position.y to - Position.y from)) by ring.
  rewrite Math_atan2_scale by exact Hk. reflexivity.
Qed.

Lemma getDirection_scale_invariant_witness :
  getDirection (Position.mk 0 0)
    (Position.mk (0 + 3 * (2 - 0)) (0 + 3 * (5 - 0)))
  = getDirection (Position.mk 0 0) (Position.mk 2 5).
Proof.
  apply (getDirection_scale_invariant (Position.mk 0 0) (Position.mk 2 5) 3).
  lra.
Defined.

(** ** Distances *)

(** X25.  The distance the context prints and the distance the range
    queries of the world filter by are the same number; it is symmetric,
    never negative, and zero exactly for equal positions.  So every agent
    [getAgentsInRange] returns is shown at a distance of at most the
    range. *)
Theorem distances_agree (a b : Position.t) :
  calculateDistance a b = World.distance a b /\
  calculateDistance a b = calculateDistance b a /\
  0 <= calculateDistance a b /\
  (calculateDistance a b = 0 <-> a = b) /\
  (forall w range agent,
     In agent (getAgentsInRange w a range) ->
     calculateDistance a (GameAgent.position agent) <= range).
Proof.
  assert (Hsq : forall p q : Position.t,
            (Position.x q - Position.x p) ^ 2 + (Position.y q - Position.y p) ^ 2
            = (Position.x p - Position.x q) ^ 2
              + (Position.y p - Position.y q) ^ 2) by (intros; ring).
  unfold calculateDistance, World.distance.
  split; [rewrite Hsq; reflexivity |].
  split; [rewrite Hsq; reflexivity |].
  split; [apply sqrt_pos |]. split.
  - split.
    + intros H0.
      pose proof (pow2_ge_0 (Position.x b - Position.x a)) as Hx.
      pose proof (pow2_ge_0 (Position.y b - Position.y a)) as Hy.
      apply sqrt_eq_0 in H0; [| lra].
      assert (Hx0 : (Position.x b - Position.x a) ^ 2 = 0) by lra.
      assert (Hy0 : (Position.y b - Position.y a) ^ 2 = 0) by lra.
      destruct (Req_dec (Position.x b - Position.x a) 0) as [Ex | Ex];
        [| exfalso; exact (pow_nonzero _ 2 Ex Hx0)].
      destruct (Req_dec (Position.y b - Position.y a) 0) as [Ey | Ey];
        [| exfalso; exact (pow_nonzero _ 2 Ey Hy0)].
      destruct a as [ax ay], b as [bx b_y]; simpl in *.
      f_equal; lra.
    + intros ->.
      replace ((Position.x b - Position.x b) ^ 2
               + (Position.y b - Position.y b) ^ 2) with 0 by ring.
      apply sqrt_0.
  - intros w range agent Hin. unfold getAgentsInRange in Hin.
    apply filter_In in Hin. destruct Hin as [_ Hd].
    unfold Rleb, World.distance in Hd.
    destruct (Rle_dec _ range) as [Hle |]; [| discriminate].
    exact Hle.
Qed.

End GeometryFacts.

(* ================================================================== *)
(** * Properties of the ledger client *)
(* ================================================================== *)

Module SuiFacts.

Import JS World Sui.
Local Open Scope string_scope.

(** ** The recapture heuristic *)

(** A conjunct that does not depend on the element can leave [existsb]. *)
Lemma existsb_and_const {A : Type} (f : A -> bool) (b : bool) (l : list A) :
  existsb (fun a => f a && b) l = existsb f l && b.
Proof.
  induction l as [| a l IH]; simpl.
  - reflexivity.
  - rewrite IH. destruct (f a), b, (existsb f l); reflexivity.
Qed.

(** C3.  [shouldRecaptureGenerator] is false when the acting address owns
    the generator, false when the generator is unclaimed, and otherwise
    true exactly when the lower-cased memory contains at least one
    hostility keyword and also contains the first 8 characters of the
    lower-cased owner address. *)
Theorem shouldRecaptureGenerator_spec (g : GeneratorInfo.t)
    (agentAddress agentMemory : string) :
  (GeneratorInfo.owner g = agentAddress ->
   shouldRecaptureGenerator g agentAddress agentMemory = false)
  /\ (GeneratorInfo.owner g = "0x0" ->
      shouldRecaptureGenerator g agentAddress agentMemory = false)
  /\ (GeneratorInfo.owner g <> agentAddress ->
      GeneratorInfo.owner g <> "0x0" ->
      (shouldRecaptureGenerator g agentAddress agentMemory = true <->
       (exists keyword, In keyword hostileKeywords /\
          includes (toLowerCase agentMemory) keyword = true) /\
       includes (toLowerCase agentMemory)
         (slice0 8 (toLowerCase (GeneratorInfo.owner g))) = true)).
Proof.
  unfold shouldRecaptureGenerator. split; [| split].
  - intros ->. rewrite String.eqb_refl. reflexivity.
  - intros ->. destruct (String.eqb "0x0" agentAddress); reflexivity.
  - intros Hother Hclaimed.
    destruct (String.eqb_spec (GeneratorInfo.owner g) agentAddress) as [E | _];
      [contradiction |].
    destruct (String.eqb_spec (GeneratorInfo.owner g) "0x0") as [E | _];
      [contradiction |].
    rewrite existsb_and_const, andb_true_iff, existsb_exists.
    reflexivity.
Qed.

(** The recapture examples of the specification. *)
Example recapture_own_generator :
  shouldRecaptureGenerator rival_generator "0xABCDEF1234" memory_of_attack
  = false.
Proof. reflexivity. Qed.

Example recapture_unclaimed_generator :
  shouldRecaptureGenerator wood_generator "0x999" memory_of_attack = false.
Proof. reflexivity. Qed.

Example recapture_keyword_only :
  shouldRecaptureGenerator rival_generator "0x999"
    "Somebody attacked my wood generator" = false.
Proof. reflexivity. Qed.

Example recapture_owner_only :
  shouldRecaptureGenerator rival_generator "0x999"
    "I traded stone with 0xabcdef12 yesterday" = false.
Proof. reflexivity. Qed.

Example includes_examples :
  includes "an enemy camp" "enemy" = true /\ includes "abc" "" = true /\
  includes "abc" "abd" = false /\ toLowerCase "0xABcd Attacked" = "0xabcd attacked".
Proof. repeat split; reflexivity. Qed.

Lemma shouldRecaptureGenerator_spec_witness :
  shouldRecaptureGenerator rival_generator "0x999" memory_of_attack = true.
Proof.
  apply (proj2 (proj2 (shouldRecaptureGenerator_spec rival_generator "0x999"
                         memory_of_attack))).
  - simpl. discriminate.
  - simpl. discriminate.
  - split.
    + exists "attacked". split; [simpl; tauto | reflexivity].
    + reflexivity.
Defined.

(** ** Collected items and the projections of claimed generators *)

Lemma getAllItems_uncollected (w : GameWorld.t) (item : WorldItem.t) :
  In item (getAllItems w) -> truthy (WorldItem.collectedBy item) = false.
Proof.
  unfold getAllItems. intros H. apply filter_In in H.
  destruct H as [_ H]. apply negb_true_iff in H. exact H.
Qed.

Lemma getItemsInRange_subset (w : GameWorld.t) (position : Position.t)
    (range : R) (item : WorldItem.t) :
  In item (getItemsInRange w position range) -> In item (getAllItems w).
Proof.
  unfold getItemsInRange. intros H. apply filter_In in H. exact (proj1 H).
Qed.

Lemma collected_not_listed (w : GameWorld.t) (item : WorldItem.t) :
  truthy (WorldItem.collectedBy item) = true -> ~ In item (getAllItems w).
Proof.
  intros Ht Hin. apply getAllItems_uncollected in Hin.
  rewrite Ht in Hin. discriminate Hin.
Qed.

Lemma written_for_collectedBy (gen : GeneratorInfo.t) (item : WorldItem.t) :
  GeneratorInfo.owner gen <> "0x0" ->
  written_for gen item ->
  WorldItem.collectedBy item = Some (GeneratorInfo.owner gen).
Proof.
  intros Hclaimed [[id ->] | [existing ->]]; simpl;
    destruct (String.eqb_spec (GeneratorInfo.owner gen) "0x0");
    try contradiction; reflexivity.
Qed.

(** ** Two passes of [syncGeneratorsToWorld] *)

(** [addItem] files the item under the drawn uuid, which is also its [id]. *)
Lemma addItem_items (item : NewItem.t) (s : State) :
  let id := uuid_source (runtime s) (uuids_drawn (runtime s)) in
  GameWorld.items (world (snd (addItem item s)))
  = map_set id (with_id id item) (GameWorld.items (world s)).
Proof.
  unfold addItem, bind, uuidv4, get_world, put_world, persist, await, ret;
    simpl.
  destruct (GameWorld.esService (world s)) as [es |]; simpl;
    [destruct (GameWorld.persistenceEnabled (world s)); simpl;
     [destruct (ElasticsearchService.saveItem es _); simpl |] |];
    reflexivity.
Qed.

(** When the lookup finds nothing, the pass inserts a new item whose [id] is
    a uuid, not the identifier the lookup searches for. *)
Lemma sync_generator_inserts (gen : GeneratorInfo.t) (s : State) :
  find (is_projection (projection_id gen)) (getAllItems (world s)) = None ->
  let id := uuid_source (runtime s) (uuids_drawn (runtime s)) in
  GameWorld.items (world (snd (sync_generator gen s)))
  = map_set id (with_id id (generator_item gen)) (GameWorld.items (world s)).
Proof.
  intros Hfind. unfold sync_generator, bind at 1, get_world.
  rewrite Hfind. simpl.
  pose proof (addItem_items (generator_item gen) s) as H. simpl in H.
  unfold bind. destruct (addItem (generator_item gen) s) as [[a | e] s'];
    simpl in *; exact H.
Qed.

(** What one step of the pass leaves in the store: the items that were
    there, and the item written for the generator. *)
Lemma map_set_values {V : Type} (k : string) (v : V) (m : list (string * V))
    (x : V) :
  In x (map snd (map_set k v m)) -> In x (map snd m) \/ x = v.
Proof.
  induction m as [| [k' v'] m IH]; simpl.
  - intros [<- | []]. right; reflexivity.
  - destruct (String.eqb k k'); simpl.
    + intros [<- | Hin]; [right; reflexivity | left; right; exact Hin].
    + intros [<- | Hin]; [left; left; reflexivity |].
      destruct (IH Hin) as [H | H]; [left; right; exact H | right; exact H].
Qed.

Lemma assign_in_place_values (id : string) (item : NewItem.t)
    (items : list (string * WorldItem.t)) (x : WorldItem.t) :
  In x (map snd (assign_in_place id item items)) ->
  In x (map snd items) \/ exists existing, x = assign existing item.
Proof.
  induction items as [| [k existing] items IH]; simpl; [tauto |].
  destruct (negb (truthy (WorldItem.collectedBy existing))
            && is_projection id existing); simpl.
  - intros [<- | Hin]; [right; eexists; reflexivity | left; right; exact Hin].
  - intros [<- | Hin]; [left; left; reflexivity |].
    destruct (IH Hin) as [H | H]; [left; right; exact H | right; exact H].
Qed.

Lemma sync_generator_writes (gen : GeneratorInfo.t) (s : State)
    (item : WorldItem.t) :
  In item (map snd (GameWorld.items (world (snd (sync_generator gen s))))) ->
  In item (map snd (GameWorld.items (world s))) \/ written_for gen item.
Proof.
  destruct (find (is_projection (projection_id gen)) (getAllItems (world s)))
    as [found |] eqn:Hfind.
  - unfold sync_generator, bind, get_world. rewrite Hfind.
    unfold put_world; simpl. intros Hin.
    apply assign_in_place_values in Hin.
    destruct Hin as [Hin | Hex]; [left; exact Hin | right; right; exact Hex].
  - rewrite (sync_generator_inserts gen s Hfind). intros Hin.
    apply map_set_values in Hin.
    destruct Hin as [Hin | ->]; [left; exact Hin |].
    right; left; eexists; reflexivity.
Qed.

(** C10.  An item whose [collectedBy] holds an identifier is returned
    neither by [getAllItems] nor by [getItemsInRange].  The item a pass of
    [syncGeneratorsToWorld] writes for a claimed generator (inserted or
    assigned) has [collectedBy] equal to the owner address, so no item
    query returns it, the pass's own lookup included; in particular
    whatever a step of the pass adds to the store for a claimed generator
    is missing from [getAllItems] right after the step. *)
Theorem collected_items_invisible :
  (forall (w : GameWorld.t) (item : WorldItem.t),
     truthy (WorldItem.collectedBy item) = true ->
     ~ In item (getAllItems w) /\
     (forall position range, ~ In item (getItemsInRange w position range)))
  /\
  (forall (gen : GeneratorInfo.t) (item : WorldItem.t),
     GeneratorInfo.owner gen <> "0x0" ->
     GeneratorInfo.owner gen <> "" ->
     written_for gen item ->
     WorldItem.collectedBy item = Some (GeneratorInfo.owner gen) /\
     forall w : GameWorld.t,
       ~ In item (getAllItems w) /\
       (forall position range, ~ In item (getItemsInRange w position range)) /\
       find (is_projection (projection_id gen)) (getAllItems w) <> Some item)
  /\
  (forall (gen : GeneratorInfo.t) (s : State) (item : WorldItem.t),
     GeneratorInfo.owner gen <> "0x0" ->
     GeneratorInfo.owner gen <> "" ->
     In item (map snd (GameWorld.items (world (snd (sync_generator gen s))))) ->
     ~ In item (map snd (GameWorld.items (world s))) ->
     ~ In item (getAllItems (world (snd (sync_generator gen s))))).
Proof.
  assert (Hwritten : forall gen item,
             GeneratorInfo.owner gen <> "0x0" ->
             GeneratorInfo.owner gen <> "" ->
             written_for gen item ->
             truthy (WorldItem.collectedBy item) = true).
  { intros gen item Hclaimed Hnonempty Hw.
    rewrite (written_for_collectedBy gen item Hclaimed Hw).
    unfold truthy, truthy_string.
    destruct (String.eqb_spec (GeneratorInfo.owner gen) "");
      [contradiction | reflexivity]. }
  split; [| split].
  - intros w item Ht. split.
    + apply collected_not_listed; exact Ht.
    + intros position range Hin. apply getItemsInRange_subset in Hin.
      exact (collected_not_listed w item Ht Hin).
  - intros gen item Hclaimed Hnonempty Hw.
    pose proof (written_for_collectedBy gen item Hclaimed Hw) as Hc.
    pose proof (Hwritten gen item Hclaimed Hnonempty Hw) as Ht.
    split; [exact Hc |]. intros w. split; [| split].
    + apply collected_not_listed; exact Ht.
    + intros position range Hin. apply getItemsInRange_subset in Hin.
      exact (collected_not_listed w item Ht Hin).
    + intros Hfind. apply find_some in Hfind.
      exact (collected_not_listed w item Ht (proj1 Hfind)).
  - intros gen s item Hclaimed Hnonempty Hin Hnew.
    destruct (sync_generator_writes gen s item Hin) as [Hold | Hw];
      [contradiction |].
    apply collected_not_listed. exact (Hwritten gen item Hclaimed Hnonempty Hw).
Qed.

Lemma collected_items_invisible_witness :
  ~ In (with_id "uuid-0" (generator_item rival_generator))
       (getAllItems
          (set_items empty_world
             [("uuid-0", with_id "uuid-0" (generator_item rival_generator))])).
Proof.
  refine (proj1 (proj2 (proj1 (proj2 collected_items_invisible) rival_generator
                          (with_id "uuid-0" (generator_item rival_generator))
                          _ _ _) _)).
  - simpl. discriminate.
  - simpl. discriminate.
  - left. exists "uuid-0". reflexivity.
Defined.

(** C1, the failing input.  On an empty world, with one unclaimed generator
    listed for the current match, the first pass inserts one projection
    under the identifier ["uuid-0"]; the second pass, the ledger unchanged,
    does not find it under ["gen_0x9e4"] and inserts a second projection of
    the same generator under ["uuid-1"]. *)
Theorem sync_twice_duplicates :
  let s1 := snd (syncGeneratorsToWorld service0 state0) in
  let s2 := snd (syncGeneratorsToWorld service0 s1) in
  getAllGenerators service0 "0x77" = [wood_generator]
  /\ map snd (GameWorld.items (world s1))
     = [with_id "uuid-0" (generator_item wood_generator)]
  /\ map snd (GameWorld.items (world s2))
     = [with_id "uuid-0" (generator_item wood_generator);
        with_id "uuid-1" (generator_item wood_generator)]
  /\ map fst (GameWorld.items (world s2)) = ["uuid-0"; "uuid-1"]
  /\ getItem (world s2) (projection_id wood_generator) = None
  /\ List.length (getAllItems (world s1)) = 1%nat
  /\ List.length (getAllItems (world s2)) = 2%nat.
Proof.
  cbv zeta.
  repeat split; reflexivity.
Qed.

(** ** Enumeration of a match's generators *)

Lemma fold_push_generator (gameId : string) (objs : list LedgerObject) :
  forall acc,
    fold_left (push_generator gameId) (map response_of objs) acc
    = (acc ++ flat_map (keep_generator gameId) objs)%list.
Proof.
  induction objs as [| o objs IH]; intros acc; simpl.
  - rewrite app_nil_r. reflexivity.
  - rewrite IH. unfold keep_generator at 2, generator_info.
    destruct (object_fields o); simpl;
      try reflexivity.
    destruct (String.eqb game_id gameId); simpl.
    + rewrite <- app_assoc. reflexivity.
    + reflexivity.
Qed.

Lemma flat_map_filter {A B : Type} (P : A -> bool) (f : A -> list B)
    (l : list A) :
  flat_map f (filter P l) = flat_map (fun a => if P a then f a else []) l.
Proof.
  induction l as [| a l IH]; simpl; [reflexivity |].
  destruct (P a); simpl; rewrite IH; reflexivity.
Qed.

Lemma generators_of_participants_node (ledger : list LedgerObject)
    (pkg : string) (current : option string) (gameId : string)
    (participants : list string) :
  forall acc,
    generators_of_participants (mkService (node ledger) pkg current) gameId
      participants acc
    = (acc ++ flat_map
                (fun participant =>
                   flat_map (enumerate_participant pkg gameId participant)
                     ledger)
                participants)%list.
Proof.
  induction participants as [| p ps IH]; intros acc; simpl.
  - rewrite app_nil_r. reflexivity.
  - rewrite fold_push_generator, IH, flat_map_filter, <- app_assoc.
    f_equal. f_equal. apply flat_map_ext. intros o.
    unfold enumerate_participant, keep_generator, struct_type; simpl.
    destruct (held_by p o); simpl; [| destruct (generator_info o); reflexivity].
    destruct (String.eqb (object_type o) (pkg ++ "::resource_game::Generator"));
      simpl; [reflexivity | destruct (generator_info o); reflexivity].
Qed.

Lemma getAllGenerators_node (ledger : list LedgerObject) (pkg : string)
    (current : option string) (gameId : string) :
  getAllGenerators (mkService (node ledger) pkg current) gameId
  = enumerated_generators pkg ledger gameId.
Proof.
  unfold getAllGenerators, enumerated_generators, declared_participants.
  simpl.
  destruct (find (fun o => String.eqb (object_id o) gameId) ledger) as [o |];
    simpl; [| reflexivity].
  destruct (object_fields o); try reflexivity.
  rewrite generators_of_participants_node. reflexivity.
Qed.

Lemma in_enumerated (pkg : string) (ledger : list LedgerObject)
    (gameId : string) (g : GeneratorInfo.t) :
  In g (enumerated_generators pkg ledger gameId) <->
  exists o participant,
    In o ledger /\ In participant (declared_participants ledger gameId) /\
    object_owner o = AddressOwner participant /\
    object_type o = pkg ++ "::resource_game::Generator" /\
    generator_info o = Some g /\ GeneratorInfo.gameId g = gameId.
Proof.
  unfold enumerated_generators. rewrite in_flat_map. split.
  - intros [p [Hp Hin]]. apply in_flat_map in Hin.
    destruct Hin as [o [Ho Hg]]. exists o, p.
    unfold enumerate_participant in Hg.
    destruct (generator_info o) as [g' |] eqn:Eg; [| destruct Hg].
    unfold held_by in Hg.
    destruct (object_owner o) as [a | | |] eqn:Eo; simpl in Hg;
      try destruct Hg.
    destruct (String.eqb_spec a p) as [-> |]; simpl in Hg; [| destruct Hg].
    destruct (String.eqb_spec (object_type o)
                (pkg ++ "::resource_game::Generator")) as [Et |];
      simpl in Hg; [| destruct Hg].
    destruct (String.eqb_spec (GeneratorInfo.gameId g') gameId) as [Egid |];
      simpl in Hg; [| destruct Hg].
    destruct Hg as [<- | []]. repeat split; assumption.
  - intros (o & p & Ho & Hp & Eo & Et & Eg & Egid).
    exists p. split; [exact Hp |]. apply in_flat_map. exists o.
    split; [exact Ho |].
    unfold enumerate_participant. rewrite Eg. unfold held_by. rewrite Eo, Et, Egid.
    rewrite !String.eqb_refl. simpl. left; reflexivity.
Qed.

Lemma generator_info_id (o : LedgerObject) (g : GeneratorInfo.t) :
  generator_info o = Some g -> GeneratorInfo.objectId g = object_id o.
Proof.
  unfold generator_info. destruct (object_fields o); intros H;
    inversion H; reflexivity.
Qed.

Lemma unique_object (ledger : list LedgerObject) (a b : LedgerObject) :
  NoDup (map object_id ledger) -> In a ledger -> In b ledger ->
  object_id a = object_id b -> a = b.
Proof.
  induction ledger as [| o l IH]; intros Hnd Ha Hb E; [destruct Ha |].
  simpl in Hnd. inversion Hnd as [| ? ? Hnotin Hnd']; subst.
  destruct Ha as [-> | Ha], Hb as [-> | Hb].
  - reflexivity.
  - exfalso. apply Hnotin. rewrite E. apply in_map. exact Hb.
  - exfalso. apply Hnotin. rewrite <- E. apply in_map. exact Ha.
  - apply IH; assumption.
Qed.

(** Whatever the client answers, and wherever a query is rejected, a
    returned generator was pushed from the answer to the owned-objects
    query of one of the participants the match object declares. *)
Lemma fold_push_generator_sound (gameId : string)
    (data : list SuiObjectResponse) (g : GeneratorInfo.t) :
  forall acc,
    In g (fold_left (push_generator gameId) data acc) ->
    In g acc \/
    exists obj, In obj data /\ push_generator gameId [] obj = [g].
Proof.
  induction data as [| obj data IH]; intros acc Hin; simpl in Hin.
  - left; exact Hin.
  - apply IH in Hin. destruct Hin as [Hin | [obj' [Hobj' Hg]]].
    + destruct obj as [[objectId [[] |]] |]; simpl in Hin;
        try (left; exact Hin).
      destruct (String.eqb game_id gameId) eqn:E; [| left; exact Hin].
      apply in_app_or in Hin. destruct Hin as [Hin | [<- | []]];
        [left; exact Hin |].
      right. eexists. split; [left; reflexivity |].
      simpl. rewrite E. reflexivity.
    + right. exists obj'. split; [right; exact Hobj' | exact Hg].
Qed.

Lemma generators_of_participants_sound (svc : SuiGameService)
    (gameId : string) (participants : list string) (g : GeneratorInfo.t) :
  forall acc,
    In g (generators_of_participants svc gameId participants acc) ->
    In g acc \/
    exists participant data obj,
      In participant participants /\
      getOwnedObjects (suiClient svc) participant
        (struct_type svc "Generator") = Return data /\
      In obj data /\ push_generator gameId [] obj = [g].
Proof.
  induction participants as [| p ps IH]; intros acc Hin; simpl in Hin.
  - left; exact Hin.
  - destruct (getOwnedObjects (suiClient svc) p (struct_type svc "Generator"))
      as [data | e] eqn:E; [| left; exact Hin].
    apply IH in Hin.
    destruct Hin as [Hin | (p' & data' & obj & Hp' & Hq & Hobj & Hg)].
    + apply fold_push_generator_sound in Hin.
      destruct Hin as [Hin | [obj [Hobj Hg]]]; [left; exact Hin |].
      right. exists p, data, obj. repeat split; try assumption.
      left; reflexivity.
    + right. exists p', data', obj. repeat split; try assumption.
      right; exact Hp'.
Qed.

Lemma getAllGenerators_sound (svc : SuiGameService) (gameId : string)
    (g : GeneratorInfo.t) :
  In g (getAllGenerators svc gameId) ->
  exists id creator participants participant data obj,
    getObject (suiClient svc) gameId
      = Return (Some (mkData id (Some (GameMatchFields creator participants))))
    /\ In participant participants
    /\ getOwnedObjects (suiClient svc) participant
         (struct_type svc "Generator") = Return data
    /\ In obj data /\ push_generator gameId [] obj = [g].
Proof.
  unfold getAllGenerators. intros Hin.
  destruct (getObject (suiClient svc) gameId) as [[[id [[] |]] |] | e];
    try destruct Hin.
  apply generators_of_participants_sound in Hin.
  destruct Hin as [[] | (p & data & obj & Hp & Hq & Hobj & Hg)].
  exists id, creator, participants, p, data, obj.
  repeat split; assumption.
Qed.

(** C5.  Against a node serving a ledger state, [getAllGenerators] returns
    exactly the generators found by going through the match's declared
    participants and, for each, that address's owned objects of the
    [Generator] struct type whose [game_id] is the match.  A generator
    object held by no declared participant (a shared one in particular) is
    not returned. *)
Theorem getAllGenerators_enumerates (ledger : list LedgerObject)
    (pkg : string) (current : option string) (gameId : string) :
  let svc := mkService (node ledger) pkg current in
  getAllGenerators svc gameId = enumerated_generators pkg ledger gameId
  /\ (forall g,
        In g (getAllGenerators svc gameId) <->
        exists o participant,
          In o ledger /\ In participant (declared_participants ledger gameId) /\
          object_owner o = AddressOwner participant /\
          object_type o = pkg ++ "::resource_game::Generator" /\
          generator_info o = Some g /\ GeneratorInfo.gameId g = gameId)
  /\ (NoDup (map object_id ledger) ->
      forall o g,
        In o ledger -> generator_info o = Some g ->
        (forall participant,
           In participant (declared_participants ledger gameId) ->
           object_owner o <> AddressOwner participant) ->
        ~ In g (getAllGenerators svc gameId)).
Proof.
  cbv zeta. split; [apply getAllGenerators_node |]. split.
  - intros g. rewrite getAllGenerators_node. apply in_enumerated.
  - intros Hnd o g Ho Hg Hheld Hin.
    rewrite getAllGenerators_node in Hin. apply in_enumerated in Hin.
    destruct Hin as (o' & p & Ho' & Hp & Eo & _ & Hg' & _).
    assert (o' = o) as ->.
    { apply (unique_object ledger); try assumption.
      rewrite <- (generator_info_id o' g Hg'), <- (generator_info_id o g Hg).
      reflexivity. }
    exact (Hheld p Hp Eo).
Qed.

Lemma getAllGenerators_enumerates_witness :
  ~ In (GeneratorInfo.mk "0x5a" "0x77" 1 30 40 "0x0" 0 10 1000 0 5000
          "0x0" "0x0")
       (getAllGenerators (mkService (node ledger1) "0xpkg" (Some "0x77"))
          "0x77").
Proof.
  refine (proj2 (proj2 (getAllGenerators_enumerates ledger1 "0xpkg"
                          (Some "0x77") "0x77"))
            _ shared_generator _ _ _ _).
  - repeat constructor; simpl; intuition discriminate.
  - simpl. tauto.
  - reflexivity.
  - intros participant _. simpl. discriminate.
Defined.

End SuiFacts.

(* ================================================================== *)
(** * Properties of the world store *)
(* ================================================================== *)

Module WorldFacts.

Import JS World.
Local Open Scope string_scope.

Lemma map_get_set_same {V : Type} (k : string) (v : V) (m : list (string * V)) :
  map_get k (map_set k v m) = Some v.
Proof.
  induction m as [| [k' v'] m IH]; simpl.
  - rewrite String.eqb_refl. reflexivity.
  - destruct (String.eqb k k') eqn:E; simpl; rewrite E; [reflexivity | exact IH].
Qed.

(** ** Agent positions *)

Lemma clamp_in_bounds (w : GameWorld.t) (p : Position.t) :
  (0 <= GameWorld.worldWidth w)%Z -> (0 <= GameWorld.worldHeight w)%Z ->
  in_bounds w (clamp p w).
Proof.
  intros Hw Hh. apply IZR_le in Hw, Hh.
  unfold in_bounds, clamp; simpl. repeat split.
  - apply Rmax_l.
  - apply Rmax_lub; [exact Hw | apply Rmin_r].
  - apply Rmax_l.
  - apply Rmax_lub; [exact Hh | apply Rmin_r].
Qed.

(** [updateAgentPosition] stores the clamped position, whatever the
    persistence call does afterwards. *)
Lemma updateAgentPosition_stores_clamped (s : State) (agentId : string)
    (position : Position.t) (agent : GameAgent.t) :
  getAgent (world s) agentId = Some agent ->
  exists agent',
    getAgent (world (snd (updateAgentPosition agentId position s))) agentId
      = Some agent'
    /\ GameAgent.position agent' = clamp position (world s).
Proof.
  unfold getAgent, updateAgentPosition, bind, get_world. intros Hget.
  rewrite Hget. unfold put_world, persist, await, ret; simpl.
  eexists. split.
  - destruct (GameWorld.esService (world s)) as [es |]; simpl.
    + destruct (GameWorld.persistenceEnabled (world s)); simpl.
      * destruct (ElasticsearchService.updateAgentPosition es agentId _);
          simpl; apply map_get_set_same.
      * apply map_get_set_same.
    + apply map_get_set_same.
  - reflexivity.
Qed.

Lemma floor_of_random_in_bounds (r : R) (W : Z) :
  (0 <= r < 1)%R -> (0 <= W)%Z ->
  (0 <= IZR (Math_floor (r * IZR W)) <= IZR W)%R.
Proof.
  intros [Hr0 Hr1] HW. apply IZR_le in HW. unfold Math_floor.
  destruct (base_Int_part (r * IZR W)) as [Hle Hgt].
  split.
  - apply IZR_le.
    assert (Hlt : (IZR (-1) < IZR (Int_part (r * IZR W)))%R) by nra.
    apply lt_IZR in Hlt. lia.
  - nra.
Qed.

(** A position drawn by [getRandomPosition] is inside the world. *)
Lemma getRandomPosition_in_bounds (s : State) :
  (forall n, 0 <= random_source (runtime s) n < 1)%R ->
  (0 <= GameWorld.worldWidth (world s))%Z ->
  (0 <= GameWorld.worldHeight (world s))%Z ->
  exists p s',
    getRandomPosition s = (Return p, s') /\ world s' = world s /\
    in_bounds (world s) p.
Proof.
  intros Hrand Hw Hh.
  unfold getRandomPosition, bind, get_world, Math_random, ret; simpl.
  eexists; eexists. split; [reflexivity |]. split; [reflexivity |].
  unfold in_bounds; simpl. split; apply floor_of_random_in_bounds; auto.
Qed.

(** [addAgent] stores a caller-supplied position as it is given. *)
Lemma addAgent_stores_supplied_position (s : State)
    (lettaAgentId name description suiAddress suiPublicKey suiPrivateKey : string)
    (position : Position.t) :
  let agentId := uuid_source (runtime s) (uuids_drawn (runtime s)) in
  exists agent,
    getAgent
      (world (snd (addAgent lettaAgentId name description suiAddress
                     suiPublicKey suiPrivateKey (Some position) s)))
      agentId = Some agent
    /\ GameAgent.position agent = position.
Proof.
  unfold getAgent, addAgent, bind, uuidv4, ret, new_Date, get_world,
    put_world, persist, await; simpl.
  eexists. split.
  - destruct (GameWorld.esService (world s)) as [es |]; simpl.
    + destruct (GameWorld.persistenceEnabled (world s)); simpl.
      * destruct (ElasticsearchService.saveAgent es _); simpl;
          apply map_get_set_same.
      * apply map_get_set_same.
    + apply map_get_set_same.
  - reflexivity.
Qed.

(** C9, the failing path.  In the default 100 by 100 world, [addAgent]
    called with the position [(150, -5)] returns and stores an agent at
    [(150, -5)], outside [[0, 100] x [0, 100]]; [updateAgentPosition] would
    have stored [(100, 0)]. *)
Theorem addAgent_supplied_position_not_clamped :
  exists agent s',
    addAgent "letta-1" "Bob" "A trader" "0xb0b" "pk" "sk"
      (Some (Position.mk 150 (-5))) state0 = (Return agent, s')
    /\ getAgent (world s') (GameAgent.id agent) = Some agent
    /\ GameAgent.position agent = Position.mk 150 (-5)
    /\ ~ in_bounds (world s') (GameAgent.position agent)
    /\ in_bounds (world s') (clamp (Position.mk 150 (-5)) (world s')).
Proof.
  unfold addAgent, bind, uuidv4, ret, new_Date, get_world, put_world,
    persist, await; simpl.
  eexists; eexists. split; [reflexivity |]. simpl.
  split; [reflexivity |]. split; [reflexivity |]. split.
  - unfold in_bounds; simpl. lra.
  - apply clamp_in_bounds; simpl; lia.
Qed.

(** ** Insert, look up, remove *)

Lemma map_get_set_other {V : Type} (k k' : string) (v : V)
    (m : list (string * V)) :
  k' <> k -> map_get k' (map_set k v m) = map_get k' m.
Proof.
  intros Hne. induction m as [| [k0 v0] m IH]; simpl.
  - destruct (String.eqb_spec k' k); [contradiction | reflexivity].
  - destruct (String.eqb_spec k k0) as [-> | Hk]; simpl.
    + destruct (String.eqb_spec k' k0); [contradiction | reflexivity].
    + destruct (String.eqb k' k0); [reflexivity | exact IH].
Qed.

Lemma map_get_delete_same {V : Type} (k : string) (m : list (string * V)) :
  map_get k (map_delete k m) = None.
Proof.
  induction m as [| [k0 v0] m IH]; simpl; [reflexivity |].
  destruct (String.eqb k k0) eqn:E; simpl; [exact IH |].
  rewrite E. exact IH.
Qed.

Lemma map_get_delete_other {V : Type} (k k' : string)
    (m : list (string * V)) :
  k' <> k -> map_get k' (map_delete k m) = map_get k' m.
Proof.
  intros Hne. induction m as [| [k0 v0] m IH]; simpl; [reflexivity |].
  destruct (String.eqb_spec k k0) as [-> | Hk]; simpl.
  - destruct (String.eqb_spec k' k0); [contradiction | exact IH].
  - destruct (String.eqb k' k0); [reflexivity | exact IH].
Qed.

Lemma map_delete_absent {V : Type} (k : string) (m : list (string * V)) :
  map_has k m = false -> map_delete k m = m.
Proof.
  unfold map_has, map_delete. induction m as [| [k0 v0] m IH]; simpl;
    [reflexivity |].
  destruct (String.eqb k k0); simpl; [discriminate |].
  intros H. rewrite (IH H). reflexivity.
Qed.

Lemma map_has_get {V : Type} (k : string) (m : list (string * V)) :
  map_has k m = false <-> map_get k m = None.
Proof.
  unfold map_has. induction m as [| [k0 v0] m IH]; simpl; [tauto |].
  destruct (String.eqb k k0); simpl; [split; discriminate | exact IH].
Qed.

(** X10.  [addItem] files the new item under the uuid it draws, which is
    also the item's [id].  Right after the call, [getItem] with that
    identifier returns the new item, also when the persistence call
    rejects, and every other identifier answers as before; when nothing
    is persisted the call returns the new item. *)
Theorem addItem_then_getItem (item : NewItem.t) (s : State) :
  let id := uuid_source (runtime s) (uuids_drawn (runtime s)) in
  let s' := snd (addItem item s) in
  getItem (world s') id = Some (with_id id item) /\
  WorldItem.id (with_id id item) = id /\
  (forall other, other <> id ->
     getItem (world s') other = getItem (world s) other) /\
  (GameWorld.persistenceEnabled (world s) = false ->
   fst (addItem item s) = Return (with_id id item)).
Proof.
  cbv zeta. unfold getItem.
  pose proof (SuiFacts.addItem_items item s) as Hitems. cbv zeta in Hitems.
  rewrite Hitems. split; [apply map_get_set_same |].
  split; [reflexivity |]. split.
  - intros other Hne. apply map_get_set_other. exact Hne.
  - intros Hoff.
    unfold addItem, bind, uuidv4, get_world, put_world, persist, await, ret;
      simpl.
    rewrite Hoff. destruct (GameWorld.esService (world s)); reflexivity.
Qed.

Lemma addItem_then_getItem_witness :
  fst (addItem (NewItem.mk "Rock" (Position.mk 1 2) None None None None None
                  None None) state1)
  = Return (with_id "uuid-0"
              (NewItem.mk "Rock" (Position.mk 1 2) None None None None None
                 None None)).
Proof.
  exact (proj2 (proj2 (proj2 (addItem_then_getItem
           (NewItem.mk "Rock" (Position.mk 1 2) None None None None None
              None None) state1))) eq_refl).
Defined.

Lemma removeItem_state (deleteItem : string -> Exc unit) (itemId : string)
    (s : State) :
  snd (removeItem deleteItem itemId s)
  = mkState (runtime s)
      (set_items (world s) (map_delete itemId (GameWorld.items (world s)))).
Proof.
  unfold removeItem, bind, get_world, put_world, persist, await, ret; simpl.
  destruct (map_has itemId (GameWorld.items (world s))); simpl;
    [| reflexivity].
  destruct (GameWorld.esService (world s)); simpl; [| reflexivity].
  destruct (GameWorld.persistenceEnabled (world s)); simpl; [| reflexivity].
  destruct (deleteItem itemId); reflexivity.
Qed.

(** X11.  [removeItem] answers whether the identifier was stored.  After
    the call [getItem] finds nothing under it and every other identifier
    answers as before; for an identifier that is not stored the world is
    left exactly as it was and the persistence layer is not called. *)
Theorem removeItem_outcome (deleteItem : string -> Exc unit)
    (itemId : string) (s : State) :
  let s' := snd (removeItem deleteItem itemId s) in
  getItem (world s') itemId = None /\
  (forall other, other <> itemId ->
     getItem (world s') other = getItem (world s) other) /\
  GameWorld.agents (world s') = GameWorld.agents (world s) /\
  (getItem (world s) itemId = None ->
   removeItem deleteItem itemId s = (Return false, s)) /\
  (getItem (world s) itemId <> None ->
   GameWorld.persistenceEnabled (world s) = false ->
   fst (removeItem deleteItem itemId s) = Return true).
Proof.
  cbv zeta. rewrite removeItem_state. unfold getItem; simpl.
  split; [apply map_get_delete_same |]. split.
  - intros other Hne. apply map_get_delete_other. exact Hne.
  - split; [reflexivity |]. split.
    + intros Hnone. apply map_has_get in Hnone.
      unfold removeItem, bind, get_world, put_world, ret; simpl.
      rewrite Hnone, (map_delete_absent _ _ Hnone).
      destruct s as [r w]. destruct w; reflexivity.
    + intros Hsome Hoff.
      unfold removeItem, bind, get_world, put_world, persist, await, ret;
        simpl.
      destruct (map_has itemId (GameWorld.items (world s))) eqn:E.
      * rewrite Hoff. destruct (GameWorld.esService (world s)); reflexivity.
      * apply map_has_get in E. contradiction.
Qed.

Lemma removeItem_outcome_witness :
  removeItem (fun _ => Throw "unreachable") "no-such-item" state1
  = (Return false, state1).
Proof.
  exact (proj1 (proj2 (proj2 (proj2
           (removeItem_outcome (fun _ => Throw "unreachable") "no-such-item"
              state1)))) eq_refl).
Defined.

(** ** Collecting an item *)

Lemma collectItem_state (itemId playerId : string) (s : State)
    (item : WorldItem.t) :
  getItem (world s) itemId = Some item ->
  truthy (WorldItem.collectedBy item) = false ->
  snd (collectItem itemId playerId s)
  = mkState (runtime s)
      (set_items (world s)
         (map_set itemId
            (WorldItem.mk (WorldItem.id item) (WorldItem.name item)
               (WorldItem.position item) (WorldItem.imageUrl item)
               (WorldItem.spriteSheet item) (WorldItem.size item)
               (WorldItem.interactive item) (WorldItem.description item)
               (Some playerId) (Some (clock (runtime s))))
            (GameWorld.items (world s)))).
Proof.
  unfold getItem, collectItem, bind, get_world. intros Hget Hfree.
  rewrite Hget, Hfree.
  unfold new_Date, put_world, persist, await, ret; simpl.
  destruct (GameWorld.esService (world s)) as [es |]; simpl; [| reflexivity].
  destruct (GameWorld.persistenceEnabled (world s)); simpl; [| reflexivity].
  destruct (ElasticsearchService.updateItemCollection es _ _ _); simpl;
    [| reflexivity].
  destruct (ElasticsearchService.addItemToPlayerInventory es _ _);
    reflexivity.
Qed.

(** X12.  An item is collected at most once.  When an uncollected item is
    collected by a player with a non-empty identifier, the store records
    that player and the time, also when persistence rejects; the item then
    no longer appears in [getAllItems], while [getItem] still returns it;
    and every later [collectItem] on it answers [null] and changes
    nothing. *)
Theorem collectItem_at_most_once (itemId playerId : string) (s : State)
    (item : WorldItem.t) :
  getItem (world s) itemId = Some item ->
  truthy (WorldItem.collectedBy item) = false ->
  playerId <> "" ->
  let s1 := snd (collectItem itemId playerId s) in
  exists collected,
    getItem (world s1) itemId = Some collected /\
    WorldItem.collectedBy collected = Some playerId /\
    WorldItem.collectedAt collected = Some (clock (runtime s)) /\
    WorldItem.id collected = WorldItem.id item /\
    ~ In collected (getAllItems (world s1)) /\
    forall later, collectItem itemId later s1 = (Return None, s1).
Proof.
  intros Hget Hfree Hplayer. cbv zeta.
  rewrite (collectItem_state itemId playerId s item Hget Hfree).
  eexists. unfold getItem; simpl.
  split; [apply map_get_set_same |]. simpl.
  split; [reflexivity |]. split; [reflexivity |]. split; [reflexivity |].
  assert (Ht : truthy (Some playerId) = true).
  { unfold truthy, truthy_string.
    destruct (String.eqb_spec playerId ""); [contradiction | reflexivity]. }
  split.
  - apply SuiFacts.collected_not_listed. exact Ht.
  - intros later. unfold collectItem, bind, get_world; simpl.
    rewrite map_get_set_same. cbn [WorldItem.collectedBy]. rewrite Ht.
    reflexivity.
Qed.

Lemma collectItem_at_most_once_witness :
  exists collected,
    getItem (world (snd (collectItem "item-1" "player-7" state1))) "item-1"
      = Some collected /\
    WorldItem.collectedBy collected = Some "player-7".
Proof.
  destruct (collectItem_at_most_once "item-1" "player-7" state1 chest)
    as (collected & Hget & Hby & _).
  - reflexivity.
  - reflexivity.
  - discriminate.
  - exists collected. split; assumption.
Defined.

(** ** Moving an agent *)




(** ** Range queries *)

Lemma Rleb_le (a b : R) : Rleb a b = true <-> (a <= b)%R.
Proof.
  unfold Rleb. destruct (Rle_dec a b); split; intros H;
    try assumption; try reflexivity; try discriminate; contradiction.
Qed.

Lemma distance_nonneg (a b : Position.t) : (0 <= distance a b)%R.
Proof. unfold distance. apply sqrt_pos. Qed.

Lemma distance_same (a : Position.t) : distance a a = 0%R.
Proof.
  unfold distance.
  replace ((Position.x a - Position.x a) ^ 2
           + (Position.y a - Position.y a) ^ 2)%R with 0%R by ring.
  apply sqrt_0.
Qed.

(** X14.  The two range queries return nothing for a negative range, return
    more (never less) for a larger range, and for a range of at least zero
    return every agent, and every uncollected item, that stands exactly at
    the queried position. *)
Theorem range_queries (w : GameWorld.t) (position : Position.t) (range : R) :
  ((range < 0)%R ->
   getAgentsInRange w position range = [] /\
   getItemsInRange w position range = [])
  /\
  (forall wider, (range <= wider)%R ->
     incl (getAgentsInRange w position range)
          (getAgentsInRange w position wider) /\
     incl (getItemsInRange w position range)
          (getItemsInRange w position wider))
  /\
  ((0 <= range)%R ->
   (forall agent, In agent (getAllAgents w) ->
      GameAgent.position agent = position ->
      In agent (getAgentsInRange w position range)) /\
   (forall item, In item (getAllItems w) ->
      WorldItem.position item = position ->
      In item (getItemsInRange w position range))).
Proof.
  unfold getAgentsInRange, getItemsInRange. split; [| split].
  - intros Hneg. split.
    + induction (getAllAgents w) as [| a l IH]; simpl; [reflexivity |].
      rewrite GeometryFacts.Rleb_false; [exact IH |].
      pose proof (distance_nonneg (GameAgent.position a) position). lra.
    + induction (getAllItems w) as [| a l IH]; simpl; [reflexivity |].
      rewrite GeometryFacts.Rleb_false; [exact IH |].
      pose proof (distance_nonneg (WorldItem.position a) position). lra.
  - intros wider Hle. split; intros x Hin; apply filter_In in Hin;
      destruct Hin as [Hin Hd]; apply filter_In; (split; [exact Hin |]);
      apply Rleb_le in Hd; apply Rleb_le; lra.
  - intros Hpos. split.
    + intros agent Hin Hp. apply filter_In. split; [exact Hin |].
      rewrite Hp, distance_same. apply Rleb_le. exact Hpos.
    + intros item Hin Hp. apply filter_In. split; [exact Hin |].
      rewrite Hp, distance_same. apply Rleb_le. exact Hpos.
Qed.

Lemma range_queries_witness :
  getAgentsInRange world1 (Position.mk 50 50) (-1) = [] /\
  getItemsInRange world1 (Position.mk 50 50) (-1) = [].
Proof.
  apply (proj1 (range_queries world1 (Position.mk 50 50) (-1))). lra.
Defined.

(** ** Agents by Letta id, adding and removing *)

Lemma removeAgent_state (deleteAgent : string -> Exc unit) (agentId : string)
    (s : State) :
  snd (removeAgent deleteAgent agentId s)
  = mkState (runtime s)
      (set_agents (world s) (map_delete agentId (GameWorld.agents (world s)))).
Proof.
  unfold removeAgent, bind, get_world, put_world, persist, await, ret; simpl.
  destruct (map_has agentId (GameWorld.agents (world s))); simpl;
    [| reflexivity].
  destruct (GameWorld.esService (world s)); simpl; [| reflexivity].
  destruct (GameWorld.persistenceEnabled (world s)); simpl; [| reflexivity].
  destruct (deleteAgent agentId); reflexivity.
Qed.

Lemma addAgent_agents (lettaAgentId name description suiAddress suiPublicKey
    suiPrivateKey : string) (position : Position.t) (s : State) :
  let agentId := uuid_source (runtime s) (uuids_drawn (runtime s)) in
  GameWorld.agents
    (world (snd (addAgent lettaAgentId name description suiAddress
                   suiPublicKey suiPrivateKey (Some position) s)))
  = map_set agentId
      (GameAgent.mk agentId lettaAgentId name position description
         (clock (runtime s)) suiAddress suiPublicKey suiPrivateKey)
      (GameWorld.agents (world s)).
Proof.
  unfold addAgent, bind, uuidv4, ret, new_Date, get_world, put_world,
    persist, await; simpl.
  destruct (GameWorld.esService (world s)) as [es |]; simpl; [| reflexivity].
  destruct (GameWorld.persistenceEnabled (world s)); simpl; [| reflexivity].
  destruct (ElasticsearchService.saveAgent es _); reflexivity.
Qed.

Lemma map_set_fresh {V : Type} (k : string) (v : V) (m : list (string * V)) :
  map_has k m = false -> map_set k v m = (m ++ [(k, v)])%list.
Proof.
  unfold map_has. induction m as [| [k0 v0] m IH]; simpl; [reflexivity |].
  destruct (String.eqb k k0); simpl; [discriminate |].
  intros H. rewrite (IH H). reflexivity.
Qed.

Lemma map_delete_app_fresh {V : Type} (k : string) (v : V)
    (m : list (string * V)) :
  map_has k m = false -> map_delete k (m ++ [(k, v)])%list = m.
Proof.
  intros H. unfold map_delete. rewrite filter_app. simpl.
  rewrite String.eqb_refl. simpl. rewrite app_nil_r.
  exact (map_delete_absent k m H).
Qed.

Lemma find_app_none {A : Type} (f : A -> bool) (l1 l2 : list A) :
  find f l1 = None -> find f (l1 ++ l2) = find f l2.
Proof.
  induction l1 as [| a l1 IH]; simpl; [reflexivity |].
  destruct (f a); [discriminate | exact IH].
Qed.

(** X15.  When [addAgent] draws a uuid that is not yet a key of the agent
    map, the new agent is appended after the agents already there and
    [getAgent] returns it under that uuid; if no earlier agent carries the
    same Letta id, [getAgentByLettaId] returns it too; and [removeAgent]
    with that uuid brings the agent map back to what it was before. *)
Theorem addAgent_lookup_remove (lettaAgentId name description suiAddress
    suiPublicKey suiPrivateKey : string) (position : Position.t)
    (deleteAgent : string -> Exc unit) (s : State) :
  let agentId := uuid_source (runtime s) (uuids_drawn (runtime s)) in
  let agent :=
    GameAgent.mk agentId lettaAgentId name position description
      (clock (runtime s)) suiAddress suiPublicKey suiPrivateKey in
  let s1 := snd (addAgent lettaAgentId name description suiAddress
                   suiPublicKey suiPrivateKey (Some position) s) in
  getAgent (world s) agentId = None ->
  GameWorld.agents (world s1)
    = (GameWorld.agents (world s) ++ [(agentId, agent)])%list /\
  getAgent (world s1) agentId = Some agent /\
  (getAgentByLettaId (world s) lettaAgentId = None ->
   getAgentByLettaId (world s1) lettaAgentId = Some agent) /\
  GameWorld.agents (world (snd (removeAgent deleteAgent agentId s1)))
    = GameWorld.agents (world s).
Proof.
  cbv zeta. unfold getAgent. intros Hfresh. apply map_has_get in Hfresh.
  rewrite removeAgent_state. simpl.
  rewrite addAgent_agents. rewrite (map_set_fresh _ _ _ Hfresh).
  split; [reflexivity |]. split.
  - rewrite <- (map_set_fresh _ _ _ Hfresh). apply map_get_set_same.
  - split.
    + unfold getAgentByLettaId, map_values. intros Hnone.
      rewrite addAgent_agents, (map_set_fresh _ _ _ Hfresh).
      rewrite map_app, (find_app_none _ _ _ Hnone). simpl.
      rewrite String.eqb_refl. reflexivity.
    + apply map_delete_app_fresh. exact Hfresh.
Qed.

Lemma addAgent_lookup_remove_witness :
  GameWorld.agents
    (world (snd (addAgent "letta-2" "Eve" "A miner" "0xe5e" "pk" "sk"
                   (Some (Position.mk 10 10)) state1)))
  = [("agent-1", bob);
     ("uuid-0",
      GameAgent.mk "uuid-0" "letta-2" "Eve" (Position.mk 10 10) "A miner" 0
        "0xe5e" "pk" "sk")].
Proof.
  exact (proj1 (addAgent_lookup_remove "letta-2" "Eve" "A miner" "0xe5e" "pk"
                  "sk" (Position.mk 10 10) (fun _ => Return tt) state1
                  eq_refl)).
Defined.

(** ** The tilemap *)

Lemma Math_ceil_div (w t : Z) :
  (0 < t)%Z -> Math_ceil (IZR w / IZR t) = (- ((- w) / t))%Z.
Proof.
  intros Ht. unfold Math_ceil. f_equal. symmetry. apply Int_part_spec.
  pose proof (Z.div_mod (- w) t ltac:(lia)) as Hdm.
  pose proof (Z.mod_pos_bound (- w) t Ht) as [Hr0 Hr1].
  set (q := ((- w) / t)%Z) in *. set (r := ((- w) mod t)%Z) in *.
  assert (HT : (0 < IZR t)%R) by (apply IZR_lt; exact Ht).
  assert (Hw : (IZR w = - (IZR t * IZR q + IZR r))%R).
  { rewrite <- mult_IZR, <- plus_IZR, <- opp_IZR. f_equal. lia. }
  assert (E : (- (IZR w / IZR t) = IZR q + IZR r / IZR t)%R).
  { rewrite Hw. field. lra. }
  rewrite E.
  assert (Hf0 : (0 <= IZR r / IZR t)%R).
  { apply Rmult_le_pos; [apply IZR_le; exact Hr0 |].
    apply Rlt_le, Rinv_0_lt_compat. exact HT. }
  assert (Hf1 : (IZR r / IZR t < 1)%R).
  { apply Rmult_lt_reg_r with (IZR t); [exact HT |].
    replace (IZR r / IZR t * IZR t)%R with (IZR r) by (field; lra).
    rewrite Rmult_1_l. apply IZR_lt. exact Hr1. }
  lra.
Qed.

Lemma find_row_other (x y y' x0 : Z) (n : nat) :
  y' <> y -> find (at_cell x y) (default_row y' x0 n) = None.
Proof.
  intros Hne. revert x0. induction n as [| n IH]; intros x0; simpl;
    [reflexivity |].
  unfold at_cell at 1; simpl.
  destruct (Z.eqb_spec y' y); [contradiction |].
  rewrite andb_false_r. apply IH.
Qed.

Lemma find_row_hit (x y x0 : Z) (n : nat) :
  (x0 <= x < x0 + Z.of_nat n)%Z ->
  find (at_cell x y) (default_row y x0 n)
  = Some (Tile.mk x y (default_type x y)).
Proof.
  revert x0. induction n as [| n IH]; intros x0 Hx; [lia |]. simpl.
  unfold at_cell at 1; simpl. rewrite Z.eqb_refl, andb_true_r.
  destruct (Z.eqb_spec x0 x) as [-> | Hne]; [reflexivity |].
  apply IH. lia.
Qed.

Lemma find_row_miss (x y y' x0 : Z) (n : nat) :
  ~ (x0 <= x < x0 + Z.of_nat n)%Z ->
  find (at_cell x y) (default_row y' x0 n) = None.
Proof.
  revert x0. induction n as [| n IH]; intros x0 Hx; simpl; [reflexivity |].
  unfold at_cell at 1; simpl.
  destruct (Z.eqb_spec x0 x) as [-> | Hne]; [lia |]. simpl.
  apply IH. lia.
Qed.

Lemma find_app {A : Type} (f : A -> bool) (l1 l2 : list A) :
  find f (l1 ++ l2)
  = match find f l1 with Some a => Some a | None => find f l2 end.
Proof.
  induction l1 as [| a l1 IH]; simpl; [reflexivity |].
  destruct (f a); [reflexivity | exact IH].
Qed.

Lemma find_rows (tilesX x y : Z) (m : nat) :
  forall y0,
    find (at_cell x y) (default_rows tilesX y0 m)
    = if ((0 <=? x) && (x <? tilesX) && (y0 <=? y)
          && (y <? y0 + Z.of_nat m))%Z
      then Some (Tile.mk x y (default_type x y)) else None.
Proof.
  induction m as [| m IH]; intros y0; simpl.
  - destruct (Z.leb_spec y0 y), (Z.ltb_spec y (y0 + 0)); try lia;
      rewrite ?andb_false_r; reflexivity.
  - rewrite find_app, IH.
    destruct (Z.eqb_spec y0 y) as [-> | Hne].
    + destruct (Z.leb_spec 0 x), (Z.ltb_spec x tilesX); simpl.
      * rewrite find_row_hit by lia.
        destruct (Z.leb_spec y y), (Z.ltb_spec y (y + Z.pos (Pos.of_succ_nat m)));
          try lia; reflexivity.
      * rewrite find_row_miss by lia. reflexivity.
      * rewrite find_row_miss by lia. reflexivity.
      * rewrite find_row_miss by lia. reflexivity.
    + rewrite find_row_other by exact Hne.
      destruct (Z.leb_spec 0 x), (Z.ltb_spec x tilesX),
        (Z.leb_spec (y0 + 1) y), (Z.leb_spec y0 y),
        (Z.ltb_spec y (y0 + 1 + Z.of_nat m)),
        (Z.ltb_spec y (y0 + Z.pos (Pos.of_succ_nat m)));
        simpl; try reflexivity; lia.
Qed.

Lemma default_row_length (y x0 : Z) (n : nat) :
  List.length (default_row y x0 n) = n.
Proof.
  revert x0. induction n as [| n IH]; intros x0; simpl;
    [reflexivity | rewrite IH; reflexivity].
Qed.

Lemma default_rows_length (tilesX y0 : Z) (m : nat) :
  List.length (default_rows tilesX y0 m) = (m * Z.to_nat tilesX)%nat.
Proof.
  revert y0. induction m as [| m IH]; intros y0; simpl; [reflexivity |].
  rewrite length_app, IH, default_row_length. reflexivity.
Qed.

(** X16.  For a positive tile size the default tilemap has
    [ceil(width / tileSize)] columns and [ceil(height / tileSize)] rows.  It
    holds one tile per cell of that grid and nothing else: [getTileAt]
    returns the tile of a cell inside the grid, with the terrain the
    generator's rule gives the cell, and [undefined] for a cell outside. *)
Theorem default_tilemap_grid (worldWidth worldHeight tileSize : Z) :
  (0 < tileSize)%Z ->
  let tilesX := (- ((- worldWidth) / tileSize))%Z in
  let tilesY := (- ((- worldHeight) / tileSize))%Z in
  let tiles := generateDefaultTilemap worldWidth worldHeight tileSize in
  List.length tiles = (Z.to_nat tilesY * Z.to_nat tilesX)%nat /\
  (forall x y, (0 <= x < tilesX)%Z -> (0 <= y < tilesY)%Z ->
     getTileAt tiles x y = Some (Tile.mk x y (default_type x y))) /\
  (forall x y, ~ ((0 <= x < tilesX)%Z /\ (0 <= y < tilesY)%Z) ->
     getTileAt tiles x y = None).
Proof.
  intros Ht. cbv zeta. unfold generateDefaultTilemap.
  rewrite !Math_ceil_div by exact Ht. unfold default_tiles.
  split; [apply default_rows_length |].
  unfold getTileAt. split.
  - intros x y Hx Hy.
    rewrite find_rows.
    destruct (Z.leb_spec 0 x), (Z.ltb_spec x (- (- worldWidth / tileSize))),
      (Z.leb_spec 0 y),
      (Z.ltb_spec y (0 + Z.of_nat (Z.to_nat (- (- worldHeight / tileSize)))));
      simpl; try reflexivity; lia.
  - intros x y Hout.
    rewrite find_rows.
    destruct (Z.leb_spec 0 x), (Z.ltb_spec x (- (- worldWidth / tileSize))),
      (Z.leb_spec 0 y),
      (Z.ltb_spec y (0 + Z.of_nat (Z.to_nat (- (- worldHeight / tileSize)))));
      simpl; try reflexivity; exfalso; apply Hout; lia.
Qed.

Lemma default_tilemap_grid_witness :
  List.length (generateDefaultTilemap 100 100 10) = 100%nat /\
  getTileAt (generateDefaultTilemap 100 100 10) 4%Z 4%Z
  = Some (Tile.mk 4 4 TileType.WATER).
Proof.
  destruct (default_tilemap_grid 100 100 10) as (Hlen & Hin & _); [lia |].
  split; [exact Hlen |]. apply (Hin 4%Z 4%Z); simpl; lia.
Defined.

Lemma find_retype_same (x y : Z) (type : TileType.t) (tiles : list Tile.t)
    (tile : Tile.t) :
  find (at_cell x y) tiles = Some tile ->
  find (at_cell x y) (retype x y type tiles) = Some (Tile.mk x y type).
Proof.
  induction tiles as [| t0 tiles IH]; simpl; [discriminate |].
  destruct (at_cell x y t0) eqn:E; simpl.
  - intros _. unfold at_cell in *; simpl.
    apply andb_true_iff in E. destruct E as [Ex Ey].
    apply Z.eqb_eq in Ex, Ey. rewrite Ex, Ey, !Z.eqb_refl. reflexivity.
  - rewrite E. exact IH.
Qed.

Lemma find_retype_other (x y x' y' : Z) (type : TileType.t)
    (tiles : list Tile.t) :
  (x', y') <> (x, y) ->
  find (at_cell x' y') (retype x y type tiles) = find (at_cell x' y') tiles.
Proof.
  intros Hne. induction tiles as [| t0 tiles IH]; simpl; [reflexivity |].
  destruct (at_cell x y t0) eqn:E; simpl.
  - change (at_cell x' y' (Tile.mk (Tile.x t0) (Tile.y t0) type))
      with (at_cell x' y' t0).
    assert (E' : at_cell x' y' t0 = false).
    { unfold at_cell in *. apply andb_true_iff in E. destruct E as [Ex Ey].
      apply Z.eqb_eq in Ex, Ey.
      destruct (Z.eqb_spec (Tile.x t0) x'), (Z.eqb_spec (Tile.y t0) y');
        try reflexivity.
      exfalso. apply Hne. congruence. }
    rewrite E'. reflexivity.
  - destruct (at_cell x' y' t0); [reflexivity | exact IH].
Qed.

(** X17.  [updateTile] on a cell without a tile answers [false] and leaves
    the tiles as they are.  On a cell with a tile it answers [true] when
    persistence is off or accepts; in any case [getTileAt] then returns the
    cell with the new terrain, every other cell answers as before, and no
    tile is added or removed. *)
Theorem updateTile_outcome (persistTile : option (Z -> Z -> TileType.t -> Exc unit))
    (tiles : list Tile.t) (x y : Z) (type : TileType.t) :
  (getTileAt tiles x y = None ->
   updateTile persistTile tiles x y type = (Return false, tiles))
  /\
  (getTileAt tiles x y <> None ->
   let tiles' := snd (updateTile persistTile tiles x y type) in
   getTileAt tiles' x y = Some (Tile.mk x y type) /\
   (forall x' y', (x', y') <> (x, y) ->
      getTileAt tiles' x' y' = getTileAt tiles x' y') /\
   List.length tiles' = List.length tiles /\
   (persistTile = None ->
    fst (updateTile persistTile tiles x y type) = Return true)).
Proof.
  unfold updateTile. split.
  - intros Hnone. rewrite Hnone. reflexivity.
  - intros Hsome. destruct (getTileAt tiles x y) as [tile |] eqn:Hget;
      [| contradiction].
    assert (Hsnd : snd (match persistTile with
                        | Some call =>
                            match call x y type with
                            | Return _ => (Return true, retype x y type tiles)
                            | Throw e => (Throw e, retype x y type tiles)
                            end
                        | None => (Return true, retype x y type tiles)
                        end) = retype x y type tiles).
    { destruct persistTile as [call |]; [destruct (call x y type) |];
        reflexivity. }
    cbv zeta. rewrite Hsnd. unfold getTileAt in *.
    split; [exact (find_retype_same x y type tiles tile Hget) |]. split.
    + intros x' y' Hne.
      exact (find_retype_other x y x' y' type tiles Hne).
    + split.
      * clear. induction tiles as [| t0 tiles IH]; simpl; [reflexivity |].
        destruct (at_cell x y t0); simpl;
          [reflexivity | rewrite IH; reflexivity].
      * intros ->. reflexivity.
Qed.

Lemma updateTile_outcome_witness :
  getTileAt (snd (updateTile None
                    [Tile.mk 3 4 TileType.WATER; Tile.mk 4 4 TileType.WATER]
                    4 4 TileType.DIRT)) 4 4
  = Some (Tile.mk 4 4 TileType.DIRT).
Proof.
  refine (proj1 (proj2 (updateTile_outcome None
                          [Tile.mk 3 4 TileType.WATER;
                           Tile.mk 4 4 TileType.WATER] 4 4 TileType.DIRT) _)).
  simpl. discriminate.
Defined.

End WorldFacts.

(* ================================================================== *)
(** * Properties of the context builder *)
(* ================================================================== *)

Module ContextFacts.

Import JS World Sui Context.
Local Open Scope string_scope.

(** ** Headers *)

Lemma prefix_app (h x : string) : String.prefix h (h ++ x) = true.
Proof.
  induction h as [| c h IH]; simpl.
  - destruct x; reflexivity.
  - destruct (ascii_dec c c) as [_ | n]; [exact IH | contradiction].
Qed.

Lemma prefix_refl (h : string) : String.prefix h h = true.
Proof.
  induction h as [| c h IH]; simpl.
  - reflexivity.
  - destruct (ascii_dec c c) as [_ | n]; [exact IH | contradiction].
Qed.

Lemma prefix_join (sep h : string) (rest : list string) :
  String.prefix h (join sep (h :: rest)) = true.
Proof.
  unfold join. destruct rest as [| y ys]; simpl.
  - apply prefix_refl.
  - apply prefix_app.
Qed.

Lemma prefix_nonempty (c : ascii) (h text : string) :
  String.prefix (String c h) text = true -> nonempty text = true.
Proof.
  destruct text as [| d text]; simpl; [discriminate | reflexivity].
Qed.

Lemma section_ok_line (header line : string) :
  section_ok header (Return (header ++ nl ++ line)).
Proof. eexists. split; [reflexivity | apply prefix_app]. Qed.

Lemma section_ok_join (header : string) (rest : list string) :
  section_ok header (Return (join nl (header :: rest))).
Proof. eexists. split; [reflexivity | apply prefix_join]. Qed.

(** ** Every builder resolves to a headed section *)

Lemma buildSelfInfo_ok (svc : Service) (agent : GameAgent.t) :
  section_ok "YOUR CURRENT STATUS:" (buildSelfInfo svc agent).
Proof.
  unfold buildSelfInfo.
  destruct (suiGameService svc) as [sui |]; cbn [exc_bind try_catch push app].
  - destruct (getPlayerResources sui (GameAgent.suiAddress agent))
      as [[r |] | e]; cbn [exc_bind try_catch push app]; apply section_ok_join.
  - apply section_ok_join.
Qed.

Lemma buildNearbyAgentsInfo_ok (svc : Service) (agent : GameAgent.t)
    (range : R) :
  String.prefix "NEARBY NPCs:" (buildNearbyAgentsInfo svc agent range) = true.
Proof.
  unfold buildNearbyAgentsInfo.
  destruct (filter _ _); [apply prefix_app | apply prefix_join].
Qed.

Lemma buildNearbyItemsInfo_ok (svc : Service) (agent : GameAgent.t)
    (range : R) :
  String.prefix "NEARBY ITEMS:" (buildNearbyItemsInfo svc agent range) = true.
Proof.
  unfold buildNearbyItemsInfo.
  destruct (getItemsInRange _ _ _); [apply prefix_app | apply prefix_join].
Qed.

Lemma describe_player_returns (svc : Service) (agent : GameAgent.t)
    (player : PlayerData.t) :
  exists line, describe_player svc agent player = Return line.
Proof.
  unfold describe_player.
  destruct (suiGameService svc) as [sui |];
    [destruct (PlayerData.metadata_suiAddress player) as [address |];
     [destruct (truthy_string address);
      [destruct (getPlayerResources sui address) as [[r |] | e] |] |] |];
    cbn [exc_bind try_catch push app]; eexists; reflexivity.
Qed.

Lemma all_describe_player (svc : Service) (agent : GameAgent.t)
    (players : list PlayerData.t) :
  exists lines, all (map (describe_player svc agent) players) = Return lines.
Proof.
  induction players as [| p ps [lines IH]]; cbn [map all].
  - eexists; reflexivity.
  - destruct (describe_player_returns svc agent p) as [line ->].
    cbn [exc_bind]. rewrite IH. cbn [exc_bind]. eexists; reflexivity.
Qed.

Lemma buildNearbyPlayersInfo_ok (svc : Service) (agent : GameAgent.t)
    (range : R) :
  section_ok "NEARBY PLAYERS:" (buildNearbyPlayersInfo svc agent range).
Proof.
  unfold buildNearbyPlayersInfo.
  destruct (esService svc) as [es |]; [| apply section_ok_line].
  destruct (ElasticsearchService.getAllPlayers es) as [players | e]; cbn [exc_bind try_catch push app];
    [| apply section_ok_line].
  destruct (filter _ players) as [| p ps] eqn:E; cbn [exc_bind try_catch push app];
    [apply section_ok_line |].
  destruct (all_describe_player svc agent (p :: ps)) as [lines Hl].
  cbn [map] in Hl. cbn [map]. rewrite Hl. cbn [exc_bind try_catch]. apply section_ok_join.
Qed.

Lemma buildNearbyGeneratorsInfo_ok (svc : Service) (agent : GameAgent.t)
    (range : R) :
  section_ok "NEARBY GENERATORS:" (buildNearbyGeneratorsInfo svc agent range).
Proof.
  unfold buildNearbyGeneratorsInfo.
  destruct (suiGameService svc) as [sui |]; [| apply section_ok_line].
  destruct (truthy (getCurrentGameId sui)); cbn [exc_bind try_catch push app]; [| apply section_ok_line].
  destruct (getGeneratorsNearPosition _ _ _ _); cbn [exc_bind try_catch push app];
    [apply section_ok_line | apply section_ok_join].
Qed.

Lemma buildResourcesInfo_ok (svc : Service) (agent : GameAgent.t) :
  section_ok "YOUR RESOURCES:" (buildResourcesInfo svc agent).
Proof.
  unfold buildResourcesInfo.
  destruct (suiGameService svc) as [sui |]; [| apply section_ok_line].
  destruct (getPlayerResources sui (GameAgent.suiAddress agent))
    as [[r |] | e]; cbn [exc_bind try_catch push app];
    [apply section_ok_join | apply section_ok_line | apply section_ok_line].
Qed.

Lemma buildTradeProposalsInfo_ok (svc : Service) (agent : GameAgent.t) :
  section_ok "TRADE PROPOSALS:" (buildTradeProposalsInfo svc agent).
Proof.
  unfold buildTradeProposalsInfo.
  destruct (suiGameService svc) as [sui |]; [| apply section_ok_line].
  destruct (getTradeProposalsForAgent _ _); cbn [exc_bind try_catch push app];
    [apply section_ok_line | apply section_ok_join].
Qed.

Lemma buildWorldInfo_ok (svc : Service) :
  section_ok "WORLD INFORMATION:" (buildWorldInfo svc).
Proof.
  unfold buildWorldInfo.
  destruct (suiGameService svc) as [sui |]; cbn [exc_bind try_catch push app]; [| apply section_ok_join].
  destruct (truthy (getCurrentGameId sui)); cbn [exc_bind try_catch push app]; [| apply section_ok_join].
  destruct (getGameMatch sui _) as [[info |] | e]; cbn [exc_bind try_catch push app];
    apply section_ok_join.
Qed.

(** ** The whole context *)

(** Whatever the collaborators are and answer, the context is produced, all
    eight sections are present under their headers, and the full text joins
    them in the fixed order. *)
Lemma generateAgentContext_shape (svc : Service) (agent : GameAgent.t)
    (contextRange : R) :
  exists ctx,
    generateAgentContext svc agent contextRange = Return ctx /\
    headed ctx /\
    fullContext ctx = join (nl ++ nl) (ordered_sections ctx) /\
    selfInfo ctx :: resourcesInfo ctx :: nearbyPlayers ctx
      :: nearbyGenerators ctx :: tradeProposals ctx :: worldInfo ctx :: nil
    = map (fun built => match built with Return t => t | Throw _ => "" end)
        [buildSelfInfo svc agent; buildResourcesInfo svc agent;
         buildNearbyPlayersInfo svc agent contextRange;
         buildNearbyGeneratorsInfo svc agent contextRange;
         buildTradeProposalsInfo svc agent; buildWorldInfo svc].
Proof.
  unfold generateAgentContext.
  destruct (buildSelfInfo_ok svc agent) as (self & -> & Hself).
  destruct (buildNearbyPlayersInfo_ok svc agent contextRange)
    as (players & -> & Hplayers).
  destruct (buildNearbyGeneratorsInfo_ok svc agent contextRange)
    as (gens & -> & Hgens).
  destruct (buildResourcesInfo_ok svc agent) as (res & -> & Hres).
  destruct (buildTradeProposalsInfo_ok svc agent) as (trades & -> & Htrades).
  destruct (buildWorldInfo_ok svc) as (winfo & -> & Hworld).
  pose proof (buildNearbyAgentsInfo_ok svc agent contextRange) as Hagents.
  pose proof (buildNearbyItemsInfo_ok svc agent contextRange) as Hitems.
  cbn [exc_bind]. eexists. split; [reflexivity |].
  split; [| split].
  - unfold headed; cbn [selfInfo resourcesInfo nearbyAgents nearbyPlayers
      nearbyGenerators nearbyItems tradeProposals worldInfo].
    repeat split; assumption.
  - unfold ordered_sections; cbn [fullContext selfInfo resourcesInfo
      nearbyAgents nearbyPlayers nearbyGenerators nearbyItems tradeProposals
      worldInfo].
    f_equal. cbn [filter].
    rewrite (prefix_nonempty _ _ _ Hself), (prefix_nonempty _ _ _ Hres),
      (prefix_nonempty _ _ _ Hagents), (prefix_nonempty _ _ _ Hplayers),
      (prefix_nonempty _ _ _ Hgens), (prefix_nonempty _ _ _ Hitems),
      (prefix_nonempty _ _ _ Htrades), (prefix_nonempty _ _ _ Hworld).
    reflexivity.
  - reflexivity.
Qed.

(** C8.  For every agent and every combination of collaborators (present or
    missing, answering or rejecting), the context is produced and its full
    text is the header line, then the sections self status, resources,
    nearby NPCs, nearby players, nearby generators, nearby items, trade
    proposals, world information, then the closing line, joined by blank
    lines; every section is present and starts with its own header. *)
Theorem context_sections_fixed_order (svc : Service) (agent : GameAgent.t)
    (contextRange : R) :
  exists ctx,
    generateAgentContext svc agent contextRange = Return ctx /\
    fullContext ctx
    = join (nl ++ nl)
        ["=== CURRENT CONTEXT ===";
         selfInfo ctx; resourcesInfo ctx; nearbyAgents ctx; nearbyPlayers ctx;
         nearbyGenerators ctx; nearbyItems ctx; tradeProposals ctx;
         worldInfo ctx;
         "==================="] /\
    headed ctx.
Proof.
  destruct (generateAgentContext_shape svc agent contextRange)
    as (ctx & Hrun & Hheaded & Hfull & _).
  exists ctx. split; [exact Hrun | split; [exact Hfull | exact Hheaded]].
Qed.

(** C4.  With the Elasticsearch service and the Sui game service both
    undefined, [generateAgentContext] resolves for every agent; the result
    holds the self-status section and, for resources, nearby players,
    nearby generators and trade proposals, the fixed placeholder line; the
    full text contains all of them in the usual order. *)
Theorem context_without_collaborators (w : GameWorld.t) (agent : GameAgent.t)
    (contextRange : R) :
  exists ctx,
    generateAgentContext (mkContextService w None None) agent contextRange
      = Return ctx /\
    selfInfo ctx
    = join nl
        ["YOUR CURRENT STATUS:";
         "- Name: " ++ GameAgent.name agent;
         "- Description: " ++ GameAgent.description agent;
         "- Current Position: ("
           ++ show (Math_round (Position.x (GameAgent.position agent))) ++ ", "
           ++ show (Math_round (Position.y (GameAgent.position agent))) ++ ")";
         "- Your Sui Wallet Address: " ++ GameAgent.suiAddress agent;
         "- You are currently in the game world. Remember to roleplay as your character."] /\
    resourcesInfo ctx
    = "YOUR RESOURCES:" ++ nl ++ "- Resource tracking not available" /\
    nearbyPlayers ctx
    = "NEARBY PLAYERS:" ++ nl ++ "- Player tracking not available" /\
    nearbyGenerators ctx
    = "NEARBY GENERATORS:" ++ nl ++ "- Generator tracking not available" /\
    tradeProposals ctx
    = "TRADE PROPOSALS:" ++ nl ++ "- Trading not available" /\
    fullContext ctx
    = join (nl ++ nl)
        ["=== CURRENT CONTEXT ===";
         selfInfo ctx; resourcesInfo ctx; nearbyAgents ctx; nearbyPlayers ctx;
         nearbyGenerators ctx; nearbyItems ctx; tradeProposals ctx;
         worldInfo ctx;
         "==================="].
Proof.
  destruct (generateAgentContext_shape (mkContextService w None None) agent
              contextRange) as (ctx & Hrun & _ & Hfull & Hfields).
  exists ctx. split; [exact Hrun |].
  cbn [map buildSelfInfo buildResourcesInfo buildNearbyPlayersInfo
       buildNearbyGeneratorsInfo buildTradeProposalsInfo suiGameService
       esService exc_bind push app] in Hfields.
  injection Hfields as Hself Hres Hplayers Hgens Htrades _.
  repeat split; assumption.
Qed.

End ContextFacts.

(* ================================================================== *)
(** * Further properties of the ledger client *)
(* ================================================================== *)

Module LedgerClientFacts.

Import JS World Sui.
Local Open Scope string_scope.

(** ** Trade proposals *)

Lemma push_proposal_invariant (acc : list string * list TradeProposalInfo.t)
    (obj : SuiObjectResponse) :
  map TradeProposalInfo.objectId (snd acc) = rev (fst acc) ->
  NoDup (fst acc) ->
  map TradeProposalInfo.objectId (snd (push_proposal acc obj))
    = rev (fst (push_proposal acc obj)) /\
  NoDup (fst (push_proposal acc obj)).
Proof.
  destruct acc as [seen proposals]. simpl. intros Hmap Hnd.
  destruct obj as [[objectId [[] |]] |]; simpl; try (split; assumption).
  destruct (existsb (String.eqb objectId) seen) eqn:E; simpl;
    [split; assumption |].
  split.
  - rewrite map_app, Hmap. reflexivity.
  - constructor; [| exact Hnd]. intros Hin.
    assert (existsb (String.eqb objectId) seen = true).
    { apply existsb_exists. exists objectId. split;
        [exact Hin | apply String.eqb_refl]. }
    congruence.
Qed.

Lemma fold_push_proposal_invariant (data : list SuiObjectResponse) :
  forall acc,
    map TradeProposalInfo.objectId (snd acc) = rev (fst acc) ->
    NoDup (fst acc) ->
    map TradeProposalInfo.objectId (snd (fold_left push_proposal data acc))
      = rev (fst (fold_left push_proposal data acc)) /\
    NoDup (fst (fold_left push_proposal data acc)).
Proof.
  induction data as [| obj data IH]; intros acc Hmap Hnd; simpl;
    [split; assumption |].
  destruct (push_proposal_invariant acc obj Hmap Hnd) as [Hmap' Hnd'].
  apply IH; assumption.
Qed.

Lemma proposals_of_participants_nodup (svc : SuiGameService)
    (participants : list string) :
  forall acc proposals,
    map TradeProposalInfo.objectId (snd acc) = rev (fst acc) ->
    NoDup (fst acc) ->
    proposals_of_participants svc participants acc = Return proposals ->
    NoDup (map TradeProposalInfo.objectId proposals).
Proof.
  induction participants as [| p ps IH]; intros acc proposals Hmap Hnd Hrun;
    simpl in Hrun.
  - inversion Hrun; subst. rewrite Hmap. apply NoDup_rev. exact Hnd.
  - destruct (getOwnedObjects (suiClient svc) p
                (struct_type svc "TradeProposal")) as [data | e];
      [| discriminate].
    destruct (fold_push_proposal_invariant data acc Hmap Hnd) as [Hmap' Hnd'].
    exact (IH _ _ Hmap' Hnd' Hrun).
Qed.

Lemma getAllTradeProposals_nodup (svc : SuiGameService) :
  NoDup (map TradeProposalInfo.objectId (getAllTradeProposals svc)).
Proof.
  unfold getAllTradeProposals.
  destruct (currentGameId svc) as [gameId |]; [| constructor].
  destruct (truthy_string gameId); [| constructor].
  destruct (getObject (suiClient svc) gameId) as [[[id [[] |]] |] | e];
    try constructor.
  destruct (proposals_of_participants svc participants ([], []))
    as [proposals | e] eqn:E; [| constructor].
  apply (proposals_of_participants_nodup svc participants ([], []));
    [reflexivity | constructor | exact E].
Qed.

Lemma NoDup_map_filter {A B : Type} (f : A -> B) (P : A -> bool) (l : list A) :
  NoDup (map f l) -> NoDup (map f (filter P l)).
Proof.
  induction l as [| a l IH]; simpl; intros Hnd; [constructor |].
  inversion Hnd as [| ? ? Hnotin Hnd']; subst.
  destruct (P a); simpl; [| apply IH; exact Hnd'].
  constructor; [| apply IH; exact Hnd'].
  intros Hin. apply Hnotin. apply in_map_iff in Hin.
  destruct Hin as (b & Hb & Hin). apply filter_In in Hin.
  apply in_map_iff. exists b. split; [exact Hb | exact (proj1 Hin)].
Qed.

(** X18.  Whatever the node answers, [getAllTradeProposals] lists no
    proposal twice, although a proposal may be returned for several
    participants; [getTradeProposalsForAgent] keeps, without duplicates,
    exactly the listed proposals whose proposer or target is the agent. *)
Theorem trade_proposals_listed_once (svc : SuiGameService)
    (agentAddress : string) :
  NoDup (map TradeProposalInfo.objectId (getAllTradeProposals svc)) /\
  NoDup (map TradeProposalInfo.objectId
           (getTradeProposalsForAgent svc agentAddress)) /\
  (forall p, In p (getTradeProposalsForAgent svc agentAddress) <->
     In p (getAllTradeProposals svc) /\
     (TradeProposalInfo.proposer p = agentAddress \/
      TradeProposalInfo.target p = agentAddress)).
Proof.
  split; [apply getAllTradeProposals_nodup |]. split.
  - unfold getTradeProposalsForAgent. apply NoDup_map_filter.
    apply getAllTradeProposals_nodup.
  - intros p. unfold getTradeProposalsForAgent. rewrite filter_In.
    rewrite orb_true_iff, !String.eqb_eq. reflexivity.
Qed.

(** ** A rejected query *)

Lemma generators_of_participants_rejected (svc : SuiGameService)
    (gameId : string) (before : list string) (participant : string)
    (after : list string) (e : string) :
  getOwnedObjects (suiClient svc) participant (struct_type svc "Generator")
    = Throw e ->
  forall acc,
    generators_of_participants svc gameId (before ++ participant :: after) acc
    = generators_of_participants svc gameId before acc.
Proof.
  intros Hthrow. induction before as [| p ps IH]; intros acc; simpl.
  - rewrite Hthrow. reflexivity.
  - destruct (getOwnedObjects (suiClient svc) p (struct_type svc "Generator"));
      [apply IH | reflexivity].
Qed.

Lemma proposals_of_participants_rejected (svc : SuiGameService)
    (participants : list string) (participant : string) :
  In participant participants ->
  (exists e, getOwnedObjects (suiClient svc) participant
               (struct_type svc "TradeProposal") = Throw e) ->
  forall acc, exists e, proposals_of_participants svc participants acc = Throw e.
Proof.
  intros Hin [e Hthrow].
  induction participants as [| p ps IH]; intros acc; [destruct Hin |].
  simpl. destruct Hin as [-> | Hin].
  - rewrite Hthrow. exists e. reflexivity.
  - destruct (getOwnedObjects (suiClient svc) p
                (struct_type svc "TradeProposal")) as [data | e'].
    + apply IH. exact Hin.
    + exists e'. reflexivity.
Qed.

(** X19.  How the two enumerations treat a rejected owned-objects query.
    [getAllGenerators] stops at the participant whose query is rejected
    and returns what the participants before it yielded, as if the match
    declared only those; [getAllTradeProposals] returns nothing at all as
    soon as the query of any declared participant is rejected. *)
Theorem rejected_query_outcome (svc : SuiGameService) (gameId id creator : string)
    (before : list string) (participant : string) (after : list string) :
  getObject (suiClient svc) gameId
    = Return (Some (mkData id (Some (GameMatchFields creator
                                       (before ++ participant :: after))))) ->
  ((exists e, getOwnedObjects (suiClient svc) participant
                (struct_type svc "Generator") = Throw e) ->
   getAllGenerators svc gameId
   = generators_of_participants svc gameId before [])
  /\
  (currentGameId svc = Some gameId -> gameId <> "" ->
   (exists e, getOwnedObjects (suiClient svc) participant
                (struct_type svc "TradeProposal") = Throw e) ->
   getAllTradeProposals svc = []).
Proof.
  intros Hgame. split.
  - intros [e Hthrow]. unfold getAllGenerators. rewrite Hgame.
    apply (generators_of_participants_rejected svc gameId before participant
             after e Hthrow).
  - intros Hcur Hne Hthrow. unfold getAllTradeProposals.
    rewrite Hcur. unfold truthy_string.
    destruct (String.eqb_spec gameId ""); [contradiction |]. simpl.
    rewrite Hgame.
    destruct (proposals_of_participants_rejected svc
                (before ++ participant :: after) participant
                ltac:(apply in_or_app; right; left; reflexivity) Hthrow
                ([], [])) as [e ->].
    reflexivity.
Qed.

Lemma rejected_query_outcome_witness :
  getAllGenerators flaky_service "0x77" = [wood_generator] /\
  getAllTradeProposals flaky_service = [].
Proof.
  destruct (rejected_query_outcome flaky_service "0x77" "0x77" "0xa11ce"
              ["0xa11ce"] "0xdead" ["0xb0b"] eq_refl) as [Hg Ht].
  split.
  - rewrite Hg; [reflexivity | exists "request timed out"; reflexivity].
  - apply Ht; [reflexivity | discriminate |].
    exists "request timed out"; reflexivity.
Defined.

(** ** What a pass does to the store *)

Lemma map_keys_set {V : Type} (k : string) (v : V) (m : list (string * V)) :
  exists added, map fst (map_set k v m) = (map fst m ++ added)%list.
Proof.
  induction m as [| [k0 v0] m [added IH]]; simpl.
  - exists [k]. reflexivity.
  - destruct (String.eqb k k0); simpl.
    + exists []. rewrite app_nil_r. reflexivity.
    + exists added. rewrite IH. reflexivity.
Qed.

Lemma map_keys_assign (id : string) (item : NewItem.t)
    (items : list (string * WorldItem.t)) :
  map fst (assign_in_place id item items) = map fst items.
Proof.
  induction items as [| [k existing] items IH]; simpl; [reflexivity |].
  destruct (negb (truthy (WorldItem.collectedBy existing))
            && is_projection id existing); simpl;
    [reflexivity | rewrite IH; reflexivity].
Qed.

Lemma extends_refl (s : State) : extends s s.
Proof.
  unfold extends. repeat split. exists []. rewrite app_nil_r. reflexivity.
Qed.

Lemma extends_trans (s1 s2 s3 : State) :
  extends s1 s2 -> extends s2 s3 -> extends s1 s3.
Proof.
  intros (Ha & Hw & Hh & added & Hk) (Ha' & Hw' & Hh' & added' & Hk').
  unfold extends. rewrite Ha', Hw', Hh', Hk', Hk.
  repeat split; try assumption.
  exists (added ++ added')%list. rewrite app_assoc. reflexivity.
Qed.

Lemma sync_generator_extends (gen : GeneratorInfo.t) (s : State) :
  extends s (snd (sync_generator gen s)).
Proof.
  unfold sync_generator, bind, get_world.
  destruct (find (is_projection (projection_id gen)) (getAllItems (world s))).
  - unfold put_world, extends; simpl. repeat split.
    exists []. rewrite app_nil_r. apply map_keys_assign.
  - assert (Hw : world (snd (let (e0, s') := addItem (generator_item gen) s in
                             match e0 with
                             | Return _ => ret tt s'
                             | Throw e => (Throw e, s')
                             end))
                 = world (snd (addItem (generator_item gen) s))).
    { destruct (addItem (generator_item gen) s) as [[a | e] s'];
        reflexivity. }
    unfold extends. rewrite Hw.
    assert (Hadd : world (snd (addItem (generator_item gen) s))
                   = set_items (world s)
                       (map_set (uuid_source (runtime s) (uuids_drawn (runtime s)))
                          (with_id (uuid_source (runtime s)
                                      (uuids_drawn (runtime s)))
                             (generator_item gen))
                          (GameWorld.items (world s)))).
    { unfold addItem, bind, uuidv4, get_world, put_world, persist, await, ret;
        simpl.
      destruct (GameWorld.esService (world s)) as [es |]; simpl;
        [destruct (GameWorld.persistenceEnabled (world s)); simpl;
         [destruct (ElasticsearchService.saveItem es _); simpl |] |];
        reflexivity. }
    rewrite Hadd. simpl. repeat split. apply map_keys_set.
Qed.

Lemma for_each_extends (gens : list GeneratorInfo.t) :
  forall s, extends s (snd (for_each sync_generator gens s)).
Proof.
  induction gens as [| gen gens IH]; intros s; simpl.
  - apply extends_refl.
  - unfold bind.
    pose proof (sync_generator_extends gen s) as Hstep.
    destruct (sync_generator gen s) as [[u | e] s1]; simpl in *.
    + exact (extends_trans s s1 _ Hstep (IH s1)).
    + exact Hstep.
Qed.

(** X20.  A pass of [syncGeneratorsToWorld] never deletes or reorders: the
    keys stored before the pass are still there afterwards, in the same
    order, possibly followed by new ones, so stale projections stay; and
    the pass touches neither the agents nor the world's size.  This holds
    for every answer of the node and also when persistence rejects and
    the pass ends early. *)
Theorem sync_never_removes (svc : SuiGameService) (s : State) :
  let s' := snd (syncGeneratorsToWorld svc s) in
  GameWorld.agents (world s') = GameWorld.agents (world s) /\
  GameWorld.worldWidth (world s') = GameWorld.worldWidth (world s) /\
  GameWorld.worldHeight (world s') = GameWorld.worldHeight (world s) /\
  exists added,
    map fst (GameWorld.items (world s'))
    = (map fst (GameWorld.items (world s)) ++ added)%list.
Proof.
  cbv zeta. unfold syncGeneratorsToWorld.
  destruct (currentGameId svc) as [gameId |]; [| apply extends_refl].
  destruct (truthy_string gameId); [| apply extends_refl].
  apply for_each_extends.
Qed.

(** ** Passes that keep inserting *)

Lemma map_has_app {V : Type} (k : string) (m1 m2 : list (string * V)) :
  map_has k (m1 ++ m2) = map_has k m1 || map_has k m2.
Proof. unfold map_has. apply existsb_app. Qed.

Lemma sync_generator_step (horizon : nat) (gens : list GeneratorInfo.t)
    (gen : GeneratorInfo.t) (s : State) :
  fresh_uuids (S horizon) gens s -> In gen gens ->
  exists s',
    sync_generator gen s = (Return tt, s') /\
    List.length (GameWorld.items (world s'))
      = S (List.length (GameWorld.items (world s))) /\
    fresh_uuids horizon gens s'.
Proof.
  intros (Hoff & Hids & Hfresh & Hdistinct) Hgen.
  set (d := uuids_drawn (runtime s)) in *.
  set (u := uuid_source (runtime s) d).
  assert (Hfind : find (is_projection (projection_id gen))
                    (getAllItems (world s)) = None).
  { destruct (find _ _) as [item |] eqn:E; [| reflexivity].
    apply find_some in E. destruct E as [Hin Hproj].
    unfold getAllItems in Hin. apply filter_In in Hin.
    unfold is_projection in Hproj. apply String.eqb_eq in Hproj.
    exfalso. exact (Hids item gen (proj1 Hin) Hgen Hproj). }
  destruct (Hfresh d ltac:(lia)) as [Hnew Hnot].
  exists (mkState (mkRuntime (uuid_source (runtime s)) (S d)
                     (random_source (runtime s)) (randoms_drawn (runtime s))
                     (clock (runtime s)))
            (set_items (world s)
               (GameWorld.items (world s)
                ++ [(u, with_id u (generator_item gen))])%list)).
  split; [| split].
  - unfold sync_generator, bind at 1, get_world. rewrite Hfind.
    unfold addItem, bind, uuidv4, get_world, put_world, persist, await, ret;
      simpl.
    fold d. fold u. rewrite Hoff.
    rewrite (WorldFacts.map_set_fresh u _ _ Hnew).
    destruct (GameWorld.esService (world s)); reflexivity.
  - simpl. rewrite length_app. simpl. lia.
  - unfold fresh_uuids; simpl. split; [exact Hoff |]. split; [| split].
    + intros item g Hin Hg. rewrite map_app in Hin.
      apply in_app_or in Hin. destruct Hin as [Hin | [<- | []]].
      * exact (Hids item g Hin Hg).
      * simpl. exact (Hnot g Hg).
    + intros n Hn. destruct (Hfresh n ltac:(fold d; lia)) as [Hn1 Hn2].
      split; [| exact Hn2].
      rewrite map_has_app, Hn1. unfold map_has; simpl.
      destruct (String.eqb_spec (uuid_source (runtime s) n) u) as [E |];
        [| reflexivity].
      exfalso. apply (Hdistinct d n); [fold d; lia | lia | fold d; lia |].
      symmetry. exact E.
    + intros n m Hn Hnm Hm. apply Hdistinct; fold d; lia.
Qed.

Lemma for_each_inserts (gens : list GeneratorInfo.t) (l : list GeneratorInfo.t) :
  forall horizon s,
    incl l gens ->
    fresh_uuids (List.length l + horizon) gens s ->
    exists s',
      for_each sync_generator l s = (Return tt, s') /\
      List.length (GameWorld.items (world s'))
        = (List.length (GameWorld.items (world s)) + List.length l)%nat /\
      fresh_uuids horizon gens s'.
Proof.
  induction l as [| gen l IH]; intros horizon s Hincl Hfresh.
  - exists s. simpl in *. split; [reflexivity |].
    split; [lia | exact Hfresh].
  - simpl in Hfresh.
    destruct (sync_generator_step (List.length l + horizon) gens gen s Hfresh
                (Hincl gen (or_introl eq_refl)))
      as (s1 & Hstep & Hlen1 & Hfresh1).
    destruct (IH horizon s1 (fun g Hg => Hincl g (or_intror Hg)) Hfresh1)
      as (s2 & Hrest & Hlen2 & Hfresh2).
    exists s2. simpl. unfold bind at 1. rewrite Hstep.
    split; [exact Hrest |]. split; [simpl; lia | exact Hfresh2].
Qed.

(** X21.  With nothing persisted, when no stored item carries an
    identifier of the form the lookup searches for and the uuids to come
    are new and distinct, a pass of [syncGeneratorsToWorld] resolves and
    inserts one new item for every generator listed; afterwards the same
    conditions hold again, so the next pass over the same ledger inserts
    as many items once more. *)
Theorem sync_pass_inserts_every_generator (svc : SuiGameService)
    (gameId : string) (horizon : nat) (s : State) :
  currentGameId svc = Some gameId -> gameId <> "" ->
  let gens := getAllGenerators svc gameId in
  fresh_uuids (List.length gens + horizon) gens s ->
  exists s',
    syncGeneratorsToWorld svc s = (Return tt, s') /\
    List.length (GameWorld.items (world s'))
      = (List.length (GameWorld.items (world s)) + List.length gens)%nat /\
    fresh_uuids horizon gens s'.
Proof.
  intros Hcur Hne. cbv zeta. intros Hfresh.
  unfold syncGeneratorsToWorld. rewrite Hcur. unfold truthy_string.
  destruct (String.eqb_spec gameId ""); [contradiction |]. simpl.
  apply (for_each_inserts (getAllGenerators svc gameId)); [| exact Hfresh].
  intros g Hg; exact Hg.
Qed.

Lemma state0_fresh : fresh_uuids (1 + 1) (getAllGenerators service0 "0x77") state0.
Proof.
  unfold fresh_uuids. simpl. split; [reflexivity |]. split; [| split].
  - intros item gen [].
  - intros n Hn. split; [reflexivity |].
    intros gen [<- | []].
    assert (n = 0 \/ n = 1)%nat as [-> | ->] by lia; simpl; discriminate.
  - intros n m Hn Hnm Hm.
    assert (n = 0 /\ m = 1)%nat as [-> ->] by lia. simpl. discriminate.
Defined.

Lemma sync_pass_inserts_every_generator_witness :
  exists s',
    syncGeneratorsToWorld service0 state0 = (Return tt, s') /\
    List.length (GameWorld.items (world s')) = 1%nat.
Proof.
  destruct (sync_pass_inserts_every_generator service0 "0x77" 1 state0
              eq_refl ltac:(discriminate) state0_fresh)
    as (s' & Hrun & Hlen & _).
  exists s'. split; [exact Hrun | exact Hlen].
Defined.

(** ** Shared generators *)

(** X22.  On a ledger where every object of the [Generator] type is a
    shared object, which is how [create_generators] leaves the generators
    it creates, [getAllGenerators] returns the empty list for every match,
    and a pass of [syncGeneratorsToWorld] changes nothing in the world. *)
Theorem shared_generators_not_listed (ledger : list LedgerObject)
    (pkg : string) (current : option string) (gameId : string) (s : State) :
  (forall o, In o ledger ->
     object_type o = pkg ++ "::resource_game::Generator" ->
     object_owner o = Shared) ->
  getAllGenerators (mkService (node ledger) pkg current) gameId = [] /\
  syncGeneratorsToWorld (mkService (node ledger) pkg current) s
    = (Return tt, s).
Proof.
  intros Hshared.
  assert (Hnone : forall gid,
            getAllGenerators (mkService (node ledger) pkg current) gid = []).
  { intros gid. rewrite SuiFacts.getAllGenerators_node.
    unfold enumerated_generators.
    induction (declared_participants ledger gid) as [| p ps IH]; simpl;
      [reflexivity |].
    rewrite IH, app_nil_r.
    assert (Hall : forall l, incl l ledger ->
              flat_map (enumerate_participant pkg gid p) l = []).
    { induction l as [| o l IHl]; intros Hincl; simpl; [reflexivity |].
      rewrite IHl by (intros x Hx; apply Hincl; right; exact Hx).
      rewrite app_nil_r. unfold enumerate_participant.
      destruct (generator_info o); [| reflexivity].
      destruct (String.eqb_spec (object_type o)
                  (pkg ++ "::resource_game::Generator")) as [Et |].
      - unfold held_by.
        rewrite (Hshared o (Hincl o (or_introl eq_refl)) Et). reflexivity.
      - rewrite andb_false_r. reflexivity. }
    apply Hall. intros x Hx; exact Hx. }
  split; [apply Hnone |].
  unfold syncGeneratorsToWorld; simpl.
  destruct current as [gid |]; [| reflexivity].
  destruct (truthy_string gid); [| reflexivity].
  rewrite Hnone. reflexivity.
Qed.

Lemma shared_generators_not_listed_witness :
  getAllGenerators (mkService (node ledger_shared) "0xpkg" (Some "0x77")) "0x77"
  = [].
Proof.
  refine (proj1 (shared_generators_not_listed ledger_shared "0xpkg"
                   (Some "0x77") "0x77" state0 _)).
  intros o [<- | [<- | []]]; simpl; intros H; [discriminate H | reflexivity].
Defined.

End LedgerClientFacts.
